(** * QuizMaster: the quiz session, the results view and the dashboard

    A shallow embedding of the three screens of the application
    ([QuizInterface], [QuizResults], [Dashboard]) and of the arithmetic they
    perform, of the quiz card, of the navigation between the screens
    ([App]) and of the sign-in form, followed by the properties of the
    specification and further properties of the code.

    JavaScript numbers are IEEE-754 binary64 values.  Counters, array
    lengths, clock readings in milliseconds and the integer columns read
    from the database are integers far below 2^53; sums, differences and
    increments of such values are exact, and they are kept in [Z].  Every
    division the screens perform ([score / total], [elapsed / 1000],
    [timeTaken / totalQuestions]) is carried out in binary64, with the
    operations of [SpecFloat] at precision 53. *)

From Stdlib Require Import ZArith Bool Lia.
From Stdlib Require Import Floats.SpecFloat.
From stdpp Require Import gmap strings list pretty.

Local Open Scope Z_scope.

(** ** JavaScript numbers *)

Module JS.

Definition prec : Z := 53.
Definition emax : Z := 1024.

Definition number : Type := spec_float.

#[global] Instance number_eq_dec : EqDecision number.
Proof. solve_decision. Defined.

(** The number denoted by an integer literal or an integer value. *)
Definition of_Z (z : Z) : number := binary_normalize prec emax z 0 false.

Definition NaN : number := S754_nan.
Definition neg_Infinity : number := S754_infinity true.

(** [x / y] and [x * y]. *)
Definition div (x y : number) : number := SFdiv prec emax x y.
Definition mul (x y : number) : number := SFmul prec emax x y.

(** [x >= y] and [x > y]; both are false when an operand is NaN. *)
Definition ge (x y : number) : bool := SFleb y x.
Definition gt (x y : number) : bool := SFltb y x.

(** The signed mantissa of a finite number. *)
Definition signed (s : bool) (m : positive) : Z :=
  if s then Z.neg m else Z.pos m.

(** [Math.round]: the nearest integer, a tie going to the larger one. *)
Definition Math_round (x : number) : number :=
  match x with
  | S754_finite s m e =>
      if 0 <=? e then x
      else
        let n := (2 * signed s m + 2 ^ (- e)) / (2 * 2 ^ (- e)) in
        if n =? 0 then S754_zero s else of_Z n
  | _ => x
  end.

(** [Math.floor]. *)
Definition Math_floor (x : number) : number :=
  match x with
  | S754_finite s m e =>
      if 0 <=? e then x
      else
        let n := signed s m / 2 ^ (- e) in
        if n =? 0 then S754_zero s else of_Z n
  | _ => x
  end.

(** [Math.max] of two arguments: NaN is contagious and [+0] is larger
    than [-0]. *)
Definition max2 (a b : number) : number :=
  match SFcompare a b with
  | None => NaN
  | Some Lt => b
  | Some Gt => a
  | Some Eq =>
      match a, b with
      | S754_zero true, S754_zero false => b
      | _, _ => a
      end
  end.

(** [Math.max(...xs)]; it is [-Infinity] for no argument. *)
Definition Math_max (xs : list number) : number :=
  fold_left max2 xs neg_Infinity.

(** The integer a number denotes, when it denotes one. *)
Definition to_Z (x : number) : option Z :=
  match x with
  | S754_zero _ => Some 0
  | S754_finite s m e =>
      if 0 <=? e then Some (signed s m * 2 ^ e)
      else if signed s m mod 2 ^ (- e) =? 0
           then Some (signed s m / 2 ^ (- e)) else None
  | _ => None
  end.

(** The number of binary digits of a positive integer. *)
Definition digits (p : positive) : Z := Z.pos (digits2_pos p).

End JS.

(** What the backend answers to one query: [{ data, error }] with [error]
    set, or a rejected promise, is [Failed]; otherwise the data. *)
Inductive Reply (A : Type) : Type :=
| Data (d : A)
| Failed (err : string).
Arguments Data {A} d.
Arguments Failed {A} err.

(** ** The results view (QuizResults.tsx) *)

Module QuizResults.
Import JS.

Record Question := mkQuestion {
  id : string;
  question_text : string;
  option_a : string;
  option_b : string;
  option_c : string;
  option_d : string;
  correct_answer : string
}.

(** [const scorePercentage = Math.round((score / totalQuestions) * 100)] *)
Definition scorePercentage (score totalQuestions : number) : number :=
  Math_round (mul (div score totalQuestions) (of_Z 100)).

(** The grade shown under "Grade". *)
Definition grade (scorePercentage : number) : string :=
  if ge scorePercentage (of_Z 90) then "A"
  else if ge scorePercentage (of_Z 80) then "B"
  else if ge scorePercentage (of_Z 70) then "C"
  else if ge scorePercentage (of_Z 60) then "D"
  else "F".

(** [Math.round(timeTaken / totalQuestions)], shown under
    "Average per Question". *)
Definition averagePerQuestion (timeTaken totalQuestions : number) : number :=
  Math_round (div timeTaken totalQuestions).

(** The state of the component. *)
Record State := mkState {
  questions : list Question;
  userAnswers : gmap string string;
  quizTitle : string;
  loading : bool
}.

Definition initial : State :=
  {| questions := []; userAnswers := ∅; quizTitle := ""; loading := true |}.

(** The three queries of [fetchQuizData], in the order it issues them. *)
Inductive Query := SelectTitle | SelectQuestions | SelectLatestAttempt.

(** The answers the backend holds ready for them. *)
Record Backend := mkBackend {
  titleReply : Reply string;
  questionsReply : Reply (option (list Question));
  attemptReply : Reply (option (gmap string string))
}.

(** A computation of the [try] block: it records the queries it issues
    and either yields a value or throws. *)
Definition Try (A : Type) : Type := list Query → list Query * Reply A.

Definition ret {A} (a : A) : Try A := λ qs, (qs, Data a).

Definition bind {A B} (m : Try A) (k : A → Try B) : Try B :=
  λ qs, match m qs with
        | (qs', Data a) => k a qs'
        | (qs', Failed e) => (qs', Failed e)
        end.

(** [const { data, error } = await ...; if (error) throw error] *)
Definition query {A} (q : Query) (r : Reply A) : Try A :=
  λ qs, (qs ++ [q], r).

Record World := mkWorld {
  state : State;
  issued : list Query;
  console : list string
}.

Definition fetched (b : Backend)
  : Try (string * option (list Question) * option (gmap string string)) :=
  bind (query SelectTitle (titleReply b)) (λ quizData,
  bind (query SelectQuestions (questionsReply b)) (λ questionsData,
  bind (query SelectLatestAttempt (attemptReply b)) (λ attemptData,
  ret (quizData, questionsData, attemptData)))).

(** [fetchQuizData]: the [try] block, then [catch], then [finally]. *)
Definition fetchQuizData (b : Backend) (w : World) : World :=
  let s := state w in
  match fetched b (issued w) with
  | (qs, Data (quizData, questionsData, attemptData)) =>
      {| state := {| questions := default [] questionsData;
                     userAnswers := default ∅ attemptData;
                     quizTitle := quizData;
                     loading := false |};
         issued := qs;
         console := console w |}
  | (qs, Failed e) =>
      {| state := {| questions := questions s;
                     userAnswers := userAnswers s;
                     quizTitle := quizTitle s;
                     loading := false |};
         issued := qs;
         console := console w ++ ["Error fetching quiz data: " +:+ e] |}
  end.

Definition mounted : World :=
  {| state := initial; issued := []; console := [] |}.

(** Whether some query of the backend fails. *)
Definition some_failure (b : Backend) : Prop :=
  (∃ e, titleReply b = Failed e) ∨ (∃ e, questionsReply b = Failed e)
  ∨ (∃ e, attemptReply b = Failed e).

(** The queries issued up to and including the first failing one, and
    its error. *)
Definition first_failure (b : Backend) : option (list Query * string) :=
  match titleReply b, questionsReply b, attemptReply b with
  | Failed e, _, _ => Some ([SelectTitle], e)
  | Data _, Failed e, _ => Some ([SelectTitle; SelectQuestions], e)
  | Data _, Data _, Failed e =>
      Some ([SelectTitle; SelectQuestions; SelectLatestAttempt], e)
  | Data _, Data _, Data _ => None
  end.

End QuizResults.

(** ** The dashboard (Dashboard.tsx) *)

Module Dashboard.
Import JS.

Record QuizAttempt := mkAttempt {
  quiz_id : string;
  score : Z;
  total_questions : Z;
  time_taken_seconds : Z
}.

Record UserStats := mkStats {
  totalAttempts : Z;
  averageScore : number;
  bestScore : number;
  timeSpent : Z
}.

Record State := mkState {
  userStats : UserStats;
  quizAttempts : list QuizAttempt;
  console : list string
}.

(** The component's [useState] initial values. *)
Definition initial : State :=
  {| userStats := {| totalAttempts := 0; averageScore := of_Z 0;
                     bestScore := of_Z 0; timeSpent := 0 |};
     quizAttempts := [];
     console := [] |}.

(** [Math.round((attempt.score / attempt.total_questions) * 100)] *)
Definition percent (attempt : QuizAttempt) : number :=
  Math_round
    (mul (div (of_Z (score attempt)) (of_Z (total_questions attempt)))
         (of_Z 100)).

(** [attempts.reduce((sum, attempt) => sum + f(attempt), 0)] *)
Definition reduce_sum (f : QuizAttempt → Z) (attempts : list QuizAttempt) : Z :=
  fold_left (λ sum attempt, sum + f attempt) attempts 0.

(** The statistics computed in the branch [attempts.length > 0]. *)
Definition computeStats (attempts : list QuizAttempt) : UserStats :=
  let totalAttempts := Z.of_nat (length attempts) in
  let totalScore := reduce_sum score attempts in
  let totalPossibleScore := reduce_sum total_questions attempts in
  let averageScore :=
    if 0 <? totalPossibleScore
    then Math_round
           (mul (div (of_Z totalScore) (of_Z totalPossibleScore)) (of_Z 100))
    else of_Z 0 in
  let bestScore := Math_max (map percent attempts) in
  let timeSpent := reduce_sum time_taken_seconds attempts in
  {| totalAttempts := totalAttempts; averageScore := averageScore;
     bestScore := bestScore; timeSpent := timeSpent |}.

(** [fetchUserStats], given the signed-in user and the backend's answer
    to the query for that user's attempts. *)
Definition fetchUserStats (user : option string)
    (reply : Reply (option (list QuizAttempt))) (s : State) : State :=
  match user with
  | None => s
  | Some _ =>
      match reply with
      | Failed e =>
          {| userStats := userStats s; quizAttempts := quizAttempts s;
             console := console s ++ ["Error fetching user stats: " +:+ e] |}
      | Data data =>
          let attempts := default [] data in
          {| userStats :=
               if (0 <? Z.of_nat (length attempts))
               then computeStats attempts else userStats s;
             quizAttempts := attempts;
             console := console s |}
      end
  end.

(** [getQuizAttempts] *)
Definition getQuizAttempts (s : State) (quizId : string) : Z :=
  Z.of_nat (length (filter (λ attempt, quiz_id attempt = quizId) (quizAttempts s))).

(** [getBestScore]; [None] is [undefined]. *)
Definition getBestScore (s : State) (quizId : string) : option number :=
  let attempts := filter (λ attempt, quiz_id attempt = quizId) (quizAttempts s) in
  if (Z.of_nat (length attempts) =? 0) then None
  else Some (Math_max (map percent attempts)).

(** The dashboard after its first successful load of the attempts [L]. *)
Definition loaded (user : string) (L : list QuizAttempt) : State :=
  fetchUserStats (Some user) (Data (Some L)) initial.

End Dashboard.

(** ** The quiz session (QuizInterface.tsx)

    The component is modelled as a transition system.  Its state is the
    content of its [useState] cells; an event is the arrival of a reply
    from the backend, the firing of the one-second timer, or a click on a
    control that the rendered screen offers.  An event is handled against
    the state of the last render, the state updates of one handler are
    applied together, and the effect on [[timeLeft, quiz]] runs before the
    next event is handled. *)

Module QuizInterface.
Import JS.

Record Question := mkQuestion {
  id : string;
  question_text : string;
  option_a : string;
  option_b : string;
  option_c : string;
  option_d : string;
  correct_answer : string;
  question_order : Z
}.

Record Quiz := mkQuiz {
  quiz_ident : string;
  title : string;
  description : option string;
  duration_minutes : Z;
  quiz_total_questions : Z
}.

(** The object handed to [insert] on [user_quiz_attempts]. *)
Record Attempt := mkAttempt {
  user_id : string;
  quiz_id : string;
  score : Z;
  total_questions : Z;
  time_taken_seconds : number;
  attempt_answers : gmap string string;
  completed_at : Z
}.

(** What is fixed while the component is mounted: the [quizId] prop, the
    signed-in user's id, and [startTime], the clock reading at mount. *)
Record Env := mkEnv {
  quizId : string;
  user : option string;
  startTime : Z
}.

(** The [useState] cells. *)
Record State := mkState {
  quiz : option Quiz;
  questions : list Question;
  currentQuestionIndex : Z;
  answers : gmap string string;
  timeLeft : Z;
  loading : bool;
  submitting : bool
}.

(** The component together with what it has done to its surroundings:
    inserts awaiting the backend's answer, every insert issued so far,
    those the backend refused, the rows it stored, the console, the
    arguments of [onComplete] once it was called, and how often the
    countdown effect has called [handleSubmit]. *)
Record World := mkWorld {
  ui : State;
  pending : list Attempt;
  issued : list Attempt;
  failed : list Attempt;
  stored : list Attempt;
  console : list string;
  completed : option (Z * Z * number);
  autoSubmits : nat
}.

Definition initial : State :=
  {| quiz := None; questions := []; currentQuestionIndex := 0;
     answers := ∅; timeLeft := 0; loading := true; submitting := false |}.

Definition mounted : World :=
  {| ui := initial; pending := []; issued := []; failed := []; stored := [];
     console := []; completed := None; autoSubmits := 0 |}.

Definition setCurrentQuestionIndex (i : Z) (s : State) : State :=
  {| quiz := quiz s; questions := questions s; currentQuestionIndex := i;
     answers := answers s; timeLeft := timeLeft s; loading := loading s;
     submitting := submitting s |}.

Definition setAnswers (a : gmap string string) (s : State) : State :=
  {| quiz := quiz s; questions := questions s;
     currentQuestionIndex := currentQuestionIndex s;
     answers := a; timeLeft := timeLeft s; loading := loading s;
     submitting := submitting s |}.

Definition setTimeLeft (t : Z) (s : State) : State :=
  {| quiz := quiz s; questions := questions s;
     currentQuestionIndex := currentQuestionIndex s;
     answers := answers s; timeLeft := t; loading := loading s;
     submitting := submitting s |}.

Definition setLoading (b : bool) (s : State) : State :=
  {| quiz := quiz s; questions := questions s;
     currentQuestionIndex := currentQuestionIndex s;
     answers := answers s; timeLeft := timeLeft s; loading := b;
     submitting := submitting s |}.

Definition setSubmitting (b : bool) (s : State) : State :=
  {| quiz := quiz s; questions := questions s;
     currentQuestionIndex := currentQuestionIndex s;
     answers := answers s; timeLeft := timeLeft s; loading := loading s;
     submitting := b |}.

Definition with_ui (f : State → State) (w : World) : World :=
  {| ui := f (ui w); pending := pending w; issued := issued w;
     failed := failed w; stored := stored w; console := console w;
     completed := completed w; autoSubmits := autoSubmits w |}.

Definition log (line : string) (w : World) : World :=
  {| ui := ui w; pending := pending w; issued := issued w;
     failed := failed w; stored := stored w;
     console := console w ++ [line];
     completed := completed w; autoSubmits := autoSubmits w |}.

(** [userAnswer || ''] *)
Definition or_empty (userAnswer : option string) : string :=
  match userAnswer with
  | Some a => if decide (a = "") then "" else a
  | None => ""
  end.

(** The body of [questions.forEach] in [handleSubmit], on the pair of
    [score] and [userAnswers]. *)
Definition forEach_body (answers : gmap string string)
    (acc : Z * gmap string string) (question : Question)
    : Z * gmap string string :=
  let userAnswer := answers !! id question in
  let userAnswers := <[id question := or_empty userAnswer]> (snd acc) in
  (if decide (userAnswer = Some (correct_answer question))
   then fst acc + 1 else fst acc,
   userAnswers).

Definition scoreAnswers (questions : list Question)
    (answers : gmap string string) : Z * gmap string string :=
  fold_left (forEach_body answers) questions (0, ∅).

(** [Math.floor((Date.now() - startTime) / 1000)] *)
Definition timeTaken (startTime now : Z) : number :=
  Math_floor (div (of_Z (now - startTime)) (of_Z 1000)).

(** The object [handleSubmit] builds at clock reading [now]. *)
Definition attempt (env : Env) (u : string) (s : State) (now : Z) : Attempt :=
  let '(score, userAnswers) := scoreAnswers (questions s) (answers s) in
  {| user_id := u;
     quiz_id := quizId env;
     score := score;
     total_questions := Z.of_nat (length (questions s));
     time_taken_seconds := timeTaken (startTime env) now;
     attempt_answers := userAnswers;
     completed_at := now |}.

(** [handleSubmit] up to its [await]: the guard, [setSubmitting(true)],
    and the insert it issues. *)
Definition handleSubmit (env : Env) (now : Z) (w : World) : World :=
  match submitting (ui w), quiz (ui w), user env with
  | false, Some _, Some u =>
      let row := attempt env u (ui w) now in
      {| ui := setSubmitting true (ui w);
         pending := pending w ++ [row];
         issued := issued w ++ [row];
         failed := failed w; stored := stored w; console := console w;
         completed := completed w; autoSubmits := autoSubmits w |}
  | _, _, _ => w
  end.

(** [handleSubmit] after its [await], when the insert succeeded:
    [onComplete(score, questions.length, timeTaken)], then [finally]. *)
Definition insertSucceeded (row : Attempt) (rest : list Attempt) (w : World)
    : World :=
  {| ui := setSubmitting false (ui w);
     pending := rest;
     issued := issued w; failed := failed w;
     stored := stored w ++ [row];
     console := console w;
     completed := Some (score row, total_questions row, time_taken_seconds row);
     autoSubmits := autoSubmits w |}.

(** ... and when it failed: [catch], then [finally]. *)
Definition insertFailed (err : string) (row : Attempt) (rest : list Attempt)
    (w : World) : World :=
  {| ui := setSubmitting false (ui w);
     pending := rest;
     issued := issued w; failed := failed w ++ [row];
     stored := stored w;
     console := console w ++ ["Error submitting quiz: " +:+ err];
     completed := completed w;
     autoSubmits := autoSubmits w |}.

(** The effect on [[timeLeft, quiz]], run after a render in which one of
    the two changed.  With [timeLeft > 0] it arms the one-second timer,
    whose callback is the event [Tick] below. *)
Definition countdownEffect (env : Env) (now : Z) (w : World) : World :=
  if 0 <? timeLeft (ui w) then w
  else if (timeLeft (ui w) =? 0) && bool_decide (is_Some (quiz (ui w)))
  then handleSubmit env now
         {| ui := ui w; pending := pending w; issued := issued w;
            failed := failed w; stored := stored w; console := console w;
            completed := completed w; autoSubmits := S (autoSubmits w) |}
  else w.

(** What can happen to a mounted session. *)
Inductive Event :=
| FetchOk (quizData : Quiz) (questionsData : option (list Question))
| FetchFailed (err : string)
| Tick
| Select (answer : string)
| Previous
| Next
| Jump (index : nat)
| Submit
| InsertOk
| InsertFailed (err : string).

(** The question screen is rendered: past the spinner and past the
    "Quiz not found or no questions available" screen. *)
Definition shown (s : State) : bool :=
  negb (loading s) && bool_decide (is_Some (quiz s))
  && negb (Z.of_nat (length (questions s)) =? 0).

Definition currentQuestion (s : State) : option Question :=
  questions s !! Z.to_nat (currentQuestionIndex s).

Definition optionKeys : list string := ["A"; "B"; "C"; "D"].

(** One event, handled at clock reading [now].  An event that the
    screen does not offer in the current state changes nothing. *)
Definition step (env : Env) (now : Z) (e : Event) (w : World) : World :=
  let s := ui w in
  let len := Z.of_nat (length (questions s)) in
  match completed w with
  | Some _ => w
  | None =>
    match e with
    | FetchOk quizData questionsData =>
        if loading s then
          countdownEffect env now
            (with_ui (λ s,
               {| quiz := Some quizData;
                  questions := default [] questionsData;
                  currentQuestionIndex := currentQuestionIndex s;
                  answers := answers s;
                  timeLeft := duration_minutes quizData * 60;
                  loading := false;
                  submitting := submitting s |}) w)
        else w
    | FetchFailed err =>
        if loading s
        then with_ui (setLoading false)
               (log ("Error fetching quiz data: " +:+ err) w)
        else w
    | Tick =>
        if 0 <? timeLeft s
        then countdownEffect env now (with_ui (setTimeLeft (timeLeft s - 1)) w)
        else w
    | Select answer =>
        match currentQuestion s with
        | Some question =>
            if shown s && bool_decide (answer ∈ optionKeys)
            then with_ui (setAnswers (<[id question := answer]> (answers s))) w
            else w
        | None => w
        end
    | Previous =>
        if shown s && negb (currentQuestionIndex s =? 0)
        then with_ui (setCurrentQuestionIndex
                        (Z.max 0 (currentQuestionIndex s - 1))) w
        else w
    | Next =>
        if shown s && negb (currentQuestionIndex s =? len - 1)
        then with_ui (setCurrentQuestionIndex
                        (Z.min (len - 1) (currentQuestionIndex s + 1))) w
        else w
    | Jump index =>
        if shown s && (Z.of_nat index <? len)
        then with_ui (setCurrentQuestionIndex (Z.of_nat index)) w
        else w
    | Submit =>
        if shown s && (currentQuestionIndex s =? len - 1)
           && negb (submitting s)
        then handleSubmit env now w
        else w
    | InsertOk =>
        match pending w with
        | row :: rest => insertSucceeded row rest w
        | [] => w
        end
    | InsertFailed err =>
        match pending w with
        | row :: rest => insertFailed err row rest w
        | [] => w
        end
    end
  end.

(** A session is a sequence of events, each with the clock reading at
    which it is handled. *)
Definition run (env : Env) (trace : list (Z * Event)) (w : World) : World :=
  fold_left (λ w ev, step env (fst ev) (snd ev) w) trace w.

(** An event that moves between questions. *)
Definition navigation (e : Event) : bool :=
  match e with
  | Previous | Next | Jump _ => true
  | _ => false
  end.

(** The quiz the trace delivers has a non-negative duration. *)
Definition nonneg_duration (ev : Z * Event) : Prop :=
  match snd ev with
  | FetchOk quizData _ => 0 <= duration_minutes quizData
  | _ => True
  end.

#[global] Instance nonneg_duration_dec ev : Decision (nonneg_duration ev).
Proof. unfold nonneg_duration. destruct (snd ev); apply _. Defined.

(** The ids of a question list. *)
Definition ids (questions : list Question) : list string := map id questions.

(** The number of questions answered with their [correct_answer]. *)
Definition correct_count (questions : list Question)
    (answers : gmap string string) : Z :=
  Z.of_nat (length (filter
    (λ question, answers !! id question = Some (correct_answer question))
    questions)).

(** What relates the inserts of a session: every insert issued was
    refused, or is stored, or is pending, in this order; at most one is
    stored or pending, and [submitting] is set exactly while one is
    pending. *)
Definition guarded (w : World) : Prop :=
  issued w = failed w ++ stored w ++ pending w
  ∧ (length (stored w) + length (pending w) <= 1)%nat
  ∧ (submitting (ui w) = true ↔ pending w ≠ [])
  ∧ (stored w ≠ [] ↔ is_Some (completed w)).

(** The two ways a submission starts in a world [w]: the click on
    "Submit Quiz", offered on the last question, and the tick that takes
    the countdown from one to zero. *)
Definition submission (e : Event) (w : World) : Prop :=
  (e = Submit ∧ shown (ui w) = true
   ∧ currentQuestionIndex (ui w) = Z.of_nat (length (questions (ui w))) - 1)
  ∨ (e = Tick ∧ timeLeft (ui w) = 1).

(** The current index is that of a question; it is zero while there is
    none to show. *)
Definition in_range (w : World) : Prop :=
  (shown (ui w) = false → currentQuestionIndex (ui w) = 0)
  ∧ (shown (ui w) = true →
     0 <= currentQuestionIndex (ui w) < Z.of_nat (length (questions (ui w)))).

(** The quiz is loaded and the countdown stands at zero. *)
Definition at_zero (w : World) : bool :=
  bool_decide (is_Some (quiz (ui w))) && (timeLeft (ui w) =? 0).

(** The countdown effect has called [handleSubmit] once if the quiz is
    loaded and the countdown stands at zero, and not at all otherwise. *)
Definition fired (w : World) : Prop :=
  autoSubmits w = if at_zero w then 1%nat else 0%nat.

(** Until the quiz is loaded the countdown stands at its initial zero. *)
Definition unloaded (w : World) : Prop :=
  (loading (ui w) = true → quiz (ui w) = None)
  ∧ (quiz (ui w) = None → timeLeft (ui w) = 0 ∧ questions (ui w) = [])
  ∧ (issued w ≠ [] → is_Some (quiz (ui w))).

End QuizInterface.

(** ** The specification's arithmetic *)

(** The specification's [round(100 × score / total)], for [total > 0]: the
    integer nearest to the exact quotient, a tie going to the larger one. *)
Definition spec_percentage (score total : Z) : Z :=
  (200 * score + total) / (2 * total).

(** The only scores out of at most 100 questions whose percentage is shown
    one lower than [spec_percentage]. *)
Definition shown_lower (score total : Z) : bool :=
  bool_decide ((score, total) = (23, 40) ∨ (score, total) = (46, 80)).

(** The sum of a list of integers. *)
Definition spec_sum (xs : list Z) : Z := foldr Z.add 0 xs.

(** The largest element of a non-empty list of integers. *)
Definition spec_maximum (xs : list Z) : option Z :=
  match xs with
  | [] => None
  | x :: xs => Some (fold_left Z.max xs x)
  end.

(** ** What the dashboard may show *)

Module DashboardSpec.
Import JS Dashboard.

(** An attempt on a quiz with questions, with a score that its total
    allows. *)
Definition plausible (a : QuizAttempt) : Prop :=
  0 <= score a <= total_questions a ∧ 0 < total_questions a < 2 ^ 32.

(** A whole number that may be shown as the percentage of an attempt:
    the specified one, or at a tie the one below. *)
Definition shows (a : QuizAttempt) (n : Z) : Prop :=
  percent a = of_Z n
  ∧ 0 <= n <= 100
  ∧ (n = spec_percentage (score a) (total_questions a)
     ∨ n = spec_percentage (score a) (total_questions a) - 1)
  ∧ ((200 * score a + total_questions a) mod (2 * total_questions a) ≠ 0 →
     n = spec_percentage (score a) (total_questions a)).

End DashboardSpec.

(** ** Sessions used as examples *)

Module Scenario.
Import JS QuizInterface.

Definition env : Env :=
  {| quizId := "quiz-1"; user := Some "user-1"; startTime := 1000 |}.

Definition question (i correct : string) (order : Z) : Question :=
  {| id := i; question_text := "?"; option_a := "a"; option_b := "b";
     option_c := "c"; option_d := "d"; correct_answer := correct;
     question_order := order |}.

Definition five : list Question :=
  [question "q1" "A" 1; question "q2" "B" 2; question "q3" "C" 3;
   question "q4" "D" 4; question "q5" "A" 5].

Definition quiz20 : Quiz :=
  {| quiz_ident := "quiz-1"; title := "General knowledge";
     description := None; duration_minutes := 20;
     quiz_total_questions := 5 |}.

(** Five questions, twenty minutes: three are answered correctly, two
    are left blank, and the last question is reached. *)
Definition answering : list (Z * Event) :=
  [(1200, FetchOk quiz20 (Some five));
   (5000, Select "A"); (6000, Next);
   (9000, Select "D"); (9500, Select "B"); (10000, Jump 2);
   (15000, Select "C"); (16000, Jump 4)].

Definition quiz1 : Quiz :=
  {| quiz_ident := "quiz-1"; title := "One minute";
     description := None; duration_minutes := 1;
     quiz_total_questions := 1 |}.

Definition ticks (from : nat) (n : nat) : list (Z * Event) :=
  map (λ i, (Z.of_nat i * 1000, Tick)) (seq from n).

(** One question, one minute: the submit click's insert is refused, and
    the countdown then runs out. *)
Definition refused : list (Z * Event) :=
  [(1200, FetchOk quiz1 (Some [question "q1" "A" 1]));
   (2000, Submit); (2600, InsertFailed "503")].

Definition refused_then_timeout : list (Z * Event) :=
  refused ++ ticks 3 60.

End Scenario.

(** ** Tactics for the steps of a session *)

Module SessionTactics.
Import QuizInterface.

Ltac world w :=
  destruct w as [[qz qs idx ans tl ld sub] pend iss fl st con comp auto];
  cbn [ui pending issued failed stored console completed autoSubmits
       quiz questions currentQuestionIndex answers timeLeft loading
       submitting] in *.

Ltac open_step :=
  unfold step, countdownEffect, handleSubmit, insertSucceeded, insertFailed,
    with_ui, log, setLoading, setTimeLeft, setAnswers, setSubmitting,
    setCurrentQuestionIndex, currentQuestion, shown in *;
  cbn [ui pending issued failed stored console completed autoSubmits
       quiz questions currentQuestionIndex answers timeLeft loading
       submitting fst snd] in *.

Ltac cases :=
  repeat match goal with
    | |- context [match ?x with _ => _ end] => destruct x eqn:?
    end;
  cbn [ui pending issued failed stored console completed autoSubmits
       quiz questions currentQuestionIndex answers timeLeft loading
       submitting fst snd] in *.

Ltac props :=
  repeat match goal with
    | H : (_ <? _) = true |- _ => apply Z.ltb_lt in H
    | H : (_ <? _) = false |- _ => apply Z.ltb_ge in H
    | H : (_ =? _) = true |- _ => apply Z.eqb_eq in H
    | H : (_ =? _) = false |- _ => apply Z.eqb_neq in H
    | H : _ && _ = true |- _ => apply andb_true_iff in H as [? ?]
    | H : negb _ = true |- _ => apply negb_true_iff in H
    | H : negb _ = false |- _ => apply negb_false_iff in H
    | H : bool_decide _ = true |- _ => apply bool_decide_eq_true in H
    | H : bool_decide _ = false |- _ => apply bool_decide_eq_false in H
    end.

End SessionTactics.

(** ** Text *)

Module JSText.
Import JS.

(** The text of a number in a template literal, for a number that denotes
    an integer of magnitude below 10^21: its decimal notation.  A
    fraction, NaN and the infinities are given no text here ([None]). *)
Definition Number_toString (x : number) : option string :=
  match to_Z x with
  | Some z => if Z.abs z <? 10 ^ 21 then Some (pretty z) else None
  | None => None
  end.

(** [n] copies of [c]. *)
Fixpoint repeat_char (n : nat) (c : string) : string :=
  match n with
  | O => ""
  | S n => c +:+ repeat_char n c
  end.

(** [s.padStart(targetLength, padString)] for a [padString] of one
    character. *)
Definition padStart (s : string) (targetLength : nat) (padString : string)
    : string :=
  repeat_char (targetLength - String.length s) padString +:+ s.

(** [s.includes(searchString)] *)
Fixpoint includes (s searchString : string) : bool :=
  String.prefix searchString s
  || match s with
     | EmptyString => false
     | String _ rest => includes rest searchString
     end.

(** [value || fallback] on a string that may be [undefined] or [null]. *)
Definition or_else (value : option string) (fallback : string) : string :=
  match value with
  | Some v => if decide (v = "") then fallback else v
  | None => fallback
  end.

End JSText.

(** ** The quiz session: what it renders, and how it loads *)

Module QuizInterfaceView.
Import JS JSText QuizInterface.

(** [formatTime], applied to a whole number of seconds; on whole numbers
    [seconds % 60] is the remainder of the division that truncates. *)
Definition formatTime (seconds : Z) : option string :=
  let mins := Math_floor (div (of_Z seconds) (of_Z 60)) in
  let secs := Z.rem seconds 60 in
  mins_text ← Number_toString mins;
  Some (mins_text +:+ ":" +:+ padStart (pretty secs) 2 "0").

(** [const progress = ((currentQuestionIndex + 1) / questions.length) * 100] *)
Definition progress (s : State) : number :=
  mul (div (of_Z (currentQuestionIndex s + 1))
           (of_Z (Z.of_nat (length (questions s)))))
      (of_Z 100).

(** The two queries of [fetchQuizData], in the order it issues them. *)
Inductive Query := SelectQuiz | SelectQuestions.

Record Backend := mkBackend {
  quizReply : Reply Quiz;
  questionsReply : Reply (option (list Question))
}.

(** [fetchQuizData]: the queries it issues, and the event by which its
    outcome reaches the component. *)
Definition fetchQuizData (b : Backend) : list Query * Event :=
  match quizReply b with
  | Failed e => ([SelectQuiz], FetchFailed e)
  | Data quizData =>
      match questionsReply b with
      | Failed e => ([SelectQuiz; SelectQuestions], FetchFailed e)
      | Data questionsData =>
          ([SelectQuiz; SelectQuestions], FetchOk quizData questionsData)
      end
  end.

(** The button "Submit Quiz" is rendered: on the question screen, in
    place of "Next", when the current question is the last one. *)
Definition submitRendered (s : State) : bool :=
  shown s && (currentQuestionIndex s =? Z.of_nat (length (questions s)) - 1).

(** ... and it is not disabled: [disabled={submitting}]. *)
Definition submitEnabled (s : State) : bool :=
  submitRendered s && negb (submitting s).

(** The event is a callback of the one-second timer. *)
Definition is_tick (e : Event) : bool :=
  match e with
  | Tick => true
  | _ => false
  end.

(** The number of timer callbacks in a trace. *)
Definition ticks_in (trace : list (Z * Event)) : Z :=
  Z.of_nat (length (filter (λ ev, is_tick (snd ev) = true) trace)).

(** The texts an answer map may hold for a question. *)
Definition storable : list string := "" :: optionKeys.

(** An attempt as the table expects it. *)
Definition well_formed (questions : list Question) (row : Attempt) : Prop :=
  0 <= score row <= total_questions row
  ∧ total_questions row = Z.of_nat (length questions)
  ∧ dom (attempt_answers row) = list_to_set (ids questions)
  ∧ ∀ k v, attempt_answers row !! k = Some v → v ∈ storable.

(** The answers collected so far belong to questions of the quiz, and
    each is the key of an option; none is collected before the quiz is
    loaded. *)
Definition answered_within (w : World) : Prop :=
  (loading (ui w) = true → answers (ui w) = ∅)
  ∧ ∀ k v, answers (ui w) !! k = Some v →
           k ∈ ids (questions (ui w)) ∧ v ∈ optionKeys.

(** The load has failed: the screen is "Quiz not found", and nothing
    has been sent or scheduled. *)
Definition not_found (w : World) : Prop :=
  loading (ui w) = false ∧ quiz (ui w) = None ∧ questions (ui w) = []
  ∧ timeLeft (ui w) = 0 ∧ issued w = [] ∧ pending w = []
  ∧ completed w = None ∧ autoSubmits w = 0%nat.

(** Nothing has been sent. *)
Definition silent (w : World) : Prop :=
  issued w = [] ∧ pending w = [] ∧ stored w = [] ∧ completed w = None.

(** What [onComplete] was called with is what the one stored row
    holds. *)
Definition reported (w : World) : Prop :=
  ∀ s t tt, completed w = Some (s, t, tt) →
    ∃ row, stored w = [row] ∧ score row = s ∧ total_questions row = t
           ∧ time_taken_seconds row = tt.

End QuizInterfaceView.

(** ** The results view: what it renders *)

Module QuizResultsView.
Import JS JSText QuizResults.

(** [formatTime], applied to a whole number of seconds; on whole numbers
    [seconds % 60] is the remainder of the division that truncates. *)
Definition formatTime (seconds : Z) : option string :=
  let mins := Math_floor (div (of_Z seconds) (of_Z 60)) in
  let secs := Z.rem seconds 60 in
  mins_text ← Number_toString mins;
  Some (mins_text +:+ ":" +:+ padStart (pretty secs) 2 "0").

Definition getScoreColor (percentage : number) : string :=
  if ge percentage (of_Z 80) then "text-green-600"
  else if ge percentage (of_Z 60) then "text-yellow-600"
  else "text-red-600".

Definition getScoreBackground (percentage : number) : string :=
  if ge percentage (of_Z 80) then "bg-green-50 border-green-200"
  else if ge percentage (of_Z 60) then "bg-yellow-50 border-yellow-200"
  else "bg-red-50 border-red-200".

(** [const isCorrect = userAnswer === question.correct_answer] *)
Definition isCorrect (userAnswers : gmap string string) (question : Question)
    : bool :=
  bool_decide (userAnswers !! id question = Some (correct_answer question)).

(** One option of a reviewed question as it is rendered. *)
Record OptionView := mkOptionView {
  key : string;
  text : string;
  className : string;
  correctMark : bool;
  yourAnswerMark : bool
}.

Definition options (question : Question) : list (string * string) :=
  [("A", option_a question); ("B", option_b question);
   ("C", option_c question); ("D", option_d question)].

Definition renderOption (userAnswers : gmap string string)
    (question : Question) (option : string * string) : OptionView :=
  let userAnswer := userAnswers !! id question in
  let isUserAnswer := bool_decide (userAnswer = Some (fst option)) in
  let isCorrectAnswer := bool_decide (correct_answer question = fst option) in
  {| key := fst option;
     text := snd option;
     className :=
       "p-3 rounded-lg border "
       +:+ (if isCorrectAnswer
            then "border-green-500 bg-green-50 text-green-700"
            else if isUserAnswer && negb (isCorrect userAnswers question)
            then "border-red-500 bg-red-50 text-red-700"
            else "border-gray-200 bg-gray-50");
     correctMark := isCorrectAnswer;
     yourAnswerMark := isUserAnswer && negb (isCorrect userAnswers question) |}.

(** One entry of the question review: the check or the cross, and the
    four options. *)
Definition renderQuestion (userAnswers : gmap string string)
    (question : Question) : bool * list OptionView :=
  (isCorrect userAnswers question,
   map (renderOption userAnswers question) (options question)).

(** The keys of the options that carry a mark. *)
Definition marked (mark : OptionView → bool) (views : list OptionView)
    : list string :=
  map key (filter (λ v, mark v = true) views).

(** The number of checks in the question review. *)
Definition checks (userAnswers : gmap string string)
    (questions : list Question) : Z :=
  Z.of_nat (length (filter (λ q, isCorrect userAnswers q = true) questions)).

(** A row of [questions] as the results view selects it, given the row
    as the quiz session selected it. *)
Definition reviewed (q : QuizInterface.Question) : Question :=
  {| id := QuizInterface.id q;
     question_text := QuizInterface.question_text q;
     option_a := QuizInterface.option_a q;
     option_b := QuizInterface.option_b q;
     option_c := QuizInterface.option_c q;
     option_d := QuizInterface.option_d q;
     correct_answer := QuizInterface.correct_answer q |}.

End QuizResultsView.

(** ** The quiz card (QuizCard.tsx) *)

Module QuizCard.
Import JS JSText.

Record Quiz := mkQuiz {
  id : string;
  title : string;
  description : option string;
  duration_minutes : Z;
  total_questions : Z;
  created_at : string;
  is_active : bool
}.

(** What a card shows besides the quiz's own columns: the description
    line, the best score beside the trophy if there is one, the line about
    earlier attempts, and the label of the button. *)
Record View := mkView {
  descriptionLine : string;
  trophy : option number;
  attemptsLine : string;
  buttonLabel : string
}.

(** The component; [userAttempts] is optional and defaults to 0. *)
Definition QuizCard (quiz : Quiz) (userAttempts : option Z)
    (bestScore : option number) : View :=
  let userAttempts := default 0 userAttempts in
  {| descriptionLine :=
       or_else (description quiz) "Test your knowledge with this quiz";
     trophy := bestScore;
     attemptsLine :=
       if 0 <? userAttempts
       then "Attempted " +:+ pretty userAttempts +:+ " time"
            +:+ (if 1 <? userAttempts then "s" else "")
       else "Not attempted yet";
     buttonLabel :=
       (if 0 <? userAttempts then "Retake" else "Start") +:+ " Quiz" |}.

End QuizCard.

(** ** The dashboard: how it loads (Dashboard.tsx, database.ts) *)

Module DashboardLoad.
Import JS Dashboard.

Inductive ConnectionStatus := testing | connected | failed.

(** What a rejected promise carries: an [Error] with its message, or
    some other value. *)
Inductive Thrown :=
| ErrorObject (message : string)
| OtherValue (text : string).

Definition thrown_text (t : Thrown) : string :=
  match t with
  | ErrorObject message => message
  | OtherValue text => text
  end.

(** The outcome of one call of the backend's client: [{ data, error }],
    where a set [error] is given by its message, or a rejection. *)
Inductive Response (A : Type) : Type :=
| Resolved (data : option A) (error : option string)
| Rejected (reason : Thrown).
Arguments Resolved {A} data error.
Arguments Rejected {A} reason.

Inductive Query := Probe | SelectQuizzes | SelectAttempts.

Record Backend := mkBackend {
  probeResponse : Response unit;
  quizzesResponse : Response (list QuizCard.Quiz);
  attemptsReply : Reply (option (list QuizAttempt))
}.

(** The [useState] cells of the dashboard, [userStats] and [quizAttempts]
    within [stats], together with the queries issued so far; the console
    holds the lines written by [console.error]. *)
Record Screen := mkScreen {
  quizzes : list QuizCard.Quiz;
  stats : Dashboard.State;
  loading : bool;
  error : option string;
  connectionStatus : ConnectionStatus;
  queries : list Query
}.

Definition initial : Screen :=
  {| quizzes := []; stats := Dashboard.initial; loading := true;
     error := None; connectionStatus := testing; queries := [] |}.

Definition log (lines : list string) (s : Dashboard.State) : Dashboard.State :=
  {| userStats := userStats s; quizAttempts := quizAttempts s;
     console := console s ++ lines |}.

(** [testConnection] of database.ts: its result, and what it writes to
    the console. *)
Definition testConnection (probe : Response unit) : bool * list string :=
  match probe with
  | Resolved _ (Some error) =>
      (false, ["Supabase connection test failed: " +:+ error])
  | Resolved _ None => (true, [])
  | Rejected reason =>
      (false, ["Supabase connection test error: " +:+ thrown_text reason])
  end.

(** The [catch] and [finally] blocks of [fetchQuizzes], entered with the
    value thrown, after the [try] block has written [lines]. *)
Definition caught (lines : list string) (reason : Thrown) (s : Screen)
    : Screen :=
  let errorMessage :=
    match reason with
    | ErrorObject message => message
    | OtherValue _ => "Unknown error occurred"
    end in
  {| quizzes := quizzes s;
     stats := log (lines ++ ["Error fetching quizzes: " +:+ thrown_text reason])
                  (stats s);
     loading := false;
     error := Some ("Failed to load quizzes: " +:+ errorMessage);
     connectionStatus := connectionStatus s;
     queries := queries s ++ [SelectQuizzes] |}.

(** [fetchQuizzes] *)
Definition fetchQuizzes (response : Response (list QuizCard.Quiz))
    (s : Screen) : Screen :=
  match response with
  | Resolved data None =>
      {| quizzes := default [] data;
         stats := stats s;
         loading := false;
         error := None;
         connectionStatus := connectionStatus s;
         queries := queries s ++ [SelectQuizzes] |}
  | Resolved _ (Some message) =>
      caught ["Supabase error: " +:+ message]
             (ErrorObject ("Database error: " +:+ message)) s
  | Rejected reason => caught [] reason s
  end.

(** [initializeDashboard], for the signed-in user if there is one. *)
Definition initializeDashboard (user : option string) (b : Backend)
    (s : Screen) : Screen :=
  let '(isConnected, lines) := testConnection (probeResponse b) in
  if negb isConnected then
    {| quizzes := quizzes s;
       stats := log lines (stats s);
       loading := false;
       error := Some "Unable to connect to the database. Please check your internet connection and try again.";
       connectionStatus := failed;
       queries := queries s ++ [Probe] |}
  else
    let s1 :=
      fetchQuizzes (quizzesResponse b)
        {| quizzes := quizzes s;
           stats := log lines (stats s);
           loading := true;
           error := None;
           connectionStatus := connected;
           queries := queries s ++ [Probe] |} in
    match user with
    | Some _ =>
        {| quizzes := quizzes s1;
           stats := fetchUserStats user (attemptsReply b) (stats s1);
           loading := loading s1;
           error := error s1;
           connectionStatus := connectionStatus s1;
           queries := queries s1 ++ [SelectAttempts] |}
    | None => s1
    end.

(** [handleRetry], the action of "Try Again". *)
Definition handleRetry (user : option string) (b : Backend) (s : Screen)
    : Screen :=
  initializeDashboard user b s.

(** Which of its three screens the dashboard renders. *)
Inductive Rendered :=
| Spinner (caption : string)
| ConnectionError (message : string)
| Overview.

Definition render (s : Screen) : Rendered :=
  if loading s then
    Spinner (match connectionStatus s with
             | testing => "Testing connection..."
             | _ => "Loading dashboard..."
             end)
  else
    match error s with
    | Some message =>
        if decide (message = "") then Overview else ConnectionError message
    | None => Overview
    end.

(** The cards of the overview. *)
Definition cards (s : Screen) : list QuizCard.View :=
  map (λ quiz,
         QuizCard.QuizCard quiz
           (Some (getQuizAttempts (stats s) (QuizCard.id quiz)))
           (getBestScore (stats s) (QuizCard.id quiz)))
      (quizzes s).

(** [formatTime] of the dashboard, applied to a whole number of seconds;
    [hours > 0] compares numbers. *)
Definition formatTime (seconds : Z) : option string :=
  let hours := Math_floor (div (of_Z seconds) (of_Z 3600)) in
  let minutes := Math_floor (div (of_Z (Z.rem seconds 3600)) (of_Z 60)) in
  hours_text ← JSText.Number_toString hours;
  minutes_text ← JSText.Number_toString minutes;
  Some (if gt hours (of_Z 0)
        then hours_text +:+ "h " +:+ minutes_text +:+ "m"
        else minutes_text +:+ "m").

(** What of the state reaches the screen. *)
Definition visible (s : Screen)
    : list QuizCard.Quiz * UserStats * list QuizAttempt * bool
      * option string * ConnectionStatus :=
  (quizzes s, userStats (stats s), quizAttempts (stats s), loading s,
   error s, connectionStatus s).

(** The whole number a card or the dashboard shows as the percentage of
    an attempt; 0 stands for a percentage that is no whole number. *)
Definition shown_percent (attempt : QuizAttempt) : Z :=
  default 0 (to_Z (percent attempt)).

(** Some query of the probe or of the quiz list failed. *)
Definition load_failed (b : Backend) : bool :=
  negb (fst (testConnection (probeResponse b)))
  || match quizzesResponse b with
     | Resolved _ None => false
     | _ => true
     end.

End DashboardLoad.

(** ** The application's screens (App.tsx) *)

Module App.
Import JS.

Inductive AppState := dashboard | quiz | results.

Record QuizData := mkQuizData {
  quizId : string;
  score : option Z;
  totalQuestions : option Z;
  timeTaken : option number
}.

Record State := mkState {
  appState : AppState;
  quizData : QuizData
}.

Definition initial : State :=
  {| appState := dashboard;
     quizData := {| quizId := ""; score := None; totalQuestions := None;
                    timeTaken := None |} |}.

Definition handleStartQuiz (quizId : string) (s : State) : State :=
  {| quizData := {| quizId := quizId; score := None; totalQuestions := None;
                    timeTaken := None |};
     appState := quiz |}.

Definition handleQuizComplete (score totalQuestions : Z) (timeTaken : number)
    (s : State) : State :=
  {| quizData := {| quizId := quizId (quizData s);
                    score := Some score;
                    totalQuestions := Some totalQuestions;
                    timeTaken := Some timeTaken |};
     appState := results |}.

Definition handleBackToDashboard (s : State) : State :=
  {| appState := dashboard;
     quizData := {| quizId := ""; score := None; totalQuestions := None;
                    timeTaken := None |} |}.

(** What [AppContent] renders; [Nothing] is the layout without a
    screen in it. *)
Inductive Rendered :=
| Loading
| AuthPage
| DashboardScreen
| QuizInterfaceScreen (quizId : string)
| QuizResultsScreen (quizId : string) (score : Z)
    (totalQuestions : option Z) (timeTaken : option number)
| Nothing.

Definition render (user : option string) (loading : bool) (s : State)
    : Rendered :=
  if loading then Loading
  else match user with
       | None => AuthPage
       | Some _ =>
           match appState s with
           | dashboard => DashboardScreen
           | quiz => QuizInterfaceScreen (quizId (quizData s))
           | results =>
               match score (quizData s) with
               | Some sc =>
                   QuizResultsScreen (quizId (quizData s)) sc
                     (totalQuestions (quizData s)) (timeTaken (quizData s))
               | None => Nothing
               end
           end
       end.

(** The calls the three screens make on the handlers they are given. *)
Inductive Call :=
| StartQuiz (quizId : string)
| QuizComplete (score totalQuestions : Z) (timeTaken : number)
| BackToDashboard.

Definition handle (c : Call) (s : State) : State :=
  match c with
  | StartQuiz quizId => handleStartQuiz quizId s
  | QuizComplete score totalQuestions timeTaken =>
      handleQuizComplete score totalQuestions timeTaken s
  | BackToDashboard => handleBackToDashboard s
  end.

Definition run (calls : list Call) (s : State) : State :=
  fold_left (λ s c, handle c s) calls s.

(** The call a quiz session makes when it completes, if it has. *)
Definition completion (w : QuizInterface.World) : option Call :=
  match QuizInterface.completed w with
  | Some (score, totalQuestions, timeTaken) =>
      Some (QuizComplete score totalQuestions timeTaken)
  | None => None
  end.

End App.

(** ** The sign-in form (LoginForm.tsx) *)

Module LoginForm.
Import JSText.

(** [getErrorMessage], on the [message] of the error if it has one. *)
Definition getErrorMessage (message : option string) : string :=
  if default false ((λ m, includes m "Invalid login credentials") <$> message)
  then "Invalid email or password. Please check your credentials and try again."
  else if default false ((λ m, includes m "Email not confirmed") <$> message)
  then "Please check your email and click the confirmation link before signing in."
  else if default false ((λ m, includes m "Too many requests") <$> message)
  then "Too many login attempts. Please wait a few minutes before trying again."
  else or_else message "An unexpected error occurred. Please try again.".

Record State := mkState {
  email : string;
  password : string;
  showPassword : bool;
  loading : bool;
  error : string
}.

(** The form together with the calls of [signIn] it has made. *)
Record World := mkWorld {
  form : State;
  signIns : list (string * string)
}.

Definition finish (error : string) (calls : list (string * string))
    (w : World) : World :=
  {| form := {| email := email (form w); password := password (form w);
                showPassword := showPassword (form w);
                loading := false; error := error |};
     signIns := signIns w ++ calls |}.

Section Submit.

(** [String.prototype.trim] *)
Variable trim : string → string.

(** [handleSubmit]; [outcome] is the [error] of what [signIn] resolves
    to, if it is set, given by its [message]. *)
Definition handleSubmit (outcome : option (option string)) (w : World)
    : World :=
  if decide (trim (email (form w)) = "")
  then finish "Please enter your email address" [] w
  else if decide (trim (password (form w)) = "")
  then finish "Please enter your password" [] w
  else
    let call := (trim (email (form w)), password (form w)) in
    match outcome with
    | Some message => finish (getErrorMessage message) [call] w
    | None => finish "" [call] w
    end.

End Submit.

(** The box "Sign In Failed" is rendered. *)
Definition errorBox (s : State) : bool := negb (bool_decide (error s = "")).

(** ... and the link "Create one here" within it. *)
Definition createAccountLink (s : State) : bool :=
  errorBox s && includes (error s) "Invalid email or password".

End LoginForm.

(** ** Tactics for what the screens render *)

Module ViewTactics.
Import DashboardLoad.

(** Settles the comparisons of texts that a goal decides. *)
Ltac decide_marks :=
  repeat match goal with
    | |- context [bool_decide (?x = ?y)] =>
        first [ rewrite (bool_decide_eq_true_2 (x = y)) by congruence
              | rewrite (bool_decide_eq_false_2 (x = y)) by congruence ]
    end.

(** The cases of what the backend answers to the dashboard. *)
Ltac backends b user :=
  destruct b as [[? [?|]|?] [? [?|]|[?|?]] ?], user;
  cbn [initializeDashboard handleRetry load_failed render testConnection fetchQuizzes
       caught probeResponse quizzesResponse attemptsReply fst snd negb orb
       loading error connectionStatus quizzes stats queries visible] in *.

End ViewTactics.

(** * Properties

    ** Binary64 arithmetic on integers *)

Module FloatFacts.
Import JS.

Lemma digits2_pos_size p : digits2_pos p = Pos.size p.
Proof. induction p; simpl; congruence. Qed.

Lemma digits2_pos_bounds p :
  2 ^ (Z.pos (digits2_pos p) - 1) <= Z.pos p < 2 ^ Z.pos (digits2_pos p).
Proof.
  rewrite digits2_pos_size.
  assert (H := Z.log2_spec (Z.pos p) ltac:(lia)).
  assert (E : Z.pos (Pos.size p) = Z.succ (Z.log2 (Z.pos p))).
  { destruct p; simpl; lia. }
  rewrite E. replace (Z.succ (Z.log2 (Z.pos p)) - 1) with (Z.log2 (Z.pos p)) by lia.
  exact H.
Qed.

Lemma digits2_pos_unique p d :
  2 ^ (d - 1) <= Z.pos p < 2 ^ d → Z.pos (digits2_pos p) = d.
Proof.
  intros [Hl Hu].
  assert (H := digits2_pos_bounds p).
  destruct (Z.lt_trichotomy (Z.pos (digits2_pos p)) d) as [Hlt | [Heq | Hgt]]; [| done |].
  - assert (2 ^ Z.pos (digits2_pos p) <= 2 ^ (d - 1)) by (apply Z.pow_le_mono_r; lia). lia.
  - assert (2 ^ d <= 2 ^ (Z.pos (digits2_pos p) - 1)) by (apply Z.pow_le_mono_r; lia). lia.
Qed.

Lemma iter_xO p n : Z.pos (Pos.iter xO p n) = Z.pos p * 2 ^ Z.pos n.
Proof.
  revert p. induction n using Pos.peano_ind; intros p.
  - simpl. lia.
  - rewrite Pos.iter_succ. rewrite Pos2Z.inj_succ, Z.pow_succ_r by lia.
    change (Z.pos (Pos.iter xO p n)~0) with (2 * Z.pos (Pos.iter xO p n)).
    rewrite IHn. lia.
Qed.

Lemma fexp_normal e : -1021 <= e → fexp prec emax e = e - 53.
Proof. unfold fexp, emin, prec, emax. lia. Qed.

Lemma loc_of_record_of_loc m l :
  loc_of_shr_record (shr_record_of_loc m l) = l.
Proof. by destruct l as [|[]]. Qed.

Lemma shr_m_record_of_loc m l : shr_m (shr_record_of_loc m l) = m.
Proof. by destruct l as [|[]]. Qed.

Lemma shr_1_m mrs : 0 <= shr_m mrs → shr_m (shr_1 mrs) = shr_m mrs / 2.
Proof.
  destruct mrs as [m r s]. cbn [shr_m]. intros Hm.
  destruct m as [| p | p]; [done | | lia].
  destruct p as [p | p |]; cbn [shr_1 shr_m].
  - rewrite Pos2Z.inj_xI.
    by rewrite <- (Z.div_unique (2 * Z.pos p + 1) 2 (Z.pos p) 1) by lia.
  - rewrite Pos2Z.inj_xO.
    by rewrite <- (Z.div_unique (2 * Z.pos p) 2 (Z.pos p) 0) by lia.
  - done.
Qed.

Lemma shr_1_nonneg mrs : 0 <= shr_m mrs → 0 <= shr_m (shr_1 mrs).
Proof. intros H. rewrite shr_1_m by done. apply Z.div_pos; lia. Qed.

Lemma iter_shr_m n mrs :
  0 <= shr_m mrs →
  shr_m (SpecFloat.iter_pos shr_1 n mrs) = shr_m mrs / 2 ^ Z.pos n.
Proof.
  revert mrs. induction n as [n IH | n IH |]; intros mrs Hm; cbn [SpecFloat.iter_pos].
  - assert (H0 : 0 < 2 ^ Z.pos n) by (apply Z.pow_pos_nonneg; lia).
    assert (H1 := shr_1_nonneg mrs Hm).
    assert (H2 : 0 <= shr_m (SpecFloat.iter_pos shr_1 n (shr_1 mrs))).
    { rewrite IH by done. apply Z.div_pos; done. }
    assert (E : 2 ^ Z.pos n~1 = 2 * 2 ^ Z.pos n * 2 ^ Z.pos n).
    { rewrite Pos2Z.inj_xI.
      replace (2 * Z.pos n + 1) with (Z.pos n + Z.pos n + 1) by lia.
      rewrite !Z.pow_add_r by lia. lia. }
    rewrite IH by done. rewrite IH by done. rewrite shr_1_m by done.
    rewrite E. rewrite !Z.div_div by lia. f_equal. lia.
  - assert (H0 : 0 < 2 ^ Z.pos n) by (apply Z.pow_pos_nonneg; lia).
    assert (H2 : 0 <= shr_m (SpecFloat.iter_pos shr_1 n mrs)).
    { rewrite IH by done. apply Z.div_pos; done. }
    assert (E : 2 ^ Z.pos n~0 = 2 ^ Z.pos n * 2 ^ Z.pos n).
    { rewrite <- Z.pow_add_r by lia. f_equal. lia. }
    rewrite IH by done. rewrite IH by done.
    rewrite E. rewrite !Z.div_div by lia. f_equal.
  - rewrite shr_1_m by done. done.
Qed.

Lemma round_nearest_even_cases m l :
  round_nearest_even m l = m ∨ round_nearest_even m l = m + 1.
Proof. destruct l as [|[]]; cbn; auto. destruct (Z.even m); auto. Qed.

(** The last step of rounding delivers a mantissa of 53 digits. *)
Lemma shr_fexp_final (m : positive) e :
  -1074 <= e <= 969 →
  2 ^ 52 <= Z.pos m <= 2 ^ 53 →
  ∃ M F, (let '(mrs, e') := shr_fexp prec emax (Z.pos m) e loc_Exact in
          match shr_m mrs with
          | Z0 => S754_zero false
          | Zpos m => if Z.leb e' (Z.sub emax prec) then S754_finite false m e' else S754_infinity false
          | _ => S754_nan
          end) = S754_finite false M F
         ∧ Z.pos (digits2_pos M) = 53
         ∧ e <= F <= e + 1 ∧ Z.pos M * 2 ^ (F - e) = Z.pos m.
Proof.
  intros He Hm.
  destruct (decide (Z.pos m = 2 ^ 53)) as [E | NE].
  - assert (m = 9007199254740992%positive) as -> by lia.
    assert (D : Z.pos (digits2_pos 9007199254740992) = 54) by (vm_compute; reflexivity).
    unfold shr_fexp. cbn [Zdigits2]. rewrite D.
    rewrite fexp_normal by lia.
    replace (54 + e - 53 - e) with 1 by lia.
    cbn.
    exists 4503599627370496%positive, (e + 1).
    destruct (Z.leb_spec (e + 1) (emax - prec)); [| unfold emax, prec in *; lia].
    split; [done |]. split; [by vm_compute |]. split; [lia |].
    replace (e + 1 - e) with 1 by lia. reflexivity.
  - assert (D : Z.pos (digits2_pos m) = 53) by (apply digits2_pos_unique; lia).
    unfold shr_fexp. cbn [Zdigits2]. rewrite D.
    rewrite fexp_normal by lia.
    replace (53 + e - 53 - e) with 0 by lia.
    cbn.
    exists m, e.
    destruct (Z.leb_spec e (emax - prec)); [| unfold emax, prec in *; lia].
    split; [done |]. split; [done |]. split; [lia |].
    rewrite Z.sub_diag. lia.
Qed.

(** Rounding a mantissa of 53 or 54 digits: the result is within one
    unit of it. *)
Lemma binary_round_aux_near (q : positive) e l :
  2 ^ 52 <= Z.pos q < 2 ^ 54 →
  -1074 <= e <= 968 →
  ∃ M F, binary_round_aux prec emax false (Z.pos q) e l = S754_finite false M F
         ∧ Z.pos (digits2_pos M) = 53
         ∧ e <= F <= e + 2
         ∧ (Z.pos M * 2 ^ (F - e) = Z.pos q
            ∨ (Z.pos M * 2 ^ (F - e) = Z.pos q - 1 ∧ Z.odd (Z.pos q) = true)
            ∨ Z.pos M * 2 ^ (F - e) = Z.pos q + 1).
Proof.
  intros Hq He.
  unfold binary_round_aux.
  destruct (Z_lt_le_dec (Z.pos q) (2 ^ 53)) as [Hlt | Hge].
  - (* 53 digits: nothing is shifted out *)
    assert (D : Z.pos (digits2_pos q) = 53) by (apply digits2_pos_unique; lia).
    unfold shr_fexp at 1. cbn [Zdigits2]. rewrite D.
    rewrite fexp_normal by lia.
    replace (53 + e - 53 - e) with 0 by lia.
    cbn [shr]. rewrite loc_of_record_of_loc, shr_m_record_of_loc.
    assert (Hr : round_nearest_even (Z.pos q) l = Z.pos q
                 ∨ round_nearest_even (Z.pos q) l = Z.pos (q + 1)).
    { destruct l as [|[]]; simpl; auto. destruct q; simpl; auto. }
    destruct Hr as [-> | ->].
    + destruct (shr_fexp_final q e) as (M & F & E & DM & HF & HW); [lia | lia |].
      exists M, F. rewrite E. split; [done |]. split; [done |]. split; [lia |]. auto.
    + destruct (shr_fexp_final (q + 1) e) as (M & F & E & DM & HF & HW); [lia | lia |].
      exists M, F. rewrite E. split; [done |]. split; [done |]. split; [lia |]. right; right. lia.
  - (* 54 digits: one digit is shifted out *)
    assert (D : Z.pos (digits2_pos q) = 54) by (apply digits2_pos_unique; lia).
    unfold shr_fexp at 1. cbn [Zdigits2]. rewrite D.
    rewrite fexp_normal by lia.
    replace (54 + e - 53 - e) with 1 by lia.
    cbn [shr].
    match goal with
    | |- context [SpecFloat.iter_pos shr_1 1 ?x] =>
        change (SpecFloat.iter_pos shr_1 1 x) with (shr_1 x)
    end.
    destruct q as [p | p |]; [| | lia].
    + (* odd *)
      assert (Hs : ∃ s, shr_1 (shr_record_of_loc (Z.pos p~1) l)
                        = {| shr_m := Z.pos p; shr_r := true; shr_s := s |}).
      { destruct l as [|[]]; simpl; eauto. }
      destruct Hs as [s ->]. cbn [shr_m].
      assert (Hr : round_nearest_even (Z.pos p)
                     (loc_of_shr_record {| shr_m := Z.pos p; shr_r := true; shr_s := s |})
                   = Z.pos p
                 ∨ round_nearest_even (Z.pos p)
                     (loc_of_shr_record {| shr_m := Z.pos p; shr_r := true; shr_s := s |})
                   = Z.pos (p + 1)).
      { destruct s; simpl; auto. destruct p; simpl; auto. }
      destruct Hr as [-> | ->].
      * destruct (shr_fexp_final p (e + 1)) as (M & F & E & DM & HF & HW); [lia | lia |].
        exists M, F. rewrite E. split; [done |]. split; [done |]. split; [lia |].
        right; left. split; [| done].
        replace (F - e) with (Z.succ (F - (e + 1))) by lia.
        rewrite Z.pow_succ_r by lia. lia.
      * destruct (shr_fexp_final (p + 1) (e + 1)) as (M & F & E & DM & HF & HW); [lia | lia |].
        exists M, F. rewrite E. split; [done |]. split; [done |]. split; [lia |].
        right; right.
        replace (F - e) with (Z.succ (F - (e + 1))) by lia.
        rewrite Z.pow_succ_r by lia. lia.
    + (* even *)
      assert (Hs : ∃ s, shr_1 (shr_record_of_loc (Z.pos p~0) l)
                        = {| shr_m := Z.pos p; shr_r := false; shr_s := s |}).
      { destruct l as [|[]]; simpl; eauto. }
      destruct Hs as [s ->]. cbn [shr_m].
      assert (Hr : round_nearest_even (Z.pos p)
                     (loc_of_shr_record {| shr_m := Z.pos p; shr_r := false; shr_s := s |})
                   = Z.pos p).
      { destruct s; simpl; auto. }
      rewrite Hr.
      destruct (shr_fexp_final p (e + 1)) as (M & F & E & DM & HF & HW); [lia | lia |].
      exists M, F. rewrite E. split; [done |]. split; [done |]. split; [lia |].
      left.
      replace (F - e) with (Z.succ (F - (e + 1))) by lia.
      rewrite Z.pow_succ_r by lia. lia.
Qed.


(** Rounding a mantissa of [53 + n] digits: [n] digits are shifted out,
    and the result is the shifted mantissa or its successor. *)
Lemma binary_round_aux_shift (q : positive) e l n :
  Z.pos (digits2_pos q) = 53 + n → 0 <= n →
  -1074 <= e + n <= 968 →
  ∃ M F c,
    binary_round_aux prec emax false (Z.pos q) e l = S754_finite false M F
    ∧ Z.pos (digits2_pos M) = 53
    ∧ 0 <= c <= 1 ∧ F = e + n + c
    ∧ (Z.pos M * 2 ^ c = Z.pos q / 2 ^ n
       ∨ Z.pos M * 2 ^ c = Z.pos q / 2 ^ n + 1).
Proof.
  intros D Hn He.
  assert (Bq := digits2_pos_bounds q). rewrite D in Bq.
  assert (Hm : 2 ^ 52 <= Z.pos q / 2 ^ n < 2 ^ 53).
  { assert (0 < 2 ^ n) by (apply Z.pow_pos_nonneg; lia).
    split.
    - apply Z.div_le_lower_bound; [lia |].
      rewrite Z.mul_comm, <- Z.pow_add_r by lia.
      replace (52 + n) with (53 + n - 1) by lia. lia.
    - apply Z.div_lt_upper_bound; [lia |].
      rewrite <- Z.pow_add_r by lia.
      replace (n + 53) with (53 + n) by lia. lia. }
  unfold binary_round_aux.
  assert (Hshr : ∃ mrs, shr_fexp prec emax (Z.pos q) e l = (mrs, e + n)
                        ∧ shr_m mrs = Z.pos q / 2 ^ n).
  { unfold shr_fexp. cbn [Zdigits2]. rewrite D.
    rewrite fexp_normal by lia.
    replace (53 + n + e - 53 - e) with n by lia.
    destruct n as [| n | n]; [| | lia].
    - cbn [shr]. eexists. split; [by rewrite Z.add_0_r |].
      rewrite shr_m_record_of_loc. by rewrite Z.div_1_r.
    - cbn [shr]. eexists. split; [done |].
      rewrite iter_shr_m; rewrite shr_m_record_of_loc; [done | lia]. }
  destruct Hshr as (mrs & -> & Hmrs).
  rewrite Hmrs.
  set (m' := Z.pos q / 2 ^ n) in *.
  destruct (round_nearest_even_cases m' (loc_of_shr_record mrs)) as [-> | ->].
  - destruct m' as [| p | p] eqn:Em; [lia | | lia].
    destruct (shr_fexp_final p (e + n)) as (M & F & E & DM & HF & HW); [lia | lia |].
    exists M, F, (F - (e + n)). rewrite E.
    split; [done |]. split; [done |]. split; [lia |]. split; [lia |]. by left.
  - destruct m' as [| p | p] eqn:Em; [lia | | lia].
    change (Z.pos p + 1) with (Z.pos (p + 1)).
    destruct (shr_fexp_final (p + 1) (e + n)) as (M & F & E & DM & HF & HW); [lia | lia |].
    exists M, F, (F - (e + n)). rewrite E.
    split; [done |]. split; [done |]. split; [lia |]. split; [lia |]. right. lia.
Qed.


Lemma binary_round_aux_exact (m : positive) e :
  Z.pos (digits2_pos m) = 53 → -1074 <= e <= 971 →
  binary_round_aux prec emax false (Z.pos m) e loc_Exact = S754_finite false m e.
Proof.
  intros D He. unfold binary_round_aux, shr_fexp. cbn [Zdigits2]. rewrite D.
  rewrite fexp_normal by lia.
  replace (53 + e - 53 - e) with 0 by lia.
  cbn [shr shr_record_of_loc shr_m loc_of_shr_record round_nearest_even Zdigits2].
  rewrite D. rewrite fexp_normal by lia.
  replace (53 + e - 53 - e) with 0 by lia.
  cbn [shr shr_record_of_loc shr_m].
  destruct (Z.leb_spec e (emax - prec)); [done | unfold emax, prec in *; lia].
Qed.

Lemma digits_pos p : 1 <= digits p.
Proof. unfold digits. lia. Qed.

(** An integer below 2^53 is a number, with its digits shifted to the
    top of the mantissa. *)
Lemma of_Z_pos (p : positive) :
  Z.pos p < 2 ^ 53 →
  ∃ m, of_Z (Z.pos p) = S754_finite false m (digits p - 53)
       ∧ Z.pos (digits2_pos m) = 53
       ∧ Z.pos m = Z.pos p * 2 ^ (53 - digits p).
Proof.
  intros Hp.
  assert (Hb := digits2_pos_bounds p). fold (digits p) in Hb.
  assert (Hd : digits p <= 53).
  { destruct (Z_le_gt_dec (digits p) 53); [done |].
    assert (2 ^ 53 <= 2 ^ (digits p - 1)) by (apply Z.pow_le_mono_r; lia). lia. }
  assert (H1 := digits_pos p).
  unfold of_Z, binary_normalize, binary_round.
  fold (digits p). rewrite Z.add_0_r.
  rewrite fexp_normal by lia.
  unfold shl_align.
  destruct (digits p - 53 - 0) as [| k | k] eqn:Ek; [| lia |].
  - exists p. assert (digits p = 53) as E by lia. rewrite E in *.
    split; [apply binary_round_aux_exact; [done | lia] |].
    split; [done |]. simpl. lia.
  - exists (Pos.iter xO p k).
    assert (Hm : Z.pos (Pos.iter xO p k) = Z.pos p * 2 ^ (53 - digits p)).
    { rewrite iter_xO. f_equal. f_equal. lia. }
    assert (Hdig : Z.pos (digits2_pos (Pos.iter xO p k)) = 53).
    { apply digits2_pos_unique. rewrite Hm. change (53 - 1) with 52.
      replace 52 with ((digits p - 1) + (53 - digits p)) at 1 by lia.
      replace 53 with (digits p + (53 - digits p)) at 4 by lia.
      rewrite !Z.pow_add_r by lia.
      assert (0 < 2 ^ (53 - digits p)) by (apply Z.pow_pos_nonneg; lia).
      nia. }
    split; [apply binary_round_aux_exact; [done | lia] |].
    split; done.
Qed.

Lemma div_normal (mx my : positive) ex ey :
  Z.pos (digits2_pos mx) = 53 → Z.pos (digits2_pos my) = 53 →
  -1021 <= ex - ey →
  div (S754_finite false mx ex) (S754_finite false my ey)
  = binary_round_aux prec emax false
      (Z.pos mx * 2 ^ 53 / Z.pos my) (ex - ey - 53)
      (new_location (Z.pos my) (Z.pos mx * 2 ^ 53 mod Z.pos my)).
Proof.
  intros Dx Dy He.
  unfold div, SFdiv, SFdiv_core_binary. cbn [Zdigits2 xorb].
  rewrite Dx, Dy.
  replace (53 + ex - (53 + ey)) with (ex - ey) by lia.
  rewrite fexp_normal by lia.
  rewrite Z.min_l by lia.
  replace (ex - ey - (ex - ey - 53)) with 53 by lia.
  rewrite Z.shiftl_mul_pow2 by lia.
  unfold Z.div, Z.modulo.
  destruct (Z.div_eucl (Z.pos mx * 2 ^ 53) (Z.pos my)) as [q r].
  reflexivity.
Qed.

Lemma digits_mono (pa pb : positive) :
  Z.pos pa <= Z.pos pb → digits pa <= digits pb.
Proof.
  intros H.
  assert (Ba := digits2_pos_bounds pa). fold (digits pa) in Ba.
  assert (Bb := digits2_pos_bounds pb). fold (digits pb) in Bb.
  destruct (Z_le_gt_dec (digits pa) (digits pb)); [done |].
  assert (2 ^ digits pb <= 2 ^ (digits pa - 1)) by (apply Z.pow_le_mono_r; lia).
  lia.
Qed.

(** The quotient of two integers below 2^53, as a number: its mantissa,
    scaled to the exponent of the exact quotient, is within one unit of
    the exact quotient's integer part. *)
Lemma div_near (pa pb : positive) :
  Z.pos pa < 2 ^ 53 → Z.pos pb < 2 ^ 53 →
  let e := digits pa - digits pb - 53 in
  let q := Z.pos pa * 2 ^ (- e) / Z.pos pb in
  ∃ M F,
    div (of_Z (Z.pos pa)) (of_Z (Z.pos pb)) = S754_finite false M F
    ∧ Z.pos (digits2_pos M) = 53
    ∧ e <= F <= e + 2
    ∧ (Z.pos M * 2 ^ (F - e) = q
       ∨ (Z.pos M * 2 ^ (F - e) = q - 1 ∧ Z.odd q = true)
       ∨ Z.pos M * 2 ^ (F - e) = q + 1).
Proof.
  intros Ha Hb e q.
  destruct (of_Z_pos pb) as (my & Eb & Dy & Hmy); [lia |].
  destruct (of_Z_pos pa) as (mx & Ea & Dx & Hmx); [lia |].
  rewrite Ea, Eb.
  assert (Bx := digits2_pos_bounds mx). rewrite Dx in Bx. change (53 - 1) with 52 in Bx.
  assert (By := digits2_pos_bounds my). rewrite Dy in By. change (53 - 1) with 52 in By.
  assert (Ba := digits2_pos_bounds pa). fold (digits pa) in Ba.
  assert (Bb := digits2_pos_bounds pb). fold (digits pb) in Bb.
  assert (Hda : 1 <= digits pa <= 53).
  { split; [apply digits_pos |].
    destruct (Z_le_gt_dec (digits pa) 53); [done |].
    assert (2 ^ 53 <= 2 ^ (digits pa - 1)) by (apply Z.pow_le_mono_r; lia). lia. }
  assert (Hdb : 1 <= digits pb <= 53).
  { split; [apply digits_pos |].
    destruct (Z_le_gt_dec (digits pb) 53); [done |].
    assert (2 ^ 53 <= 2 ^ (digits pb - 1)) by (apply Z.pow_le_mono_r; lia). lia. }
  rewrite div_normal by (try done; lia).
  set (l := new_location _ _).
  assert (Eq : Z.pos mx * 2 ^ 53 / Z.pos my = q).
  { unfold q, e. rewrite Hmx, Hmy.
    assert (0 < 2 ^ (53 - digits pb)) by (apply Z.pow_pos_nonneg; lia).
    replace (Z.pos pa * 2 ^ (53 - digits pa) * 2 ^ 53)
      with (Z.pos pa * 2 ^ (- (digits pa - digits pb - 53)) * 2 ^ (53 - digits pb)).
    - rewrite Z.div_mul_cancel_r; [done | lia | lia].
    - rewrite <- !Z.mul_assoc. f_equal.
      rewrite <- !Z.pow_add_r by lia. f_equal. lia. }
  assert (Hq : 2 ^ 52 <= q < 2 ^ 54).
  { rewrite <- Eq. split.
    - apply Z.div_le_lower_bound; lia.
    - apply Z.div_lt_upper_bound; [lia |].
      change (2 ^ 54) with (2 ^ 53 * 2) in *. nia. }
  rewrite Eq.
  destruct q as [| qp | qp] eqn:Eqp; [lia | | lia].
  replace (digits pa - 53 - (digits pb - 53) - 53) with e by (unfold e; lia).
  apply binary_round_aux_near; [done | unfold e; lia].
Qed.

(** The integer part of a quotient survives a perturbation of the
    scaled quotient by one unit. *)
Lemma floor_near a b S q W :
  0 <= a → 0 < b < S → Z.even S = true →
  q = a * S / b →
  (W = q ∨ (W = q - 1 ∧ Z.odd q = true) ∨ W = q + 1) →
  W / S = a / b.
Proof.
  intros Ha Hb HS -> HW.
  set (q := a * S / b) in *.
  set (k := a / b).
  assert (Hk : a = b * k + a mod b) by (apply Z.div_mod; lia).
  assert (Hk' : 0 <= a mod b < b) by (apply Z.mod_pos_bound; lia).
  assert (Hq : a * S = b * q + (a * S) mod b) by (apply Z.div_mod; lia).
  assert (Hq' : 0 <= (a * S) mod b < b) by (apply Z.mod_pos_bound; lia).
  assert (L : k * S <= q) by nia.
  assert (U : q <= k * S + S - 2) by nia.
  assert (Hev : Z.even (k * S) = true).
  { rewrite Z.even_mul, HS. apply orb_true_r. }
  symmetry. apply Z.div_unique with (r := W - k * S); [| lia].
  left. destruct HW as [-> | [[-> Hodd] | ->]]; [lia | | lia].
  assert (q ≠ k * S).
  { intros E. rewrite E in Hodd. rewrite <- Z.negb_even, Hev in Hodd. done. }
  lia.
Qed.

(** ... and so does its rounding to the nearest integer, a tie going
    up. *)
Lemma round_near a b S q W :
  0 <= a → 0 < b → 4 * b < S → S mod 4 = 0 →
  q = a * S / b →
  (W = q ∨ (W = q - 1 ∧ Z.odd q = true) ∨ W = q + 1) →
  (2 * W + S) / (2 * S) = (2 * a + b) / (2 * b).
Proof.
  intros Ha Hb HS H4 -> HW.
  set (q := a * S / b) in *.
  set (R := (2 * a + b) / (2 * b)).
  assert (HR : 2 * a + b = 2 * b * R + (2 * a + b) mod (2 * b))
    by (apply Z.div_mod; lia).
  assert (HR' : 0 <= (2 * a + b) mod (2 * b) < 2 * b)
    by (apply Z.mod_pos_bound; lia).
  set (rho := (2 * a + b) mod (2 * b)) in *.
  assert (Hq : a * S = b * q + (a * S) mod b) by (apply Z.div_mod; lia).
  assert (Hq' : 0 <= (a * S) mod b < b) by (apply Z.mod_pos_bound; lia).
  set (r := (a * S) mod b) in *.
  assert (HS4 : S = 4 * (S / 4)).
  { rewrite (Z.div_mod S 4) at 1 by lia. lia. }
  set (S' := S / 4) in *.
  symmetry. apply Z.div_unique with (r := 2 * W + S - 2 * S * R); [| lia].
  left.
  destruct (Z.eq_dec rho 0) as [Hz | Hnz].
  - (* a tie: the exact quotient is its own integer part, and it is even *)
    assert (Eq : q = (2 * R - 1) * (2 * S')).
    { assert (b * q + r = b * ((2 * R - 1) * (2 * S'))) by nia.
      assert (b * (q - (2 * R - 1) * (2 * S')) = - r) by nia.
      nia. }
    assert (Hev : Z.odd q = false).
    { rewrite Eq, Z.odd_mul, (Z.odd_mul 2). cbn. apply andb_false_r. }
    destruct HW as [-> | [[-> Hodd] | ->]]; [nia | congruence | nia].
  - destruct HW as [-> | [[-> Hodd] | ->]]; split; nia.
Qed.

Lemma div_by_zero_free (pb : positive) :
  Z.pos pb < 2 ^ 53 →
  div (of_Z 0) (of_Z (Z.pos pb)) = of_Z 0.
Proof.
  intros Hb. destruct (of_Z_pos pb) as (my & -> & _ & _); [lia |]. reflexivity.
Qed.

(** [Math.floor(a / b)] is the integer quotient, for integers [a] and
    [b] that are numbers. *)
Lemma Math_floor_div (a b : Z) :
  0 <= a < 2 ^ 53 → 4 <= b < 2 ^ 53 →
  Math_floor (div (of_Z a) (of_Z b)) = of_Z (a / b).
Proof.
  intros Ha Hb.
  destruct b as [| pb | pb]; [lia | | lia].
  destruct a as [| pa | pa]; [| | lia].
  { rewrite div_by_zero_free by lia. by rewrite Z.div_0_l by lia. }
  destruct (div_near pa pb) as (M & F & -> & _ & HF & HW); [lia | lia |].
  set (e := digits pa - digits pb - 53) in *.
  assert (Ba := digits2_pos_bounds pa). fold (digits pa) in Ba.
  assert (Bb := digits2_pos_bounds pb). fold (digits pb) in Bb.
  assert (Hda : 1 <= digits pa <= 53).
  { split; [apply digits_pos |].
    destruct (Z_le_gt_dec (digits pa) 53); [done |].
    assert (2 ^ 53 <= 2 ^ (digits pa - 1)) by (apply Z.pow_le_mono_r; lia). lia. }
  assert (Hdb : 3 <= digits pb).
  { destruct (Z_le_gt_dec 3 (digits pb)); [done |].
    assert (2 ^ digits pb <= 2 ^ 2) by (apply Z.pow_le_mono_r; lia).
    change (2 ^ 2) with 4 in *. lia. }
  unfold Math_floor. destruct (Z.leb_spec 0 F) as [HF0 | HF0]; [lia |].
  cbn [signed].
  set (S := 2 ^ (- e)) in *.
  assert (HS : S = 2 ^ (F - e) * 2 ^ (- F)).
  { subst S. rewrite <- Z.pow_add_r by lia. f_equal. lia. }
  assert (Hc : 0 < 2 ^ (F - e)) by (apply Z.pow_pos_nonneg; lia).
  assert (Hn : Z.pos M / 2 ^ (- F) = Z.pos pa / Z.pos pb).
  { transitivity (Z.pos M * 2 ^ (F - e) / S).
    - rewrite HS. rewrite (Z.mul_comm (2 ^ (F - e)) (2 ^ (- F))).
      rewrite Z.div_mul_cancel_r; [done | | lia].
      assert (0 < 2 ^ (- F)) by (apply Z.pow_pos_nonneg; lia). lia.
    - apply floor_near with (q := Z.pos pa * S / Z.pos pb); [lia | | | done | done].
      + subst S e. split; [lia |].
        assert (2 ^ digits pb <= 2 ^ (- (digits pa - digits pb - 53)))
          by (apply Z.pow_le_mono_r; lia).
        lia.
      + subst S e.
        replace (- (digits pa - digits pb - 53))
          with (Z.succ (52 + digits pb - digits pa)) by lia.
        rewrite Z.pow_succ_r by lia. rewrite Z.even_mul. done. }
  rewrite Hn.
  destruct (Z.eqb_spec (Z.pos pa / Z.pos pb) 0) as [-> | _]; reflexivity.
Qed.

Lemma Math_round_finite M F :
  F < 0 →
  Math_round (S754_finite false M F)
  = of_Z ((2 * Z.pos M + 2 ^ (- F)) / (2 * 2 ^ (- F))).
Proof.
  intros HF. unfold Math_round.
  destruct (Z.leb_spec 0 F); [lia |]. cbn [signed].
  by destruct (Z.eqb_spec ((2 * Z.pos M + 2 ^ (- F)) / (2 * 2 ^ (- F))) 0) as [-> |].
Qed.

(** [Math.round(a / b)] is the exact quotient rounded to the nearest
    integer, a tie going up, for integers [a] and [b] below 2^32. *)
Lemma Math_round_div (a b : Z) :
  0 <= a < 2 ^ 32 → 0 < b < 2 ^ 32 →
  Math_round (div (of_Z a) (of_Z b)) = of_Z ((2 * a + b) / (2 * b)).
Proof.
  intros Ha Hb.
  change (2 ^ 32) with 4294967296 in *.
  destruct b as [| pb | pb]; [lia | | lia].
  destruct a as [| pa | pa]; [| | lia].
  { rewrite div_by_zero_free by (change (2 ^ 53) with 9007199254740992; lia).
    rewrite Z.div_small by lia. reflexivity. }
  destruct (div_near pa pb) as (M & F & -> & _ & HF & HW);
    [change (2 ^ 53) with 9007199254740992; lia
    | change (2 ^ 53) with 9007199254740992; lia |].
  set (e := digits pa - digits pb - 53) in *.
  assert (Ba := digits2_pos_bounds pa). fold (digits pa) in Ba.
  assert (Bb := digits2_pos_bounds pb). fold (digits pb) in Bb.
  assert (Hda : 1 <= digits pa <= 32).
  { split; [apply digits_pos |].
    destruct (Z_le_gt_dec (digits pa) 32); [done |].
    assert (2 ^ 32 <= 2 ^ (digits pa - 1)) by (apply Z.pow_le_mono_r; lia).
    change (2 ^ 32) with 4294967296 in *. lia. }
  assert (Hdb := digits_pos pb).
  rewrite Math_round_finite by lia.
  f_equal.
  set (S := 2 ^ (- e)) in *.
  assert (HS : S = 2 ^ (F - e) * 2 ^ (- F)).
  { subst S. rewrite <- Z.pow_add_r by lia. f_equal. lia. }
  assert (Hc : 0 < 2 ^ (F - e)) by (apply Z.pow_pos_nonneg; lia).
  assert (Hg : 0 < 2 ^ (- F)) by (apply Z.pow_pos_nonneg; lia).
  transitivity ((2 * (Z.pos M * 2 ^ (F - e)) + S) / (2 * S)).
  - rewrite HS.
    replace (2 * (Z.pos M * 2 ^ (F - e)) + 2 ^ (F - e) * 2 ^ (- F))
      with ((2 * Z.pos M + 2 ^ (- F)) * 2 ^ (F - e)) by lia.
    replace (2 * (2 ^ (F - e) * 2 ^ (- F)))
      with (2 * 2 ^ (- F) * 2 ^ (F - e)) by lia.
    rewrite Z.div_mul_cancel_r; [done | lia | lia].
  - apply round_near with (q := Z.pos pa * S / Z.pos pb); [lia | lia | | | done | done].
    + subst S e.
      assert (2 ^ (digits pb + 2) <= 2 ^ (- (digits pa - digits pb - 53)))
        by (apply Z.pow_le_mono_r; lia).
      rewrite Z.pow_add_r in * by lia. change (2 ^ 2) with 4 in *. lia.
    + subst S e.
      replace (- (digits pa - digits pb - 53))
        with (2 + (51 + digits pb - digits pa)) by lia.
      rewrite Z.pow_add_r by lia. change (2 ^ 2) with 4.
      by rewrite Z.mul_comm, Z.mod_mul by lia.
Qed.

(** The product of a number with 100. *)
Lemma mul_100_rounded (M1 : positive) F1 :
  Z.pos (digits2_pos M1) = 53 → -1000 <= F1 <= 900 →
  let P := Z.pos M1 * 7036874417766400 in
  ∃ M2 F2 n c,
    mul (S754_finite false M1 F1) (of_Z 100) = S754_finite false M2 F2
    ∧ 52 <= n <= 53 ∧ 0 <= c <= 1 ∧ F2 = F1 - 46 + n + c
    ∧ (Z.pos M2 * 2 ^ c = P / 2 ^ n ∨ Z.pos M2 * 2 ^ c = P / 2 ^ n + 1).
Proof.
  intros D HF P.
  assert (B := digits2_pos_bounds M1). rewrite D in B. change (53 - 1) with 52 in B.
  change (of_Z 100) with (S754_finite false 7036874417766400 (-46)).
  unfold mul, SFmul. cbn [xorb].
  change (Z.pos M1 * 7036874417766400) with (Z.pos (M1 * 7036874417766400)) in P.
  change (2 ^ 52) with 4503599627370496 in B.
  change (2 ^ 53) with 9007199254740992 in B.
  destruct (Z_lt_le_dec P (2 ^ 105)) as [Hlt | Hge].
  - destruct (binary_round_aux_shift (M1 * 7036874417766400) (F1 + -46) loc_Exact 52)
      as (M & F & c & E & DM & Hc & HF' & HM).
    { apply digits2_pos_unique. change (53 + 52 - 1) with 104. change (53 + 52) with 105.
      change (Z.pos (M1 * 7036874417766400)) with P.
      change (2 ^ 104) with 20282409603651670423947251286016. unfold P. lia. }
    { lia. }
    { lia. }
    exists M, F, 52, c. rewrite E. repeat split; try done; lia.
  - destruct (binary_round_aux_shift (M1 * 7036874417766400) (F1 + -46) loc_Exact 53)
      as (M & F & c & E & DM & Hc & HF' & HM).
    { apply digits2_pos_unique. change (53 + 53 - 1) with 105. change (53 + 53) with 106.
      change (Z.pos (M1 * 7036874417766400)) with P.
      change (2 ^ 106) with 81129638414606681695789005144064. unfold P. lia. }
    { lia. }
    { lia. }
    exists M, F, 53, c. rewrite E. repeat split; try done; lia.
Qed.

(** The error of a percentage: [M1] is the mantissa of the quotient,
    [M2] that of its product with 100, at the scale [G]. *)
Lemma percentage_error (s t q1 M1 M2 S1 G f n2 c2 : Z) :
  0 < t → 0 <= s →
  0 <= f <= 2 → 52 <= n2 <= 53 → 0 <= c2 <= 1 →
  q1 = s * S1 / t →
  q1 - 1 <= M1 * 2 ^ f <= q1 + 1 →
  (M2 * 2 ^ c2 = M1 * 7036874417766400 / 2 ^ n2
   ∨ M2 * 2 ^ c2 = M1 * 7036874417766400 / 2 ^ n2 + 1) →
  S1 = G * 2 ^ (f + n2 + c2 - 46) →
  -12 * t <= t * M2 - 100 * s * G <= 12 * t.
Proof.
  intros Ht Hs Hf Hn2 Hc2 Hq1 HM1 HM2 HS.
  assert (Q1 : s * S1 = t * q1 + (s * S1) mod t) by (subst q1; apply Z.div_mod; lia).
  assert (Q2 : 0 <= (s * S1) mod t < t) by (apply Z.mod_pos_bound; lia).
  set (rho := (s * S1) mod t) in *. clearbody rho. clear Hq1.
  assert (f = 0 ∨ f = 1 ∨ f = 2) as [-> | [-> | ->]] by lia;
  assert (n2 = 52 ∨ n2 = 53) as [-> | ->] by lia;
  assert (c2 = 0 ∨ c2 = 1) as [-> | ->] by lia;
  cbn in HS, HM1, HM2.
  all: match type of HM2 with
       | _ = ?a / ?b ∨ _ =>
           assert (D2 := Z.div_mod a b ltac:(lia));
           assert (D2' := Z.mod_pos_bound a b ltac:(lia));
           set (d2 := a / b) in *; set (r2 := a mod b) in *;
           clearbody d2 r2
       end.
  all: subst S1.
  all: destruct HM2 as [HM2 | HM2].
  all: nia.
Qed.

(** Rounding a value within that error of an exact percentage. *)
Lemma percentage_rounding (s t M2 G : Z) :
  0 < t → 24 * t < G →
  -12 * t <= t * M2 - 100 * s * G <= 12 * t →
  let K := (200 * s + t) / (2 * t) in
  ((200 * s + t) mod (2 * t) ≠ 0 → (2 * M2 + G) / (2 * G) = K)
  ∧ ((2 * M2 + G) / (2 * G) = K ∨ (2 * M2 + G) / (2 * G) = K - 1).
Proof.
  intros Ht HG HX K.
  assert (HK : 200 * s + t = 2 * t * K + (200 * s + t) mod (2 * t))
    by (apply Z.div_mod; lia).
  assert (Hr : 0 <= (200 * s + t) mod (2 * t) < 2 * t)
    by (apply Z.mod_pos_bound; lia).
  set (r := (200 * s + t) mod (2 * t)) in *.
  assert (E : 200 * s * G = G * (2 * t * K + r - t)) by nia.
  split.
  - intros Hne. symmetry.
    apply Z.div_unique with (r := 2 * M2 + G - 2 * G * K); [| lia].
    left. split; nia.
  - destruct (Z.eq_dec r 0) as [Hz | Hnz].
    + destruct (Z_le_gt_dec (2 * G * K) (2 * M2 + G)).
      * left. symmetry.
        apply Z.div_unique with (r := 2 * M2 + G - 2 * G * K); [| lia].
        left. split; nia.
      * right. symmetry.
        apply Z.div_unique with (r := 2 * M2 + G - 2 * G * (K - 1)); [| lia].
        left. split; nia.
    + left. symmetry.
      apply Z.div_unique with (r := 2 * M2 + G - 2 * G * K); [| lia].
      left. split; nia.
Qed.


(** Numbers that are integers compare as the integers do. *)
Lemma of_Z_compare (a b : Z) :
  0 <= a < 2 ^ 53 → 0 <= b < 2 ^ 53 →
  SFcompare (of_Z a) (of_Z b) = Some (a ?= b).
Proof.
  intros Ha Hb.
  destruct a as [| pa | pa]; [| | lia]; destruct b as [| pb | pb]; try lia.
  - reflexivity.
  - destruct (of_Z_pos pb) as (mb & -> & _ & _); [lia |]. reflexivity.
  - destruct (of_Z_pos pa) as (ma & -> & _ & _); [lia |]. reflexivity.
  - destruct (of_Z_pos pa) as (ma & -> & Da & Hma); [lia |].
    destruct (of_Z_pos pb) as (mb & -> & Db & Hmb); [lia |].
    assert (Ba := digits2_pos_bounds pa). fold (digits pa) in Ba.
    assert (Bb := digits2_pos_bounds pb). fold (digits pb) in Bb.
    cbn [SFcompare]. f_equal.
    destruct (Z.compare_spec (digits pa - 53) (digits pb - 53)) as [E | L | G].
    + assert (Ed : digits pa = digits pb) by lia.
      rewrite Pos.compare_cont_spec. cbn [Pos.switch_Eq].
      change ((ma ?= mb)%positive) with (Z.pos ma ?= Z.pos mb).
      rewrite Hma, Hmb, Ed.
      assert (Hd : digits pb <= 53).
      { destruct (Z_le_gt_dec (digits pb) 53); [done |].
        assert (2 ^ 53 <= 2 ^ (digits pb - 1)) by (apply Z.pow_le_mono_r; lia). lia. }
      assert (0 < 2 ^ (53 - digits pb)) by (apply Z.pow_pos_nonneg; lia).
      rewrite <- Zmult_compare_compat_r by lia.
      by destruct (Z.pos pa ?= Z.pos pb).
    + symmetry. apply Z.compare_lt_iff.
      assert (2 ^ digits pa <= 2 ^ (digits pb - 1)) by (apply Z.pow_le_mono_r; lia).
      lia.
    + symmetry. apply Z.compare_gt_iff.
      assert (2 ^ digits pb <= 2 ^ (digits pa - 1)) by (apply Z.pow_le_mono_r; lia).
      lia.
Qed.

Lemma of_Z_not_negative_zero (a : Z) : 0 <= a → of_Z a ≠ S754_zero true.
Proof.
  intros Ha. destruct a as [| pa | pa]; [done | | lia].
  unfold of_Z, binary_normalize, binary_round.
  destruct (shl_align _ _ _) as [mz ez].
  unfold binary_round_aux.
  destruct (shr_fexp _ _ _ _ _) as [mrs e'].
  destruct (shr_fexp _ _ _ _ _) as [mrs' e''].
  destruct (shr_m mrs'); [done | | done]. by destruct (_ <=? _).
Qed.

Lemma max2_of_Z (a b : Z) :
  0 <= a < 2 ^ 53 → 0 <= b < 2 ^ 53 →
  max2 (of_Z a) (of_Z b) = of_Z (Z.max a b).
Proof.
  intros Ha Hb. unfold max2. rewrite of_Z_compare by done.
  destruct (Z.compare_spec a b) as [E | L | G].
  - subst b. rewrite Z.max_id.
    assert (H := of_Z_not_negative_zero a ltac:(lia)).
    destruct (of_Z a) as [[] | | |]; done.
  - by rewrite Z.max_r by lia.
  - by rewrite Z.max_l by lia.
Qed.

Lemma fold_max_bounds (xs : list Z) (x : Z) :
  Forall (λ z, 0 <= z < 2 ^ 53) (x :: xs) → 0 <= fold_left Z.max xs x < 2 ^ 53.
Proof.
  revert x. induction xs as [| y xs IH]; intros x H.
  - by apply Forall_cons in H as [? _].
  - apply Forall_cons in H as [Hx H]. apply Forall_cons in H as [Hy H].
    cbn [fold_left]. apply IH. apply Forall_cons. split; [lia | done].
Qed.

(** [Math.max] of integers is their maximum. *)
Lemma Math_max_of_Z (x : Z) (xs : list Z) :
  Forall (λ z, 0 <= z < 2 ^ 53) (x :: xs) →
  Math_max (map of_Z (x :: xs)) = of_Z (fold_left Z.max xs x).
Proof.
  intros H. unfold Math_max. cbn [map fold_left].
  assert (E : max2 neg_Infinity (of_Z x) = of_Z x).
  { apply Forall_cons in H as [Hx _].
    assert (Hnz := of_Z_not_negative_zero x ltac:(lia)).
    destruct x as [| px | px]; [done | | lia].
    destruct (of_Z_pos px) as (m & -> & _ & _); [lia |]. reflexivity. }
  rewrite E. clear E. revert x H.
  induction xs as [| y xs IH]; intros x H; [done |].
  cbn [map fold_left].
  apply Forall_cons in H as [Hx H]. apply Forall_cons in H as [Hy H].
  rewrite max2_of_Z by done. apply IH.
  apply Forall_cons. split; [lia | done].
Qed.

End FloatFacts.

(** ** The quiz session *)

Module SessionFacts.
Import JS QuizInterface SessionTactics.

Lemma or_empty_default (o : option string) : or_empty o = default "" o.
Proof. destruct o as [a |]; [| done]. simpl. by case_decide. Qed.

(** The loop of [handleSubmit], from any intermediate [score] and
    [userAnswers]. *)
Lemma forEach_score qs ans acc :
  fst (fold_left (forEach_body ans) qs acc) = fst acc + correct_count qs ans.
Proof.
  revert acc. induction qs as [| q qs IH]; intros acc.
  - unfold correct_count. simpl. lia.
  - cbn [fold_left]. rewrite IH. unfold correct_count.
    rewrite filter_cons. unfold forEach_body at 1. cbn [fst].
    case_decide; cbn [length]; lia.
Qed.

Lemma forEach_answers qs ans acc k :
  snd (fold_left (forEach_body ans) qs acc) !! k
  = if decide (k ∈ ids qs) then Some (default "" (ans !! k)) else snd acc !! k.
Proof.
  revert acc. induction qs as [| q qs IH]; intros acc.
  - cbn [fold_left]. rewrite decide_False; [done |]. apply not_elem_of_nil.
  - cbn [fold_left]. rewrite IH. unfold forEach_body. cbn [snd].
    unfold ids in *. cbn [map].
    destruct (decide (k ∈ map id qs)) as [Hin | Hin].
    + rewrite decide_True; [done | apply elem_of_cons; by right].
    + destruct (decide (id q = k)) as [<- | Hne].
      * rewrite lookup_insert_eq, or_empty_default.
        rewrite decide_True; [done | apply elem_of_cons; by left].
      * rewrite lookup_insert_ne by done.
        rewrite decide_False; [done |].
        intros H'. apply elem_of_cons in H' as [? | ?]; congruence.
Qed.

Lemma scoreAnswers_score qs ans :
  fst (scoreAnswers qs ans) = correct_count qs ans.
Proof. unfold scoreAnswers. rewrite forEach_score. simpl. lia. Qed.

Lemma scoreAnswers_lookup qs ans k :
  snd (scoreAnswers qs ans) !! k
  = if decide (k ∈ ids qs) then Some (default "" (ans !! k)) else None.
Proof. unfold scoreAnswers. rewrite forEach_answers. by case_decide. Qed.

Lemma scoreAnswers_dom qs ans :
  dom (snd (scoreAnswers qs ans)) = list_to_set (ids qs).
Proof.
  apply set_eq. intros k.
  rewrite elem_of_dom, scoreAnswers_lookup, elem_of_list_to_set.
  case_decide; split; intros H'; done.
Qed.

Lemma scoreAnswers_size qs ans :
  NoDup (ids qs) → size (snd (scoreAnswers qs ans)) = length qs.
Proof.
  intros Hnd. rewrite <- size_dom, scoreAnswers_dom.
  rewrite size_list_to_set by done. unfold ids. by rewrite length_map.
Qed.


(** *** Invariants of a session *)

Lemma run_nil env w : run env [] w = w.
Proof. reflexivity. Qed.

Lemma run_snoc env tr ev w :
  run env (tr ++ [ev]) w = step env (fst ev) (snd ev) (run env tr w).
Proof. unfold run. by rewrite fold_left_app. Qed.

(** An invariant of every step holds throughout every session. *)
Lemma run_invariant (P : World → Prop) env :
  (∀ now e w, P w → P (step env now e w)) →
  ∀ tr w, P w → P (run env tr w).
Proof.
  intros Hstep tr. induction tr as [| ev tr IH]; intros w Hw; [done |].
  cbn [run fold_left]. apply IH. by apply Hstep.
Qed.

Lemma step_unloaded env now e w : unloaded w → unloaded (step env now e w).
Proof.
  unfold unloaded. world w. intros (H1 & H2 & H3).
  destruct e; open_step; cases; simplify_eq; cbn in *;
    repeat split; intros; simplify_eq; eauto;
    try (destruct iss; done); try (by destruct H2); try (by apply H3);
    try (exfalso; destruct (H2 eq_refl); lia).
Qed.


Lemma guarded_same w w' :
  issued w' = issued w → failed w' = failed w → stored w' = stored w →
  pending w' = pending w → completed w' = completed w →
  submitting (ui w') = submitting (ui w) →
  guarded w → guarded w'.
Proof. unfold guarded. by intros -> -> -> -> -> ->. Qed.

Lemma guarded_idle w :
  guarded w → completed w = None → submitting (ui w) = false →
  stored w = [] ∧ pending w = [] ∧ issued w = failed w.
Proof.
  intros (H1 & H2 & H3 & H4) Hc Hs.
  assert (stored w = []) as Hst.
  { destruct (stored w); [done |]. exfalso.
    assert (is_Some (completed w)) as [? ?] by (by apply H4). congruence. }
  assert (pending w = []) as Hp.
  { destruct (pending w); [done |]. exfalso.
    assert (submitting (ui w) = true) by (by apply H3). congruence. }
  rewrite H1, Hst, Hp. by rewrite !app_nil_r.
Qed.

Lemma guarded_busy w row rest :
  guarded w → completed w = None → pending w = row :: rest →
  stored w = [] ∧ rest = [] ∧ issued w = failed w ++ [row].
Proof.
  intros (H1 & H2 & H3 & H4) Hc Hp.
  rewrite Hp in *. cbn [length] in H2.
  destruct (stored w); [| cbn [length] in H2; lia].
  destruct rest; [| cbn [length] in H2; lia].
  done.
Qed.

Lemma step_guarded env now e w : guarded w → guarded (step env now e w).
Proof.
  intros H.
  destruct (completed w) as [c |] eqn:Hc.
  { unfold step. by rewrite Hc. }
  destruct (submitting (ui w)) eqn:Hs.
  - (* an insert is pending: no other is issued *)
    destruct (pending w) as [| row rest] eqn:Hp.
    { destruct H as (_ & _ & H3 & _). rewrite Hp in H3.
      exfalso. by apply H3. }
    destruct (guarded_busy w row rest H Hc Hp) as (Hst & -> & Hi).
    world w. subst.
    destruct e; open_step; cases;
      try (eapply guarded_same; [.. | exact H]; reflexivity);
      unfold guarded; cbn; rewrite ?app_nil_r; repeat split; intros; try done;
      try lia.
  - destruct (guarded_idle w H Hc Hs) as (Hst & Hp & Hi).
    world w. subst.
    destruct e; open_step; cases;
      try (eapply guarded_same; [.. | exact H]; reflexivity);
      unfold guarded; cbn; rewrite ?app_nil_r; repeat split; intros; try done;
      try lia.
Qed.


Lemma fired_same w w' :
  autoSubmits w' = autoSubmits w → quiz (ui w') = quiz (ui w) →
  timeLeft (ui w') = timeLeft (ui w) → fired w → fired w'.
Proof. unfold fired, at_zero. by intros -> -> ->. Qed.

Lemma step_fired env now e w :
  unloaded w → fired w → fired (step env now e w).
Proof.
  intros (H1 & H2 & H3) H. world w.
  destruct e; open_step; cases;
    try (eapply fired_same; [.. | exact H]; reflexivity);
    unfold fired, at_zero in *; cbn in *; props; subst.
  all: try specialize (H1 eq_refl); subst.
  all: try (destruct (H2 eq_refl) as [-> _]).
  all: repeat match goal with
         | H : context [bool_decide ?P] |- _ => destruct (bool_decide_reflect P)
         | |- context [bool_decide ?P] => destruct (bool_decide_reflect P)
         | H : context [?a =? ?b] |- _ => destruct (Z.eqb_spec a b)
         | |- context [?a =? ?b] => destruct (Z.eqb_spec a b)
         end; cbn in *; try done; try lia.
Qed.

Lemma in_range_same w w' :
  questions (ui w') = questions (ui w) → quiz (ui w') = quiz (ui w) →
  loading (ui w') = loading (ui w) →
  currentQuestionIndex (ui w') = currentQuestionIndex (ui w) →
  in_range w → in_range w'.
Proof. unfold in_range, shown. by intros -> -> -> ->. Qed.

Lemma step_in_range env now e w :
  unloaded w → in_range w → in_range (step env now e w).
Proof.
  intros (H1 & H2 & H3) H. world w.
  destruct e; open_step; cases;
    try (eapply in_range_same; [.. | exact H]; reflexivity);
    unfold in_range, shown in *; cbn in *; props; subst.
  all: try specialize (H1 eq_refl); subst.
  all: try (destruct (H2 eq_refl) as [-> ->]).
  all: destruct H as [Ha Hb]; split; intros Hsh; cbn in *.
  all: try (rewrite Ha by done).
  all: props; try done; try lia.
  all: assert (Hshown : bool_decide (is_Some qz)
                        && negb (Z.of_nat (length qs) =? 0) = true)
         by (apply andb_true_iff; split;
             [by apply bool_decide_eq_true
             | by apply negb_true_iff, Z.eqb_neq]).
  all: try (rewrite Hshown in Hsh; done).
  all: specialize (Hb Hshown); lia.
Qed.


Lemma step_nonneg env now e w :
  nonneg_duration (now, e) →
  0 <= timeLeft (ui w) → 0 <= timeLeft (ui (step env now e w)).
Proof.
  unfold nonneg_duration. cbn [snd]. intros Hd H. world w.
  destruct e; open_step; cases; cbn in *; props; lia.
Qed.

(** The invariants hold when the component mounts, hence throughout. *)
Lemma session_invariants env tr :
  let w := run env tr mounted in
  unloaded w ∧ guarded w ∧ fired w ∧ in_range w.
Proof.
  apply (run_invariant
           (λ w, unloaded w ∧ guarded w ∧ fired w ∧ in_range w)).
  - intros now e w (H1 & H2 & H3 & H4).
    auto using step_unloaded, step_guarded, step_fired, step_in_range.
  - repeat split; try done; cbn; try lia.
    by intros [? ?].
Qed.

Lemma attempt_fields env u s now :
  attempt env u s now
  = {| user_id := u; quiz_id := quizId env;
       score := fst (scoreAnswers (questions s) (answers s));
       total_questions := Z.of_nat (length (questions s));
       time_taken_seconds := timeTaken (startTime env) now;
       attempt_answers := snd (scoreAnswers (questions s) (answers s));
       completed_at := now |}.
Proof. unfold attempt. by destruct (scoreAnswers _ _). Qed.

Lemma timeTaken_seconds start now :
  0 <= now - start < 2 ^ 53 →
  timeTaken start now = of_Z ((now - start) / 1000).
Proof. intros H. unfold timeTaken. by apply FloatFacts.Math_floor_div. Qed.

(** Both ways of submitting hand the same object to [insert]. *)
Lemma submission_issues env w e now u :
  unloaded w → guarded w →
  submission e w → completed w = None → submitting (ui w) = false →
  user env = Some u →
  issued (step env now e w) = issued w ++ [attempt env u (ui w) now]
  ∧ pending (step env now e w) = [attempt env u (ui w) now]
  ∧ stored (step env now e w) = []
  ∧ completed (step env now e w) = None.
Proof.
  intros (H1 & H2 & H3) Hg Hsub Hc Hs Hu.
  destruct (guarded_idle w Hg Hc Hs) as (Hst & Hp & _).
  assert (Hq : is_Some (quiz (ui w))).
  { destruct Hsub as [(_ & Hsh & _) | (_ & Ht)].
    - unfold shown in Hsh. props. done.
    - destruct (quiz (ui w)) eqn:E; [done |]. destruct (H2 eq_refl). lia. }
  destruct Hq as [quizData Hq].
  world w. subst.
  destruct Hsub as [(-> & Hsh & Hi) | (-> & Ht)].
  - open_step. rewrite Hsh, Hi, Z.eqb_refl, Hu. done.
  - open_step. rewrite !Ht. cbn. rewrite Hu. done.
Qed.


(** *** The claims about the session *)

(** C1: a submission, by the click on "Submit Quiz" or by the countdown
    reaching zero, issues one insert, and once the backend accepts it
    the session has stored exactly that one attempt.  Its score is the
    number of questions whose collected answer equals their
    [correct_answer]; its answers hold one entry per question id, the
    collected answer or the empty string (an unanswered question is not
    counted); its [total_questions] is the length of the question list;
    its [time_taken_seconds] is the whole seconds elapsed between the
    mount and the submission, whatever the countdown shows. *)
Theorem submission_stores_scored_attempt env tr e now now' u :
  let w := run env tr mounted in
  submission e w → completed w = None → submitting (ui w) = false →
  user env = Some u →
  0 <= now - startTime env < 2 ^ 53 →
  let qs := questions (ui w) in
  let A := answers (ui w) in
  let w1 := step env now e w in
  let w2 := step env now' InsertOk w1 in
  ∃ row,
    issued w1 = issued w ++ [row]
    ∧ stored w2 = [row]
    ∧ pending w2 = []
    ∧ completed w2
      = Some (score row, total_questions row, time_taken_seconds row)
    ∧ score row = correct_count qs A
    ∧ (∀ k, attempt_answers row !! k
            = if decide (k ∈ ids qs) then Some (default "" (A !! k)) else None)
    ∧ (NoDup (ids qs) → size (attempt_answers row) = length qs)
    ∧ total_questions row = Z.of_nat (length qs)
    ∧ time_taken_seconds row = of_Z ((now - startTime env) / 1000)
    ∧ ∀ remaining, attempt env u (setTimeLeft remaining (ui w)) now = row.
Proof.
  intros w Hsub Hc Hs Hu Ht qs A w1 w2.
  destruct (session_invariants env tr) as (Hun & Hg & _ & _). fold w in Hun, Hg.
  destruct (submission_issues env w e now u Hun Hg Hsub Hc Hs Hu)
    as (Hi & Hp & Hst & Hc1).
  fold w1 in Hi, Hp, Hst, Hc1.
  exists (attempt env u (ui w) now).
  split; [done |].
  assert (Hw2 : w2 = insertSucceeded (attempt env u (ui w) now) [] w1).
  { unfold w2, step. by rewrite Hc1, Hp. }
  rewrite Hw2. cbn [stored pending completed insertSucceeded]. rewrite Hst.
  rewrite attempt_fields.
  cbn [score total_questions time_taken_seconds attempt_answers].
  fold qs A.
  repeat split; try done.
  - apply scoreAnswers_score.
  - apply scoreAnswers_lookup.
  - apply scoreAnswers_size.
  - by apply timeTaken_seconds.
  - intros remaining. by rewrite attempt_fields.
Qed.

(** The specification's scenario: five questions, three answered
    correctly and two left blank, submitted 125.999 seconds after the
    mount. *)
Lemma submission_stores_scored_attempt_witness :
  ∃ row,
    stored (step Scenario.env 127400 InsertOk
              (step Scenario.env 126999 Submit
                 (run Scenario.env Scenario.answering mounted))) = [row]
    ∧ score row = 3 ∧ total_questions row = 5
    ∧ time_taken_seconds row = of_Z 125
    ∧ size (attempt_answers row) = 5%nat
    ∧ attempt_answers row !! "q4" = Some ""
    ∧ attempt_answers row !! "q5" = Some "".
Proof.
  assert (H1 : submission Submit (run Scenario.env Scenario.answering mounted))
    by (left; by vm_compute).
  assert (H2 : completed (run Scenario.env Scenario.answering mounted) = None)
    by (by vm_compute).
  assert (H3 : submitting (ui (run Scenario.env Scenario.answering mounted)) = false)
    by (by vm_compute).
  assert (H4 : user Scenario.env = Some "user-1") by reflexivity.
  assert (H5 : 0 <= 126999 - startTime Scenario.env < 2 ^ 53)
    by (cbn [startTime Scenario.env]; lia).
  pose proof (submission_stores_scored_attempt Scenario.env Scenario.answering
              Submit 126999 127400 "user-1" H1 H2 H3 H4 H5) as H.
  cbv zeta in H.
  destruct H as (row & _ & Hst & _ & _ & Hsc & Hans & Hsize & Htot & Htime & _).
  exists row.
  split; [exact Hst |].
  split; [rewrite Hsc; by vm_compute |].
  split; [rewrite Htot; by vm_compute |].
  split; [rewrite Htime; by vm_compute |].
  split; [rewrite Hsize; [by vm_compute | ] |].
  { apply (bool_decide_eq_true_1 (NoDup _)). by vm_compute. }
  split; rewrite Hans; by vm_compute.
Defined.

(** C2, as the session behaves: the countdown effect has called
    [handleSubmit] exactly once when the quiz is loaded and the countdown
    stands at zero, and never otherwise; every insert issued was refused,
    is stored or is pending, with at most one stored or pending, so that
    no insert is issued while another is pending and at most one more
    than were refused is ever issued; and the click and the timeout hand
    the same object to [insert]. *)
Theorem one_insert_unless_refused env tr :
  let w := run env tr mounted in
  fired w
  ∧ (autoSubmits w <= 1)%nat
  ∧ guarded w
  ∧ (length (issued w) <= length (failed w) + 1)%nat
  ∧ (length (stored w) <= 1)%nat
  ∧ ∀ e now u,
      submission e w → completed w = None → submitting (ui w) = false →
      user env = Some u →
      issued (step env now e w) = issued w ++ [attempt env u (ui w) now].
Proof.
  intros w.
  destruct (session_invariants env tr) as (Hun & Hg & Hf & _).
  fold w in Hun, Hg, Hf.
  split; [done |].
  split; [unfold fired in Hf; rewrite Hf; destruct (at_zero w); lia |].
  split; [done |].
  destruct Hg as (H1 & H2 & H3 & H4).
  split; [rewrite H1, !length_app; lia |].
  split; [lia |].
  intros e now u Hsub Hc Hs Hu.
  by destruct (submission_issues env w e now u Hun (conj H1 (conj H2 (conj H3 H4)))
                 Hsub Hc Hs Hu).
Qed.

(** In the scenario the click on "Submit Quiz" issues the attempt built
    from the state it finds. *)
Lemma one_insert_unless_refused_witness :
  issued (step Scenario.env 126999 Submit
            (run Scenario.env Scenario.answering mounted))
  = issued (run Scenario.env Scenario.answering mounted)
    ++ [attempt Scenario.env "user-1"
          (ui (run Scenario.env Scenario.answering mounted)) 126999].
Proof.
  apply (one_insert_unless_refused Scenario.env Scenario.answering).
  - left. by vm_compute.
  - by vm_compute.
  - by vm_compute.
  - reflexivity.
Defined.

(** C2, as stated, fails: when the insert of a submit click is refused
    and the countdown later runs out, a second insert is issued. *)
Lemma two_inserts_issued :
  length (issued (run Scenario.env Scenario.refused_then_timeout mounted))
  = 2%nat
  ∧ ¬ (∀ env tr, (length (issued (run env tr mounted)) <= 1)%nat).
Proof.
  assert (H : length (issued (run Scenario.env Scenario.refused_then_timeout
                                mounted)) = 2%nat) by (by vm_compute).
  split; [exact H |].
  intros Hall.
  specialize (Hall Scenario.env Scenario.refused_then_timeout).
  rewrite H in Hall. lia.
Qed.

(** C6: whatever happens in a session, and so for every sequence of
    "Previous", "Next" and jumps, the current index stays within
    [0, N-1] for a quiz of N ≥ 1 questions; and moving does not depend
    on what has been answered. *)
Theorem index_stays_in_range env tr :
  let w := run env tr mounted in
  let N := Z.of_nat (length (questions (ui w))) in
  1 <= N →
  0 <= currentQuestionIndex (ui w) <= N - 1
  ∧ ∀ now e a,
      navigation e = true →
      ui (step env now e (with_ui (setAnswers a) w))
      = setAnswers a (ui (step env now e w)).
Proof.
  intros w N HN.
  destruct (session_invariants env tr) as (_ & _ & _ & Ha & Hb).
  fold w in Ha, Hb. split.
  - destruct (shown (ui w)) eqn:Hs.
    + specialize (Hb eq_refl). fold N in Hb. lia.
    + rewrite (Ha eq_refl). lia.
  - intros now e a He. world w.
    destruct e; try done; open_step; cases; done.
Qed.

(** In the scenario, with five questions, the index is within [0, 4]. *)
Lemma index_stays_in_range_witness :
  0 <= currentQuestionIndex
         (ui (run Scenario.env Scenario.answering mounted)) <= 5 - 1.
Proof.
  apply (index_stays_in_range Scenario.env Scenario.answering).
  by vm_compute.
Defined.

(** C9: in a session whose quiz has a non-negative duration the
    remaining time is never negative. *)
Theorem timeLeft_never_negative env tr :
  Forall nonneg_duration tr →
  0 <= timeLeft (ui (run env tr mounted)).
Proof.
  assert (G : ∀ w, Forall nonneg_duration tr → 0 <= timeLeft (ui w) →
                   0 <= timeLeft (ui (run env tr w))).
  { induction tr as [| [now e] tr IH]; intros w Hall Hw; [done |].
    apply Forall_cons in Hall as [Hd Hall].
    cbn [run fold_left fst snd]. apply IH; [done |].
    by apply step_nonneg. }
  intros Hall. by apply G.
Qed.

(** A one-minute quiz whose countdown runs out. *)
Lemma timeLeft_never_negative_witness :
  0 <= timeLeft (ui (run Scenario.env Scenario.refused_then_timeout mounted)).
Proof.
  apply timeLeft_never_negative.
  apply (bool_decide_eq_true_1 (Forall nonneg_duration _)).
  by vm_compute.
Defined.


(** C7, as the session behaves: when the insert is refused the error is
    written to the console and [submitting] is cleared, so the session
    leaves the submitting state.  Nothing else of the component's state
    changes: the screen rendered is the one rendered during the
    submission, at the same question, and the button "Submit Quiz" is
    enabled again exactly where it is rendered, on the last question of
    the question screen; a click on it there issues a new insert.  The
    handler issues no insert of its own; afterwards only a click on
    "Submit Quiz" or a tick of the countdown can issue one, and none can
    where the button is not rendered and the countdown has run out. *)
Theorem refused_insert_clears_submitting env tr now err row rest :
  let w := run env tr mounted in
  completed w = None → pending w = row :: rest →
  let w' := step env now (InsertFailed err) w in
  submitting (ui w) = true
  ∧ console w' = console w ++ ["Error submitting quiz: " +:+ err]
  ∧ submitting (ui w') = false
  ∧ issued w' = issued w
  ∧ pending w' = []
  ∧ stored w' = []
  ∧ completed w' = None
  ∧ (∀ now' e,
       issued (step env now' e w') ≠ issued w' → e = Submit ∨ e = Tick)
  ∧ ui w' = setSubmitting false (ui w)
  ∧ shown (ui w') = shown (ui w)
  ∧ currentQuestionIndex (ui w') = currentQuestionIndex (ui w)
  ∧ QuizInterfaceView.submitRendered (ui w')
    = QuizInterfaceView.submitRendered (ui w)
  ∧ QuizInterfaceView.submitEnabled (ui w) = false
  ∧ QuizInterfaceView.submitEnabled (ui w')
    = QuizInterfaceView.submitRendered (ui w)
  ∧ (∀ now' u,
       user env = Some u →
       QuizInterfaceView.submitEnabled (ui w') = true →
       issued (step env now' Submit w')
       = issued w' ++ [attempt env u (ui w') now'])
  ∧ (∀ now' e,
       QuizInterfaceView.submitRendered (ui w') = false →
       timeLeft (ui w') <= 0 →
       issued (step env now' e w') = issued w').
Proof.
  intros w Hc Hp w'.
  destruct (session_invariants env tr) as (Hun & Hg & _ & _).
  fold w in Hun, Hg.
  destruct (guarded_busy w row rest Hg Hc Hp) as (Hst & -> & Hi).
  assert (Hsub : submitting (ui w) = true).
  { destruct Hg as (_ & _ & H3 & _). apply H3. by rewrite Hp. }
  assert (Hload : loading (ui w) = false).
  { destruct Hun as (H1 & _ & H3).
    destruct (loading (ui w)); [| done].
    assert (is_Some (quiz (ui w))) as [q Hq].
    { apply H3. rewrite Hi. by destruct (failed w). }
    rewrite H1 in Hq; done. }
  assert (Hw' : w' = insertFailed err row [] w).
  { unfold w', step. by rewrite Hc, Hp. }
  rewrite Hw'. clear Hw' w'.
  unfold QuizInterfaceView.submitEnabled, QuizInterfaceView.submitRendered.
  cbn [insertFailed console ui issued pending stored completed].
  split; [done |]. split; [done |]. split; [done |]. split; [done |].
  split; [done |]. split; [done |]. split; [done |].
  split.
  { intros now' e Hne.
    destruct e; auto; exfalso; apply Hne; clear Hne;
      revert Hc Hload; generalize w; intros v Hc Hload; world v; subst;
      open_step; cases; done. }
  split; [done |]. split; [done |]. split; [done |]. split; [done |].
  split; [by rewrite Hsub, andb_false_r |].
  split; [by rewrite andb_true_r |].
  split.
  - intros now' u Hu Hen.
    revert Hc Hload Hu Hen; generalize w; intros v Hc Hload Hu Hen.
    world v. subst. open_step. rewrite Hu.
    rewrite andb_true_r in Hen. rewrite Hen. cbn.
    apply andb_true_iff in Hen as [Hsh _].
    apply andb_true_iff in Hsh as [Hsh _].
    apply andb_true_iff in Hsh as [_ Hq].
    apply bool_decide_eq_true in Hq as [q ->]. done.
  - intros now' e Hren Htl.
    revert Hc Hload Hren Htl; generalize w; intros v Hc Hload Hren Htl.
    world v. subst. open_step.
    assert ((0 <? tl) = false) as Htl' by (apply Z.ltb_ge; lia).
    destruct e; rewrite ?Htl', ?Hren; cases; done.
Qed.

(** The refused insert of the one-minute quiz. *)
Lemma refused_insert_clears_submitting_witness :
  submitting (ui (step Scenario.env 2600 (InsertFailed "503")
                    (run Scenario.env (take 2 Scenario.refused) mounted)))
  = false.
Proof.
  eapply (refused_insert_clears_submitting Scenario.env
            (take 2 Scenario.refused) 2600 "503").
  - by vm_compute.
  - by vm_compute.
Defined.

(** C7, as stated, fails: after a refused insert the session is not in
    the submitting state. *)
Lemma refused_insert_not_submitting :
  let w := run Scenario.env Scenario.refused mounted in
  length (failed w) = 1%nat
  ∧ console w = ["Error submitting quiz: 503"]
  ∧ submitting (ui w) ≠ true.
Proof. by vm_compute. Qed.

(** A quiz without questions shows "Quiz not found or no questions
    available", but its countdown runs all the same, and when it runs out
    an attempt over no question is inserted. *)
Example empty_quiz_times_out :
  let w := run Scenario.env
             ((1200, FetchOk Scenario.quiz1 (Some [])) :: Scenario.ticks 2 60)
             mounted in
  shown (ui w) = false
  ∧ map total_questions (issued w) = [0]
  ∧ map score (issued w) = [0].
Proof. by vm_compute. Qed.

End SessionFacts.

(** ** The results view *)

Module ResultsFacts.
Import JS QuizResults FloatFacts.

Lemma some_failure_first b :
  some_failure b ↔ is_Some (first_failure b).
Proof.
  unfold some_failure, first_failure.
  destruct (titleReply b), (questionsReply b), (attemptReply b);
    (split; [intros [[? ?] | [[? ?] | [? ?]]]; simplify_eq; eauto
            | intros [? ?]; simplify_eq; eauto 6]).
Qed.

(** C8, as the view behaves: when one of the three queries fails, the
    queries after the first failing one are not issued, nothing of what
    was fetched is put into the state, the error is written to the
    console, and [loading] is cleared all the same, so that the view
    leaves its loading state. *)
Theorem failed_fetch_stops_loading b w :
  some_failure b →
  ∃ qs e,
    first_failure b = Some (qs, e)
    ∧ issued (fetchQuizData b w) = issued w ++ qs
    ∧ console (fetchQuizData b w)
      = console w ++ ["Error fetching quiz data: " +:+ e]
    ∧ questions (state (fetchQuizData b w)) = questions (state w)
    ∧ userAnswers (state (fetchQuizData b w)) = userAnswers (state w)
    ∧ quizTitle (state (fetchQuizData b w)) = quizTitle (state w)
    ∧ loading (state (fetchQuizData b w)) = false.
Proof.
  intros [(qs & e) Hf]%some_failure_first.
  exists qs, e. split; [done |].
  unfold fetchQuizData, fetched, bind, query, ret, first_failure in *.
  destruct (titleReply b), (questionsReply b), (attemptReply b);
    simplify_eq; cbn; rewrite <- ?app_assoc; done.
Qed.

(** The query for the questions fails: the query for the latest attempt
    is not issued, and the view stops loading. *)
Lemma failed_fetch_stops_loading_witness :
  ∃ qs e,
    first_failure (mkBackend (Data "Quiz") (Failed "timeout") (Data None))
    = Some (qs, e)
    ∧ issued (fetchQuizData
                (mkBackend (Data "Quiz") (Failed "timeout") (Data None)) mounted)
      = issued mounted ++ qs
    ∧ loading (state (fetchQuizData
                (mkBackend (Data "Quiz") (Failed "timeout") (Data None)) mounted))
      = false.
Proof.
  destruct (failed_fetch_stops_loading
              (mkBackend (Data "Quiz") (Failed "timeout") (Data None)) mounted)
    as (qs & e & H1 & H2 & _ & _ & _ & _ & H3).
  - right; left. by exists "timeout".
  - by exists qs, e.
Defined.

(** C8, as stated, fails: after a failed query the view is not left
    loading. *)
Lemma failed_fetch_not_loading :
  let w := fetchQuizData
             (mkBackend (Failed "timeout") (Data None) (Data None)) mounted in
  issued w = [SelectTitle]
  ∧ console w = ["Error fetching quiz data: timeout"]
  ∧ loading (state w) ≠ true.
Proof. by vm_compute. Qed.

(** The views of the specification's scenario: 3 of 5 in 125 seconds. *)
Example three_of_five :
  scorePercentage (of_Z 3) (of_Z 5) = of_Z 60
  ∧ grade (scorePercentage (of_Z 3) (of_Z 5)) = "D"
  ∧ averagePerQuestion (of_Z 125) (of_Z 5) = of_Z 25.
Proof. by vm_compute. Qed.

(** The grade of a whole percentage. *)
Lemma grade_thresholds p :
  0 <= p <= 100 →
  grade (of_Z p)
  = if 90 <=? p then "A" else if 80 <=? p then "B"
    else if 70 <=? p then "C" else if 60 <=? p then "D" else "F".
Proof.
  intros Hp.
  assert (H : Forall (λ p, grade (of_Z p)
                = if 90 <=? p then "A" else if 80 <=? p then "B"
                  else if 70 <=? p then "C" else if 60 <=? p then "D" else "F")
              (seqZ 0 101)).
  { apply (bool_decide_eq_true_1 (Forall _ _)). by vm_compute. }
  rewrite Forall_forall in H. apply H, elem_of_seqZ. lia.
Qed.

(** For a quiz of at most 100 questions the percentage shown is the
    specified one, except for 23 of 40 and 46 of 80, where it is one
    lower. *)
Lemma percentage_up_to_100 score total :
  0 < total <= 100 → 0 <= score <= total →
  scorePercentage (of_Z score) (of_Z total)
  = of_Z (if shown_lower score total
          then spec_percentage score total - 1
          else spec_percentage score total).
Proof.
  intros Ht Hs.
  assert (H : Forall (λ total,
                Forall (λ score,
                  scorePercentage (of_Z score) (of_Z total)
                  = of_Z (if shown_lower score total
                          then spec_percentage score total - 1
                          else spec_percentage score total))
                  (seqZ 0 (total + 1)))
              (seqZ 1 100)).
  { apply (bool_decide_eq_true_1 (Forall _ _)). by vm_compute. }
  rewrite Forall_forall in H.
  assert (Ht' : total ∈ seqZ 1 100) by (apply elem_of_seqZ; lia).
  specialize (H total Ht'). rewrite Forall_forall in H.
  apply H, elem_of_seqZ. lia.
Qed.

(** For every score out of a total below 2^32 the percentage shown is a
    whole number between 0 and 100: the specified one, unless the exact
    percentage lies halfway between two integers, and then the specified
    one or the one below. *)
Lemma percentage_characterised (s t : Z) :
  0 <= s <= t → 0 < t < 2 ^ 32 →
  ∃ n, scorePercentage (of_Z s) (of_Z t) = of_Z n
       ∧ 0 <= n <= 100
       ∧ (n = spec_percentage s t ∨ n = spec_percentage s t - 1)
       ∧ ((200 * s + t) mod (2 * t) ≠ 0 → n = spec_percentage s t).
Proof.
  intros Hs Ht.
  change (2 ^ 32) with 4294967296 in Ht.
  assert (HK : 0 <= spec_percentage s t <= 100).
  { unfold spec_percentage. split.
    - apply Z.div_pos; lia.
    - apply Z.lt_succ_r. apply Z.div_lt_upper_bound; lia. }
  destruct t as [| pt | pt]; [lia | | lia].
  destruct s as [| ps | ps]; [| | lia].
  { (* no correct answer *)
    exists 0.
    assert (HK0 : spec_percentage 0 (Z.pos pt) = 0).
    { unfold spec_percentage. apply Z.div_small. lia. }
    rewrite HK0. split; [| lia].
    unfold scorePercentage.
    rewrite div_by_zero_free by (change (2 ^ 53) with 9007199254740992; lia).
    reflexivity. }
  assert (Hd : digits ps <= digits pt) by (apply digits_mono; lia).
  assert (Hd1 := digits_pos ps).
  assert (Hd2 : digits pt <= 32).
  { assert (Bb := digits2_pos_bounds pt). fold (digits pt) in Bb.
    destruct (Z_le_gt_dec (digits pt) 32); [done |].
    assert (2 ^ 32 <= 2 ^ (digits pt - 1)) by (apply Z.pow_le_mono_r; lia).
    change (2 ^ 32) with 4294967296 in *. lia. }
  destruct (div_near ps pt) as (M1 & F1 & E1 & D1 & HF1 & HW1);
    [change (2 ^ 53) with 9007199254740992; lia
    | change (2 ^ 53) with 9007199254740992; lia |].
  set (e := digits ps - digits pt - 53) in *.
  destruct (mul_100_rounded M1 F1 D1) as (M2 & F2 & n2 & c2 & E2 & Hn2 & Hc2 & HF2 & HM2);
    [lia |].
  exists ((2 * Z.pos M2 + 2 ^ (- F2)) / (2 * 2 ^ (- F2))).
  split.
  { unfold scorePercentage. rewrite E1, E2. apply Math_round_finite. lia. }
  assert (HG : 2 ^ (- e) = 2 ^ (- F2) * 2 ^ (F1 - e + n2 + c2 - 46)).
  { rewrite <- Z.pow_add_r by lia. f_equal. lia. }
  assert (HGbig : 2 ^ 43 <= 2 ^ (- F2)).
  { apply Z.pow_le_mono_r; lia. }
  assert (Herr := percentage_error (Z.pos ps) (Z.pos pt) _ (Z.pos M1) (Z.pos M2)
                    (2 ^ (- e)) (2 ^ (- F2)) (F1 - e) n2 c2
                    ltac:(lia) ltac:(lia) ltac:(lia) Hn2 Hc2 eq_refl
                    ltac:(lia) HM2 HG).
  assert (Ht24 : 24 * Z.pos pt < 2 ^ (- F2)).
  { change (2 ^ 43) with 8796093022208 in HGbig. lia. }
  destruct (percentage_rounding (Z.pos ps) (Z.pos pt) (Z.pos M2) (2 ^ (- F2))
              ltac:(lia) Ht24 Herr) as [Hexact Hnear].
  fold (spec_percentage (Z.pos ps) (Z.pos pt)) in Hexact, Hnear.
  assert (Hpos : 0 <= (2 * Z.pos M2 + 2 ^ (- F2)) / (2 * 2 ^ (- F2))).
  { apply Z.div_pos; lia. }
  split; [split; [done | destruct Hnear as [H | H]; rewrite H; lia] |].
  split; [done | done].
Qed.

(** The average time per question is the exact quotient rounded to the
    nearest second, a tie going up. *)
Lemma average_per_question (timeTaken totalQuestions : Z) :
  0 <= timeTaken < 2 ^ 32 → 0 < totalQuestions < 2 ^ 32 →
  averagePerQuestion (of_Z timeTaken) (of_Z totalQuestions)
  = of_Z ((2 * timeTaken + totalQuestions) / (2 * totalQuestions)).
Proof. apply Math_round_div. Qed.

(** C4 at 23 of 40: the exact percentage is 57.5, which rounds to 58;
    the quotient 23/40 is stored as a number slightly below 0.575, its
    product with 100 is slightly below 57.5, and the view shows 57.
    Multiplying before dividing would have given 58. *)
Theorem percentage_of_23_in_40 :
  scorePercentage (of_Z 23) (of_Z 40) = of_Z 57
  ∧ spec_percentage 23 40 = 58
  ∧ Math_round (div (mul (of_Z 23) (of_Z 100)) (of_Z 40)) = of_Z 58.
Proof. by vm_compute. Qed.

End ResultsFacts.

(** ** The dashboard *)

Module DashboardFacts.
Import JS Dashboard DashboardSpec FloatFacts.

Lemma reduce_sum_from f L z :
  fold_left (λ sum attempt, sum + f attempt) L z = z + reduce_sum f L.
Proof.
  unfold reduce_sum. revert z.
  induction L as [| a L IH]; intros z; cbn [fold_left]; [lia |].
  rewrite IH, (IH (0 + f a)). lia.
Qed.

Lemma reduce_sum_cons f a L : reduce_sum f (a :: L) = f a + reduce_sum f L.
Proof. unfold reduce_sum at 1. cbn [fold_left]. by rewrite reduce_sum_from. Qed.

Lemma reduce_sum_spec f L : reduce_sum f L = spec_sum (map f L).
Proof.
  induction L as [| a L IH]; [done |].
  rewrite reduce_sum_cons, IH. done.
Qed.

Lemma reduce_sum_zero f L :
  Forall (λ a, f a = 0) L → reduce_sum f L = 0.
Proof.
  induction 1 as [| a L Ha _ IH]; [done |].
  rewrite reduce_sum_cons, IH, Ha. done.
Qed.

(** What the statistics are in every case: the number of attempts and
    the sum of their times; and all zero when there is no attempt. *)
Lemma stats_counts user L :
  let st := userStats (loaded user L) in
  totalAttempts st = Z.of_nat (length L)
  ∧ timeSpent st = spec_sum (map time_taken_seconds L)
  ∧ (L = [] → averageScore st = of_Z 0 ∧ bestScore st = of_Z 0).
Proof.
  destruct L as [| a L]; [done |].
  cbv [loaded fetchUserStats default from_option id]. cbn [userStats].
  replace (0 <? Z.of_nat (length (a :: L))) with true
    by (symmetry; apply Z.ltb_lt; cbn [length]; lia).
  unfold computeStats. cbn [totalAttempts timeSpent].
  rewrite reduce_sum_spec. split; [done | split; [done | intros; done]].
Qed.

(** C10: when the attempts' [total_questions] add up to nothing, and so
    when each of them is zero, the average score is the number 0: the
    division is not performed. *)
Theorem average_zero_without_questions user s L :
  L ≠ [] → Forall (λ a, total_questions a = 0) L →
  let st := userStats (fetchUserStats (Some user) (Data (Some L)) s) in
  reduce_sum total_questions L = 0
  ∧ averageScore st = of_Z 0
  ∧ averageScore st ≠ NaN
  ∧ to_Z (averageScore st) = Some 0.
Proof.
  intros HL Hz st.
  assert (Hsum : reduce_sum total_questions L = 0) by (by apply reduce_sum_zero).
  assert (Havg : averageScore st = of_Z 0).
  { unfold st. cbv [fetchUserStats default from_option id]. cbn [userStats].
    destruct L as [| a L]; [done |].
    replace (0 <? Z.of_nat (length (a :: L))) with true
      by (symmetry; apply Z.ltb_lt; cbn [length]; lia).
    unfold computeStats. cbn [averageScore]. by rewrite Hsum. }
  rewrite Havg. done.
Qed.

(** Two attempts over no question. *)
Lemma average_zero_without_questions_witness :
  averageScore
    (userStats (fetchUserStats (Some "user-1")
                  (Data (Some [mkAttempt "quiz-1" 0 0 60; mkAttempt "quiz-2" 0 0 5]))
                  initial))
  = of_Z 0.
Proof.
  apply (average_zero_without_questions "user-1" initial
           [mkAttempt "quiz-1" 0 0 60; mkAttempt "quiz-2" 0 0 5]).
  - done.
  - apply (bool_decide_eq_true_1 (Forall _ _)). by vm_compute.
Defined.

Lemma percent_characterised (a : QuizAttempt) :
  plausible a → ∃ n, shows a n.
Proof. intros [Hs Ht]. by apply ResultsFacts.percentage_characterised. Qed.

(** The largest percentage of a non-empty list of attempts is the
    largest of the whole numbers shown for them. *)
Lemma Math_max_percent (l : list QuizAttempt) :
  l ≠ [] → Forall plausible l →
  ∃ ns m, Forall2 shows l ns
          ∧ spec_maximum ns = Some m
          ∧ Math_max (map percent l) = of_Z m.
Proof.
  intros Hne Hall.
  assert (Hns : ∃ ns, Forall2 shows l ns).
  { clear Hne. induction Hall as [| a l Ha _ [ns IH]]; [by exists [] |].
    destruct (percent_characterised a Ha) as [n Hn].
    exists (n :: ns). by constructor. }
  destruct Hns as [ns Hns].
  destruct Hns as [| a n l ns Hn Hns]; [done |].
  exists (n :: ns), (fold_left Z.max ns n).
  split; [by constructor |]. split; [done |].
  assert (Hmap : map percent (a :: l) = map of_Z (n :: ns)).
  { cbn [map]. f_equal; [by destruct Hn |].
    clear - Hns. induction Hns as [| b k l ns Hk _ IH]; [done |].
    cbn [map]. f_equal; [by destruct Hk | done]. }
  rewrite Hmap. apply Math_max_of_Z.
  apply Forall_cons. split.
  - destruct Hn as (_ & Hb & _). change (2 ^ 53) with 9007199254740992. lia.
  - clear - Hns. induction Hns as [| b k l ns Hk _ IH]; [done |].
    apply Forall_cons. split; [| done].
    destruct Hk as (_ & Hb & _). change (2 ^ 53) with 9007199254740992. lia.
Qed.

(** The best score of the statistics and the best score of a quiz card
    are such maxima. *)
Lemma best_characterised user (L : list QuizAttempt) :
  L ≠ [] → Forall plausible L →
  ∃ ns m, Forall2 shows L ns
          ∧ spec_maximum ns = Some m
          ∧ bestScore (userStats (loaded user L)) = of_Z m.
Proof.
  intros Hne Hall.
  destruct (Math_max_percent L Hne Hall) as (ns & m & H1 & H2 & H3).
  exists ns, m. split; [done |]. split; [done |].
  destruct L as [| a L]; [done |].
  cbv [loaded fetchUserStats default from_option id]. cbn [userStats].
  replace (0 <? Z.of_nat (length (a :: L))) with true
    by (symmetry; apply Z.ltb_lt; cbn [length]; lia).
  done.
Qed.

Lemma card_best_characterised s quizId :
  let attempts := filter (λ a, quiz_id a = quizId) (quizAttempts s) in
  attempts ≠ [] → Forall plausible attempts →
  ∃ ns m, Forall2 shows attempts ns
          ∧ spec_maximum ns = Some m
          ∧ getBestScore s quizId = Some (of_Z m).
Proof.
  intros attempts Hne Hall.
  destruct (Math_max_percent attempts Hne Hall) as (ns & m & H1 & H2 & H3).
  exists ns, m. split; [done |]. split; [done |].
  unfold getBestScore. fold attempts. rewrite H3.
  destruct attempts as [| a l]; [done |].
  replace (Z.of_nat (length (a :: l)) =? 0) with false; [done |].
  symmetry. apply Z.eqb_neq. cbn [length]. lia.
Qed.

(** The average score over a non-empty list of attempts is the percentage
    of the summed scores in the summed totals, as the results view would
    show it. *)
Lemma average_characterised user (L : list QuizAttempt) :
  let totalScore := reduce_sum score L in
  let totalPossibleScore := reduce_sum total_questions L in
  L ≠ [] →
  0 <= totalScore <= totalPossibleScore → 0 < totalPossibleScore < 2 ^ 32 →
  ∃ n, averageScore (userStats (loaded user L)) = of_Z n
       ∧ 0 <= n <= 100
       ∧ (n = spec_percentage totalScore totalPossibleScore
          ∨ n = spec_percentage totalScore totalPossibleScore - 1)
       ∧ ((200 * totalScore + totalPossibleScore) mod (2 * totalPossibleScore) ≠ 0 →
          n = spec_percentage totalScore totalPossibleScore).
Proof.
  intros totalScore totalPossibleScore HL Hs Ht.
  assert (Havg : averageScore (userStats (loaded user L))
                 = QuizResults.scorePercentage (of_Z totalScore)
                     (of_Z totalPossibleScore)).
  { destruct L as [| a L]; [done |].
    cbv [loaded fetchUserStats default from_option id]. cbn [userStats].
    replace (0 <? Z.of_nat (length (a :: L))) with true
      by (symmetry; apply Z.ltb_lt; cbn [length]; lia).
    unfold computeStats. cbn [averageScore].
    fold totalScore totalPossibleScore.
    replace (0 <? totalPossibleScore) with true
      by (symmetry; apply Z.ltb_lt; lia).
    done. }
  rewrite Havg. by apply ResultsFacts.percentage_characterised.
Qed.

(** C3 at one attempt of 23 in 40: the count and the time are as
    specified, but the average and the best score are shown as 57 where
    the exact percentage, 57.5, rounds to 58. *)
Theorem stats_of_23_in_40 :
  let st := userStats (loaded "user-1" [mkAttempt "quiz-1" 23 40 125]) in
  totalAttempts st = 1
  ∧ timeSpent st = 125
  ∧ averageScore st = of_Z 57
  ∧ bestScore st = of_Z 57
  ∧ spec_percentage 23 40 = 58.
Proof. by vm_compute. Qed.

Lemma no_attempt_on (quizId : string) (l : list QuizAttempt) :
  filter (λ a, quiz_id a = quizId) l = []
  ↔ Forall (λ a, quiz_id a ≠ quizId) l.
Proof.
  induction l as [| a l IH]; [done |].
  rewrite filter_cons, Forall_cons. case_decide as Hq.
  - split; [done | by intros [? _]].
  - rewrite IH. split; [done | by intros [_ ?]].
Qed.

(** The count on a card is the number of the user's attempts on its
    quiz, and the card has no best score exactly when there is none. *)
Lemma per_quiz_counts s quizId :
  getQuizAttempts s quizId
  = Z.of_nat (length (filter (λ a, quiz_id a = quizId) (quizAttempts s)))
  ∧ (getBestScore s quizId = None
     ↔ Forall (λ a, quiz_id a ≠ quizId) (quizAttempts s)).
Proof.
  split; [done |]. rewrite <- no_attempt_on. unfold getBestScore.
  destruct (filter (λ a, quiz_id a = quizId) (quizAttempts s)) as [| a l];
    [done |].
  replace (Z.of_nat (length (a :: l)) =? 0) with false; [done |].
  symmetry. apply Z.eqb_neq. cbn [length]. lia.
Qed.

(** The specification's scenario: 3 of 5 and 5 of 5 on one quiz. *)
Example two_attempts_on_one_quiz :
  let s := loaded "user-1" [mkAttempt "quiz-1" 3 5 125; mkAttempt "quiz-1" 5 5 90] in
  getQuizAttempts s "quiz-1" = 2
  ∧ getBestScore s "quiz-1" = Some (of_Z 100)
  ∧ getQuizAttempts s "quiz-2" = 0
  ∧ getBestScore s "quiz-2" = None.
Proof. by vm_compute. Qed.

(** C5 at one attempt of 23 in 40 on a quiz: its card counts one
    attempt, but shows a best score of 57 where the exact percentage,
    57.5, rounds to 58. *)
Theorem best_of_23_in_40 :
  let s := loaded "user-1" [mkAttempt "quiz-1" 23 40 125] in
  getQuizAttempts s "quiz-1" = 1
  ∧ getBestScore s "quiz-1" = Some (of_Z 57)
  ∧ spec_maximum [spec_percentage 23 40] = Some 58.
Proof. by vm_compute. Qed.

(** The best score is not guarded as the average is: an attempt over no
    question makes it NaN. *)
Example best_score_without_questions :
  let s := loaded "user-1" [mkAttempt "quiz-1" 0 0 60] in
  averageScore (userStats s) = of_Z 0
  ∧ bestScore (userStats s) = NaN
  ∧ getBestScore s "quiz-1" = Some NaN.
Proof. by vm_compute. Qed.

End DashboardFacts.

(** ** Texts and clocks *)

Module TextFacts.
Import JS JSText FloatFacts.

Lemma to_Z_of_Z (k : Z) : 0 <= k < 2 ^ 53 → to_Z (of_Z k) = Some k.
Proof.
  intros Hk. destruct k as [|p|p]; [done| |lia].
  destruct (of_Z_pos p) as (m & -> & Hd & Hm); [lia|].
  pose proof (digits_pos p) as H1.
  assert (digits p <= 53) as H2.
  { unfold digits. destruct (Z_lt_le_dec 53 (Z.pos (digits2_pos p))) as [H|H]; [|done].
    pose proof (digits2_pos_bounds p) as [Hb _].
    assert (2 ^ 53 <= 2 ^ (Z.pos (digits2_pos p) - 1)) by (apply Z.pow_le_mono_r; lia).
    lia. }
  cbn [to_Z signed].
  destruct (0 <=? digits p - 53) eqn:E.
  - apply Z.leb_le in E. assert (digits p = 53) as E' by lia.
    rewrite E' in *. rewrite Hm. f_equal. change (2 ^ (53 - 53)) with 1. lia.
  - apply Z.leb_gt in E.
    replace (- (digits p - 53)) with (53 - digits p) by lia.
    rewrite Hm, Z.mod_mul, Z.div_mul by (apply Z.pow_nonzero; lia).
    done.
Qed.

Lemma Number_toString_of_Z (k : Z) :
  0 <= k < 2 ^ 53 → Number_toString (of_Z k) = Some (pretty k).
Proof.
  intros Hk. unfold Number_toString. rewrite to_Z_of_Z by done.
  assert ((Z.abs k <? 10 ^ 21) = true) as ->; [|done].
  apply Z.ltb_lt. rewrite Z.abs_eq by lia.
  assert (2 ^ 53 < 10 ^ 21) by (vm_compute; done). lia.
Qed.

Lemma two_digits (r : Z) :
  0 <= r < 60 →
  padStart (pretty r) 2 "0" = pretty (r / 10) +:+ pretty (r mod 10).
Proof.
  intros Hr.
  assert (Forall (λ r, padStart (pretty r) 2 "0"
                       = pretty (r / 10) +:+ pretty (r mod 10)) (seqZ 0 60)) as H.
  { apply (bool_decide_eq_true_1 (Forall _ _)). by vm_compute. }
  rewrite Forall_forall in H. apply H, elem_of_seqZ. lia.
Qed.

Lemma two_digits_inj (r r' : Z) :
  0 <= r < 60 → 0 <= r' < 60 →
  padStart (pretty r) 2 "0" = padStart (pretty r') 2 "0" → r = r'.
Proof.
  intros Hr Hr'.
  assert (Forall (λ r, Forall (λ r', padStart (pretty r) 2 "0"
                                     = padStart (pretty r') 2 "0" → r = r')
                              (seqZ 0 60)) (seqZ 0 60)) as H.
  { apply (bool_decide_eq_true_1 (Forall _ _)). by vm_compute. }
  rewrite Forall_forall in H.
  specialize (H r). rewrite Forall_forall in H.
  apply H; apply elem_of_seqZ; lia.
Qed.

Lemma two_digits_length (r : Z) :
  0 <= r < 60 → String.length (padStart (pretty r) 2 "0") = 2%nat.
Proof.
  intros Hr.
  assert (Forall (λ r, String.length (padStart (pretty r) 2 "0") = 2%nat)
                 (seqZ 0 60)) as H.
  { apply (bool_decide_eq_true_1 (Forall _ _)). by vm_compute. }
  rewrite Forall_forall in H. apply H, elem_of_seqZ. lia.
Qed.

Lemma list_of_append (a b : string) :
  String.list_ascii_of_string (a +:+ b)
  = String.list_ascii_of_string a ++ String.list_ascii_of_string b.
Proof. induction a as [|c a IH]; [done|]. simpl. by f_equal. Qed.

Lemma list_of_length (a : string) :
  length (String.list_ascii_of_string a) = String.length a.
Proof. induction a as [|c a IH]; [done|]. simpl. by f_equal. Qed.

Lemma length_append (a b : string) :
  String.length (a +:+ b) = (String.length a + String.length b)%nat.
Proof. induction a as [|c a IH]; [done|]. simpl. by f_equal. Qed.

(** Two texts that end in tails of the same length are equal only if
    their heads and their tails are. *)
Lemma append_inj_tail (a a' t t' : string) :
  String.length t = String.length t' →
  a +:+ t = a' +:+ t' → a = a' ∧ t = t'.
Proof.
  intros Hlen Heq.
  apply (f_equal String.list_ascii_of_string) in Heq.
  rewrite !list_of_append in Heq.
  apply app_inj_2 in Heq as [Ha Ht]; [|by rewrite !list_of_length].
  split.
  - by rewrite <- (String.string_of_list_ascii_of_string a),
               <- (String.string_of_list_ascii_of_string a'), Ha.
  - by rewrite <- (String.string_of_list_ascii_of_string t),
               <- (String.string_of_list_ascii_of_string t'), Ht.
Qed.

End TextFacts.

(** ** Clock texts *)

Module ClockFacts.
Import JS JSText FloatFacts TextFacts.

Lemma minutes_and_seconds (s : Z) :
  0 <= s < 2 ^ 53 →
  QuizInterfaceView.formatTime s
  = Some (pretty (s / 60) +:+ ":" +:+ padStart (pretty (s mod 60)) 2 "0").
Proof.
  intros Hs. unfold QuizInterfaceView.formatTime.
  rewrite Math_floor_div by lia.
  rewrite Number_toString_of_Z by (split; [apply Z.div_pos|apply Z.div_lt_upper_bound]; lia).
  cbn. by rewrite (Z.rem_mod_nonneg s 60) by lia.
Qed.

(** X1 ([formatTime] of the quiz session and of the results view).  For a
    whole number of seconds below 2^53 the clock text is the decimal
    notation of the whole minutes, a colon, and the two decimal digits of
    the remaining seconds: the division by 60 and [Math.floor], carried
    out in binary64, give the integer quotient.  The two components
    format alike. *)
Theorem clock_shows_minutes_and_two_digits (s : Z) :
  0 <= s < 2 ^ 53 →
  QuizInterfaceView.formatTime s
  = Some (pretty (s / 60) +:+ ":"
          +:+ pretty (s mod 60 / 10) +:+ pretty (s mod 60 mod 10))
  ∧ QuizResultsView.formatTime s = QuizInterfaceView.formatTime s.
Proof.
  intros Hs. split; [|done].
  rewrite minutes_and_seconds by done.
  rewrite two_digits by (apply Z.mod_pos_bound; lia). done.
Qed.

Lemma clock_shows_minutes_and_two_digits_witness :
  QuizInterfaceView.formatTime 125 = Some "2:05".
Proof.
  destruct (clock_shows_minutes_and_two_digits 125) as [H _]; [lia|].
  rewrite H. by vm_compute.
Defined.

Lemma clock_injective (s s' : Z) :
  0 <= s < 2 ^ 53 → 0 <= s' < 2 ^ 53 →
  QuizInterfaceView.formatTime s = QuizInterfaceView.formatTime s' → s = s'.
Proof.
  intros Hs Hs'. rewrite !minutes_and_seconds by done.
  intros [= Heq].
  pose proof (Z.mod_pos_bound s 60) as Hr.
  pose proof (Z.mod_pos_bound s' 60) as Hr'.
  apply append_inj_tail in Heq as [Hm Ht].
  - apply (inj pretty) in Hm. injection Ht as Ht.
    change ("" +:+ ?x) with x in Ht.
    apply two_digits_inj in Ht; [|lia..].
    rewrite (Z.div_mod s 60), (Z.div_mod s' 60) by lia. lia.
  - rewrite !length_append, !two_digits_length; lia.
Qed.

(** X2 ([formatTime] of the quiz session).  Two different numbers of
    seconds below 2^53 are never shown as the same clock text. *)
Theorem clock_tells_times_apart (s s' : Z) :
  0 <= s < 2 ^ 53 → 0 <= s' < 2 ^ 53 → s ≠ s' →
  QuizInterfaceView.formatTime s ≠ QuizInterfaceView.formatTime s'.
Proof. intros Hs Hs' Hne Heq. by apply Hne, clock_injective. Qed.

Lemma clock_tells_times_apart_witness :
  QuizInterfaceView.formatTime 59 ≠ QuizInterfaceView.formatTime 60.
Proof. apply clock_tells_times_apart; lia. Defined.

(** X3 ([formatTime] of the dashboard).  A time spent of fewer than 2^53
    seconds is shown as whole hours and whole minutes, the minutes below
    60, and from one hour on; below one hour as whole minutes alone. *)
Theorem time_spent_in_hours_and_minutes (s : Z) :
  0 <= s < 2 ^ 53 →
  DashboardLoad.formatTime s
  = Some (if 3600 <=? s
          then pretty (s / 3600) +:+ "h " +:+ pretty (s mod 3600 / 60) +:+ "m"
          else pretty (s / 60) +:+ "m")
  ∧ 0 <= s mod 3600 / 60 < 60.
Proof.
  intros Hs. unfold DashboardLoad.formatTime.
  pose proof (Z.mod_pos_bound s 3600) as Hr.
  assert (0 <= s / 3600 < 2 ^ 53) as Hh
    by (split; [apply Z.div_pos|apply Z.div_lt_upper_bound]; lia).
  assert (0 <= s mod 3600 / 60 < 60) as Hm
    by (split; [apply Z.div_pos|apply Z.div_lt_upper_bound]; lia).
  split; [|done].
  rewrite (Z.rem_mod_nonneg s 3600) by lia.
  rewrite !Math_floor_div by lia.
  rewrite !Number_toString_of_Z by lia. cbn [mbind option_bind].
  unfold gt, SFltb. rewrite of_Z_compare by lia.
  destruct (Z.leb_spec 3600 s) as [H|H].
  - assert (0 < s / 3600) by (apply Z.div_str_pos; lia).
    by destruct (Z.compare_spec 0 (s / 3600)); [lia| |lia].
  - rewrite (Z.div_small s 3600), (Z.mod_small s 3600) by lia. done.
Qed.

Lemma time_spent_in_hours_and_minutes_witness :
  DashboardLoad.formatTime 3725 = Some "1h 2m".
Proof.
  destruct (time_spent_in_hours_and_minutes 3725) as [H _]; [lia|].
  rewrite H. by vm_compute.
Defined.

End ClockFacts.

(** ** The quiz session: answers, rows, countdown *)

Module SessionViewFacts.
Import JS QuizInterface QuizInterfaceView SessionTactics FloatFacts SessionFacts.

Lemma answered_same w w' :
  answers (ui w') = answers (ui w) → questions (ui w') = questions (ui w) →
  loading (ui w') = loading (ui w) →
  answered_within w → answered_within w'.
Proof. unfold answered_within. by intros -> -> ->. Qed.

Lemma answered_none w :
  loading (ui w) = false → answers (ui w) = ∅ → answered_within w.
Proof.
  unfold answered_within. intros -> ->. split; [done|].
  intros k v. by rewrite lookup_empty.
Qed.

Lemma step_answered env now e w :
  answered_within w → answered_within (step env now e w).
Proof.
  intros H. world w. destruct e; open_step; cases;
    try exact H;
    try (eapply answered_same; [.. | exact H]; reflexivity);
    try (apply answered_none; [reflexivity | by apply H]).
  props. subst. destruct H as [_ H]. split; [intros [=]|]. cbn.
  intros k v. destruct (decide (k = id q)) as [->|Hk].
  - rewrite lookup_insert_eq. intros [= <-]. split; [|done].
    apply list_elem_of_fmap. exists q. split; [done|].
    by eapply list_elem_of_lookup_2.
  - rewrite lookup_insert_ne by done. apply H.
Qed.

Lemma answered_mounted : answered_within mounted.
Proof. split; [done|]. intros k v. cbn. by rewrite lookup_empty. Qed.

Lemma answered_always env tr : answered_within (run env tr mounted).
Proof.
  apply (run_invariant answered_within).
  - intros. by apply step_answered.
  - apply answered_mounted.
Qed.

Lemma correct_count_bounds qs ans :
  0 <= correct_count qs ans <= Z.of_nat (length qs).
Proof.
  unfold correct_count. split; [lia|].
  apply inj_le, length_filter.
Qed.

Lemma attempt_well_formed env u s now :
  (∀ k v, answers s !! k = Some v → v ∈ optionKeys) →
  well_formed (questions s) (attempt env u s now).
Proof.
  intros Hans. rewrite attempt_fields. unfold well_formed.
  cbn [score total_questions attempt_answers].
  rewrite scoreAnswers_score, scoreAnswers_dom.
  split; [apply correct_count_bounds|]. split; [done|]. split; [done|].
  intros k v. rewrite scoreAnswers_lookup. case_decide; [|done].
  intros [= <-]. destruct (answers s !! k) as [a|] eqn:E; cbn.
  - apply elem_of_cons. right. by eapply Hans.
  - apply elem_of_cons. by left.
Qed.

(** A property of the rows that [handleSubmit] builds holds of every
    row a session has sent. *)
Lemma step_rows (R : list Question → Attempt → Prop) env now e w :
  (∀ u s now, (∀ k v, answers s !! k = Some v → v ∈ optionKeys) →
              R (questions s) (attempt env u s now)) →
  unloaded w → answered_within w →
  Forall (R (questions (ui w))) (issued w) →
  Forall (R (questions (ui (step env now e w)))) (issued (step env now e w)).
Proof.
  intros HR Hun Hans H.
  assert (∀ k v, answers (ui w) !! k = Some v → v ∈ optionKeys) as Hv
    by (intros k v Hk; by apply Hans in Hk as [_ ?]).
  assert (loading (ui w) = true → issued w = []) as Hld.
  { intros Hl. destruct Hun as (H1 & _ & H3).
    destruct (issued w) as [|r l]; [done|].
    destruct H3 as [q Hq]; [done|]. rewrite (H1 Hl) in Hq. done. }
  world w. destruct e; open_step; cases; try exact H;
    try (rewrite Hld by done; apply Forall_nil_2);
    try (apply Forall_app; split; [try exact H; rewrite Hld by done; apply Forall_nil_2|];
         apply Forall_singleton;
         match goal with
         | |- R _ (attempt ?env ?u ?s ?now) => apply (HR u s now); exact Hv
         end).
Qed.

Lemma rows_always (R : list Question → Attempt → Prop) env tr :
  (∀ u s now, (∀ k v, answers s !! k = Some v → v ∈ optionKeys) →
              R (questions s) (attempt env u s now)) →
  let w := run env tr mounted in
  Forall (R (questions (ui w))) (issued w)
  ∧ Forall (R (questions (ui w))) (stored w).
Proof.
  intros HR w.
  assert (unloaded w ∧ answered_within w
          ∧ Forall (R (questions (ui w))) (issued w)) as (_ & _ & H).
  { apply (run_invariant (λ w, unloaded w ∧ answered_within w
             ∧ Forall (R (questions (ui w))) (issued w))).
    - intros now e w' (H1 & H2 & H3). split; [by apply step_unloaded|].
      split; [by apply step_answered|]. by apply step_rows.
    - split; [|split; [apply answered_mounted|apply Forall_nil_2]].
      by destruct (session_invariants env []) as [? _]. }
  split; [done|].
  destruct (session_invariants env tr) as (_ & (Hiss & _) & _).
  fold w in Hiss. rewrite Hiss in H.
  by apply Forall_app in H as [_ [H _]%Forall_app].
Qed.

Lemma div_self (p : positive) :
  Z.pos p < 2 ^ 53 →
  div (of_Z (Z.pos p)) (of_Z (Z.pos p)) = of_Z 1.
Proof.
  intros Hp.
  destruct (div_near p p Hp Hp) as (M & F & -> & Hd & HF & Hq).
  cbv zeta in HF, Hq.
  replace (digits p - digits p - 53) with (-53) in * by lia.
  change (- -53) with 53 in Hq.
  rewrite (Z.mul_comm (Z.pos p)), Z.div_mul in Hq by lia.
  pose proof (digits2_pos_bounds M) as HM. rewrite Hd in HM.
  change (2 ^ (53 - 1)) with 4503599627370496 in HM.
  change (2 ^ 53) with 9007199254740992 in *.
  assert (F = -53 ∨ F = -52 ∨ F = -51) as [-> | [-> | ->]] by lia.
  - change (2 ^ (-53 - -53)) with 1 in Hq.
    change (Z.odd 9007199254740992) with false in Hq. lia.
  - change (2 ^ (-52 - -53)) with 2 in Hq.
    change (Z.odd 9007199254740992) with false in Hq.
    assert (Z.pos M = 4503599627370496) as HM' by lia.
    injection HM' as ->. by vm_compute.
  - change (2 ^ (-51 - -53)) with 4 in Hq.
    change (Z.odd 9007199254740992) with false in Hq. lia.
Qed.

(** X8 ([progress]).  On the last question of a quiz with fewer than 2^53
    questions the progress bar stands at exactly 100: in binary64,
    N / N * 100 is 100 for every such N. *)
Theorem progress_is_full_on_last_question (s : State) :
  let N := Z.of_nat (length (questions s)) in
  1 <= N < 2 ^ 53 → currentQuestionIndex s = N - 1 →
  progress s = of_Z 100.
Proof.
  intros N HN Hi. unfold progress. rewrite Hi. fold N.
  replace (N - 1 + 1) with N by lia.
  destruct N as [|p|p]; [lia| |lia].
  rewrite div_self by lia. by vm_compute.
Qed.

Lemma progress_is_full_on_last_question_witness :
  progress (ui (run Scenario.env Scenario.answering mounted)) = of_Z 100.
Proof.
  apply progress_is_full_on_last_question.
  - by vm_compute.
  - by vm_compute.
Defined.

(** X6 ([handleAnswerSelect]).  Selecting an option after another for the
    current question leaves the session as if only the second had been
    selected; and a selection leaves the answer of every other question
    as it was. *)
Theorem last_selection_wins env now now' a b w :
  b ∈ optionKeys →
  step env now' (Select b) (step env now (Select a) w)
  = step env now' (Select b) w
  ∧ ∀ k, (∀ q, currentQuestion (ui w) = Some q → id q ≠ k) →
         answers (ui (step env now' (Select b) w)) !! k = answers (ui w) !! k.
Proof.
  intros Hb. apply (bool_decide_eq_true_2 (b ∈ optionKeys)) in Hb. split.
  - world w. open_step. rewrite Hb.
    destruct comp; [done|]. cbn.
    destruct (qs !! Z.to_nat idx) as [q|] eqn:Eq; cbn; [|by rewrite Eq].
    destruct (negb ld && bool_decide (is_Some qz)
              && negb (Z.of_nat (length qs) =? 0)) eqn:Esh; cbn.
    + destruct (bool_decide (a ∈ optionKeys)); cbn; rewrite Eq, Esh; cbn;
        [by rewrite insert_insert_eq|done].
    + by rewrite Eq, Esh.
  - intros k Hk. world w. open_step. cases; try done.
    cbn. rewrite lookup_insert_ne; [done|]. by apply Hk.
Qed.

Lemma last_selection_wins_witness :
  step Scenario.env 9500 (Select "B")
    (step Scenario.env 9000 (Select "D")
       (run Scenario.env (take 3 Scenario.answering) mounted))
  = step Scenario.env 9500 (Select "B")
      (run Scenario.env (take 3 Scenario.answering) mounted).
Proof.
  apply (last_selection_wins Scenario.env 9000 9500 "D" "B").
  apply (bool_decide_eq_true_1 (_ ∈ _)). by vm_compute.
Defined.

Lemma step_not_found env now e w : not_found w → not_found (step env now e w).
Proof.
  intros (H1 & H2 & H3 & H4 & H5 & H6 & H7 & H8).
  world w. subst. by destruct e.
Qed.

(** X7 ([fetchQuizData] and the countdown effect).  If the quiz query or
    the question query fails, the session stays on the screen "Quiz not
    found" whatever happens afterwards: no insert is issued, [onComplete]
    is not called, and the countdown stays at zero without an automatic
    submission.  At most two queries are issued, and only the first one
    if the quiz query fails. *)
Theorem failed_load_never_submits env b now tr :
  (∃ e, quizReply b = Failed e ∨ questionsReply b = Failed e) →
  let w := run env tr (step env now (snd (fetchQuizData b)) mounted) in
  shown (ui w) = false ∧ issued w = [] ∧ completed w = None
  ∧ timeLeft (ui w) = 0 ∧ autoSubmits w = 0%nat
  ∧ (length (fst (fetchQuizData b)) <= 2)%nat
  ∧ ((∃ e, quizReply b = Failed e) → fst (fetchQuizData b) = [SelectQuiz]).
Proof.
  intros Hfail w.
  assert (not_found w) as (H1 & H2 & H3 & H4 & H5 & H6 & H7 & H8).
  { apply (run_invariant not_found); [intros; by apply step_not_found|].
    unfold fetchQuizData.
    destruct Hfail as [e [He|He]]; rewrite He.
    - by vm_compute.
    - by destruct (quizReply b). }
  split; [unfold shown; by rewrite H1, H2, H3|].
  do 4 (split; [done|]). unfold fetchQuizData.
  split; [destruct (quizReply b), (questionsReply b); cbn; lia|].
  by intros [e ->].
Qed.

Lemma failed_load_never_submits_witness :
  issued (run Scenario.env [(61000, Tick); (62000, Submit)]
            (step Scenario.env 1200
               (snd (fetchQuizData
                       (mkBackend (Data Scenario.quiz20) (Failed "timeout"))))
               mounted)) = [].
Proof.
  destruct (failed_load_never_submits Scenario.env
              (mkBackend (Data Scenario.quiz20) (Failed "timeout")) 1200
              [(61000, Tick); (62000, Submit)]) as (_ & H & _).
  - exists "timeout". by right.
  - exact H.
Defined.

Lemma completed_stays env now e w :
  completed (step env now e w) = None → completed w = None.
Proof. unfold step. destruct (completed w) eqn:E; [by rewrite E|done]. Qed.

Lemma step_loaded env now e w :
  loading (ui w) = false → is_Some (quiz (ui w)) →
  loading (ui (step env now e w)) = false ∧ is_Some (quiz (ui (step env now e w))).
Proof.
  intros H1 H2. world w. subst. destruct e; open_step; cases; done.
Qed.

Lemma ticks_in_snoc tr ev :
  ticks_in (tr ++ [ev]) = ticks_in tr + (if is_tick (snd ev) then 1 else 0).
Proof.
  unfold ticks_in. rewrite filter_app, length_app, Nat2Z.inj_add. f_equal.
  rewrite filter_cons, filter_nil. destruct (is_tick (snd ev)); by case_decide.
Qed.

Lemma step_timeLeft env now e w :
  loading (ui w) = false → completed w = None →
  timeLeft (ui (step env now e w))
  = if is_tick e && (0 <? timeLeft (ui w)) then timeLeft (ui w) - 1
    else timeLeft (ui w).
Proof.
  intros H1 H2. world w. subst. destruct e; open_step; cases; done.
Qed.

(** X9 (the countdown effect).  Once a quiz of non-negative duration is
    loaded, and until the session completes, the remaining time is the
    duration in seconds less the number of timer callbacks since, and
    zero once these exceed it: no other event moves the clock. *)
Theorem countdown_counts_ticks env now quizData questionsData tr :
  0 <= duration_minutes quizData →
  let w := run env tr (step env now (FetchOk quizData questionsData) mounted) in
  completed w = None →
  timeLeft (ui w) = Z.max 0 (duration_minutes quizData * 60 - ticks_in tr).
Proof.
  intros Hd. cbv zeta.
  set (w0 := step env now (FetchOk quizData questionsData) mounted).
  assert (loading (ui w0) = false ∧ is_Some (quiz (ui w0))
          ∧ timeLeft (ui w0) = duration_minutes quizData * 60) as (L0 & Q0 & T0).
  { unfold w0. open_step. cbn. cases; done. }
  assert (∀ tr, loading (ui (run env tr w0)) = false
                ∧ is_Some (quiz (ui (run env tr w0)))) as Hld.
  { intros tr'. apply (run_invariant (λ w, loading (ui w) = false ∧ is_Some (quiz (ui w)))).
    - intros now' e w [? ?]. by apply step_loaded.
    - done. }
  induction tr as [|ev tr IH] using rev_ind.
  - intros _. rewrite run_nil, T0. unfold ticks_in. cbn. lia.
  - rewrite run_snoc, ticks_in_snoc. intros Hc.
    pose proof (completed_stays _ _ _ _ Hc) as Hc'.
    specialize (IH Hc').
    rewrite step_timeLeft by (done || apply Hld).
    rewrite IH.
    pose proof (Nat2Z.is_nonneg (length (filter (λ ev, is_tick (snd ev) = true) tr))).
    destruct (is_tick (snd ev)); cbn.
    + destruct (Z.ltb_spec 0 (Z.max 0 (duration_minutes quizData * 60 - ticks_in tr))); lia.
    + lia.
Qed.

Lemma countdown_counts_ticks_witness :
  timeLeft (ui (run Scenario.env (Scenario.ticks 2 10)
                  (step Scenario.env 1200
                     (FetchOk Scenario.quiz1 (Some Scenario.five)) mounted)))
  = Z.max 0 (1 * 60 - 10).
Proof.
  apply (countdown_counts_ticks Scenario.env 1200 Scenario.quiz1
           (Some Scenario.five) (Scenario.ticks 2 10)).
  - by vm_compute.
  - by vm_compute.
Defined.

Lemma reported_same w w' :
  completed w' = completed w → stored w' = stored w → reported w → reported w'.
Proof. unfold reported. by intros -> ->. Qed.

Lemma step_reported env now e w :
  guarded w → reported w → reported (step env now e w).
Proof.
  intros Hg H.
  destruct (completed w) eqn:Hc.
  { unfold step. by rewrite Hc. }
  destruct (pending w) as [|row rest] eqn:Hp.
  - world w. subst. destruct e; open_step; cases;
      try exact H; try (eapply reported_same; [.. | exact H]; reflexivity).
  - destruct (guarded_busy w row rest Hg Hc Hp) as (Hst & -> & _).
    world w. subst. destruct e; open_step; cases;
      try exact H; try (eapply reported_same; [.. | exact H]; reflexivity).
    intros s t tt [= <- <- <-]. by exists row.
Qed.

Lemma reported_always env tr : reported (run env tr mounted).
Proof.
  assert (guarded (run env tr mounted) ∧ reported (run env tr mounted)) as [_ H];
    [|done].
  apply (run_invariant (λ w, guarded w ∧ reported w)).
  - intros now e w [? ?]. split; [by apply step_guarded|by apply step_reported].
  - split; [by destruct (session_invariants env []) as (_ & ? & _)|].
    by intros s t tt.
Qed.

(** X5 ([handleSubmit]).  Every row a session hands to [insert], and so
    every row stored, has a score between 0 and [total_questions],
    [total_questions] equal to the number of questions, an answers entry
    for each question id and for nothing else, and in each entry the
    empty text or one of the option keys. *)
Theorem inserted_rows_are_well_formed env tr :
  let w := run env tr mounted in
  Forall (well_formed (questions (ui w))) (issued w)
  ∧ Forall (well_formed (questions (ui w))) (stored w).
Proof.
  apply (rows_always well_formed). intros u s now.
  apply attempt_well_formed.
Qed.

(** X4 ([handleAnswerSelect] and the option buttons).  In every session,
    every answer collected is filed under the id of a question of the
    loaded quiz and is one of the option keys A to D. *)
Theorem answers_belong_to_questions env tr k v :
  let w := run env tr mounted in
  answers (ui w) !! k = Some v →
  k ∈ ids (questions (ui w)) ∧ v ∈ optionKeys.
Proof. intros w. apply (answered_always env tr). Qed.

Lemma answers_belong_to_questions_witness :
  "q1" ∈ ids (questions (ui (run Scenario.env Scenario.answering mounted)))
  ∧ "A" ∈ optionKeys.
Proof.
  apply (answers_belong_to_questions Scenario.env Scenario.answering "q1" "A").
  by vm_compute.
Defined.

(** X22 (the buttons Previous and Next).  In every session that shows the
    question screen, Next followed by Previous brings back the very state
    it started from when the current question is not the last one, and
    so does Previous followed by Next when it is not the first one. *)
Theorem next_then_previous_returns env tr now now' :
  let w := run env tr mounted in
  let N := Z.of_nat (length (questions (ui w))) in
  shown (ui w) = true → completed w = None →
  (currentQuestionIndex (ui w) < N - 1 →
   step env now' Previous (step env now Next w) = w)
  ∧ (0 < currentQuestionIndex (ui w) →
     step env now' Next (step env now Previous w) = w).
Proof.
  intros w N Hshown Hc.
  destruct (session_invariants env tr) as (_ & _ & _ & [_ Hr]).
  fold w in Hr. specialize (Hr Hshown). fold N in Hr.
  subst N. clearbody w. world w. subst.
  split; intros Hi; open_step; rewrite Hshown; cbn.
  - assert ((idx =? Z.of_nat (length qs) - 1) = false) as ->
      by (apply Z.eqb_neq; lia).
    cbn. rewrite Hshown, Z.min_r by lia. cbn.
    assert ((idx + 1 =? 0) = false) as -> by (apply Z.eqb_neq; lia).
    cbn. rewrite Z.max_r by lia. do 2 f_equal. lia.
  - assert ((idx =? 0) = false) as -> by (apply Z.eqb_neq; lia).
    cbn. rewrite Hshown, Z.max_r by lia. cbn.
    assert ((idx - 1 =? Z.of_nat (length qs) - 1) = false) as ->
      by (apply Z.eqb_neq; lia).
    cbn. rewrite Z.min_r by lia. do 2 f_equal. lia.
Qed.

Lemma next_then_previous_returns_witness :
  step Scenario.env 7000 Previous
    (step Scenario.env 6500 Next
       (run Scenario.env (take 3 Scenario.answering) mounted))
  = run Scenario.env (take 3 Scenario.answering) mounted.
Proof.
  apply (next_then_previous_returns Scenario.env (take 3 Scenario.answering)).
  - by vm_compute.
  - by vm_compute.
  - by vm_compute.
Defined.

(** X23 ([currentQuestion]).  Whenever a session shows the question
    screen, the current index selects a question of the quiz: the render
    never reads the text of an undefined question. *)
Theorem question_screen_has_a_question env tr :
  let w := run env tr mounted in
  shown (ui w) = true →
  ∃ question, currentQuestion (ui w) = Some question
              ∧ question ∈ questions (ui w).
Proof.
  intros w Hshown.
  destruct (session_invariants env tr) as (_ & _ & _ & [_ Hr]).
  fold w in Hr. specialize (Hr Hshown). unfold currentQuestion.
  destruct (lookup_lt_is_Some_2 (questions (ui w))
              (Z.to_nat (currentQuestionIndex (ui w)))) as [q Hq]; [lia|].
  exists q. split; [done|]. by eapply list_elem_of_lookup_2.
Qed.

Lemma question_screen_has_a_question_witness :
  ∃ question,
    currentQuestion (ui (run Scenario.env Scenario.answering mounted))
    = Some question
    ∧ question ∈ questions (ui (run Scenario.env Scenario.answering mounted)).
Proof.
  apply (question_screen_has_a_question Scenario.env Scenario.answering).
  by vm_compute.
Defined.

Lemma step_silent env now e w :
  user env = None → silent w → silent (step env now e w).
Proof.
  intros Hu (H1 & H2 & H3 & H4). world w. subst.
  destruct e; open_step; rewrite ?Hu; cases; done.
Qed.

(** X24 (the guard of [handleSubmit]).  A session without a signed-in
    user sends nothing: whatever happens, no insert is issued, no row is
    stored and [onComplete] is not called. *)
Theorem signed_out_session_sends_nothing env tr :
  user env = None →
  let w := run env tr mounted in
  issued w = [] ∧ stored w = [] ∧ completed w = None.
Proof.
  intros Hu w.
  assert (silent w) as (H1 & _ & H3 & H4); [|done].
  apply (run_invariant silent); [intros; by apply step_silent|done].
Qed.

Lemma signed_out_session_sends_nothing_witness :
  issued (run (mkEnv "quiz-1" None 1000) Scenario.refused_then_timeout mounted)
  = [].
Proof.
  destruct (signed_out_session_sends_nothing (mkEnv "quiz-1" None 1000)
              Scenario.refused_then_timeout) as [H _].
  - done.
  - exact H.
Defined.

End SessionViewFacts.

(** ** The results view: colours and question review *)

Module ReviewFacts.
Import JS QuizResults QuizResultsView FloatFacts ViewTactics.

Lemma SFleb_finite (mk m : positive) (ek e : Z) :
  SFleb (S754_finite false mk ek) (S754_finite false m e) = true
  ↔ ek < e ∨ (ek = e ∧ Z.pos mk <= Z.pos m).
Proof.
  unfold SFleb. cbn [SFcompare].
  destruct (Z.compare_spec ek e) as [H|H|H].
  - change (PosDef.Pos.compare_cont Eq mk m) with (Pos.compare mk m).
    destruct (Pos.compare_spec mk m) as [H'|H'|H']; split; try done; try lia.
  - split; [lia|done].
  - split; [done|lia].
Qed.

Lemma ge_finite (p : number) (k : Z) (mk : positive) (ek : Z) :
  of_Z k = S754_finite false mk ek →
  ge p (of_Z k) = true
  ↔ p = S754_infinity false
    ∨ ∃ m e, p = S754_finite false m e
             ∧ (ek < e ∨ (ek = e ∧ Z.pos mk <= Z.pos m)).
Proof.
  intros ->. unfold ge.
  destruct p as [s|s| |s m e].
  - split; [by destruct s|]. by intros [|(?&?&?&?)].
  - destruct s.
    + split; [done|]. by intros [|(?&?&?&?)].
    + split; [by left|done].
  - split; [done|]. by intros [|(?&?&?&?)].
  - destruct s.
    + split; [done|]. by intros [|(?&?&?&?)].
    + rewrite SFleb_finite. split.
      * intros H. right. by exists m, e.
      * by intros [|(?&?&[= <- <-]&?)].
Qed.

Lemma ge_thresholds (p : number) :
  (ge p (of_Z 90) = true → ge p (of_Z 80) = true)
  ∧ (ge p (of_Z 80) = true → ge p (of_Z 70) = true)
  ∧ (ge p (of_Z 70) = true → ge p (of_Z 60) = true).
Proof.
  rewrite (ge_finite p 90 6333186975989760 (-46)) by (by vm_compute).
  rewrite (ge_finite p 80 5629499534213120 (-46)) by (by vm_compute).
  rewrite (ge_finite p 70 4925812092436480 (-46)) by (by vm_compute).
  rewrite (ge_finite p 60 8444249301319680 (-47)) by (by vm_compute).
  repeat split; (intros [H|(m & e & H & H')]; [by left|right; exists m, e; split; [done|lia]]).
Qed.

(** X10 ([getScoreColor], [getScoreBackground] and the grade).  For every
    number, NaN and the infinities included, the colour, the background
    and the grade of the results header agree: green with A and B, yellow
    with C and D, red with F. *)
Theorem colour_follows_grade (p : number) :
  (grade p, getScoreColor p, getScoreBackground p)
  ∈ [("A", "text-green-600", "bg-green-50 border-green-200");
     ("B", "text-green-600", "bg-green-50 border-green-200");
     ("C", "text-yellow-600", "bg-yellow-50 border-yellow-200");
     ("D", "text-yellow-600", "bg-yellow-50 border-yellow-200");
     ("F", "text-red-600", "bg-red-50 border-red-200")].
Proof.
  destruct (ge_thresholds p) as (H98 & H87 & H76).
  unfold grade, getScoreColor, getScoreBackground.
  destruct (ge p (of_Z 90)) eqn:E9.
  { rewrite H98 by done. apply elem_of_cons. by left. }
  apply elem_of_cons. right.
  destruct (ge p (of_Z 80)) eqn:E8.
  { apply elem_of_cons. by left. }
  apply elem_of_cons. right.
  destruct (ge p (of_Z 70)) eqn:E7.
  { rewrite H76 by done. apply elem_of_cons. by left. }
  apply elem_of_cons. right.
  destruct (ge p (of_Z 60)) eqn:E6.
  { apply elem_of_cons. by left. }
  apply elem_of_cons. right. apply elem_of_cons. by left.
Qed.

Lemma marked_cons mark v vs :
  marked mark (v :: vs) = (if mark v then [key v] else []) ++ marked mark vs.
Proof.
  unfold marked. rewrite filter_cons.
  destruct (mark v); by case_decide.
Qed.

(** X11 (the question review).  For a question whose [correct_answer] is
    one of its option keys, exactly that option is marked "(Correct)";
    "(Your Answer)" marks the stored answer if that is an option key
    other than the correct one, and nothing otherwise: there is no such
    mark for a blank answer, nor for a correct one. *)
Theorem review_marks (userAnswers : gmap string string) (question : Question) :
  correct_answer question ∈ map fst (options question) →
  let views := snd (renderQuestion userAnswers question) in
  marked correctMark views = [correct_answer question]
  ∧ marked yourAnswerMark views
    = match userAnswers !! id question with
      | Some a =>
          if bool_decide (a ∈ map fst (options question)
                          ∧ a ≠ correct_answer question)
          then [a] else []
      | None => []
      end.
Proof.
  intros Hc views. subst views.
  unfold renderQuestion, renderOption, isCorrect, options in *.
  cbn [snd map fst] in *.
  rewrite !marked_cons. cbn [key correctMark yourAnswerMark fst snd].
  change (marked _ []) with (@nil string).
  set (c := correct_answer question) in *. clearbody c.
  rewrite !elem_of_cons, elem_of_nil in Hc.
  destruct (userAnswers !! id question) as [a|] eqn:Ea.
  - assert (a = "A" ∨ a = "B" ∨ a = "C" ∨ a = "D"
            ∨ (a ≠ "A" ∧ a ≠ "B" ∧ a ≠ "C" ∧ a ≠ "D")) as Ha.
    { destruct (decide (a = "A")); [by left|].
      destruct (decide (a = "B")); [by right; left|].
      destruct (decide (a = "C")); [by right; right; left|].
      destruct (decide (a = "D")); [by right; right; right; left|].
      by right; right; right; right. }
    destruct Ha as [->|[->|[->|[->|(?&?&?&?)]]]];
      destruct Hc as [->|[->|[->|[->|[]]]]]; try (by vm_compute).
    all: rewrite (bool_decide_eq_false_2 (a ∈ _ ∧ _))
           by (rewrite !elem_of_cons, elem_of_nil;
               intros [[|[|[|[|[]]]]] _]; done).
    all: decide_marks; done.
  - destruct Hc as [->|[->|[->|[->|[]]]]]; decide_marks; done.
Qed.

Lemma review_marks_witness :
  marked yourAnswerMark
    (snd (renderQuestion {["q1" := "B"]}
            (mkQuestion "q1" "?" "a" "b" "c" "d" "A"))) = ["B"]
  ∧ marked correctMark
      (snd (renderQuestion {["q1" := ""]}
              (mkQuestion "q1" "?" "a" "b" "c" "d" "A"))) = ["A"]
  ∧ marked yourAnswerMark
      (snd (renderQuestion {["q1" := ""]}
              (mkQuestion "q1" "?" "a" "b" "c" "d" "A"))) = [].
Proof.
  destruct (review_marks {["q1" := "B"]} (mkQuestion "q1" "?" "a" "b" "c" "d" "A"))
    as [_ H1]; [apply (bool_decide_eq_true_1 (_ ∈ _)); by vm_compute|].
  destruct (review_marks {["q1" := ""]} (mkQuestion "q1" "?" "a" "b" "c" "d" "A"))
    as [H2 H3]; [apply (bool_decide_eq_true_1 (_ ∈ _)); by vm_compute|].
  split; [|split].
  - rewrite H1. by vm_compute.
  - exact H2.
  - rewrite H3. by vm_compute.
Defined.

End ReviewFacts.

(** ** The review of a session's stored row *)

Module ReviewOfSession.
Import JS QuizInterface QuizInterfaceView QuizResultsView SessionFacts SessionViewFacts.

Lemma checks_of_scored (qs l : list Question) (answers : gmap string string) :
  Forall (λ q, correct_answer q ≠ "") l → l ⊆ qs →
  checks (snd (scoreAnswers qs answers)) (map reviewed l)
  = correct_count l answers.
Proof.
  unfold checks, correct_count. intros Hne Hsub. f_equal.
  induction l as [|q l IH]; [done|].
  apply Forall_cons in Hne as [Hq Hne].
  assert (q ∈ qs) as Hin by (apply Hsub; apply elem_of_cons; by left).
  assert (l ⊆ qs) as Hl by (intros x Hx; apply Hsub; apply elem_of_cons; by right).
  specialize (IH Hne Hl). cbn [map]. rewrite !filter_cons.
  assert (isCorrect (snd (scoreAnswers qs answers)) (reviewed q) = true
          ↔ answers !! id q = Some (correct_answer q)) as Hiff.
  { unfold isCorrect. rewrite bool_decide_eq_true. unfold reviewed. cbn.
    rewrite scoreAnswers_lookup.
    rewrite decide_True by (apply list_elem_of_fmap; by exists q).
    destruct (answers !! id q) as [a|]; cbn; split; intros [= H]; by subst. }
  repeat case_decide; cbn [length];
    first [by rewrite IH | exact IH | exfalso; tauto].
Qed.

(** X12 ([handleSubmit] and the question review).  When no question has
    an empty [correct_answer], the number of questions that the results
    view marks as correct, reading the answers of a stored row, is the
    score of that row. *)
Theorem review_agrees_with_stored_score env tr :
  let w := run env tr mounted in
  Forall (λ q, correct_answer q ≠ "") (questions (ui w)) →
  Forall (λ row, checks (attempt_answers row) (map reviewed (questions (ui w)))
                 = score row)
         (stored w).
Proof.
  intros w Hne.
  destruct (rows_always
              (λ qs row, Forall (λ q, correct_answer q ≠ "") qs →
                         checks (attempt_answers row) (map reviewed qs) = score row)
              env tr) as [_ H].
  - intros u s now _ Hq. rewrite attempt_fields. cbn [attempt_answers score].
    rewrite scoreAnswers_score. by apply checks_of_scored.
  - eapply Forall_impl; [exact H|]. intros row Hrow. by apply Hrow.
Qed.

Lemma review_agrees_with_stored_score_witness :
  let w := run Scenario.env
             (Scenario.answering ++ [(126999, Submit); (127400, InsertOk)])
             mounted in
  Forall (λ row, checks (attempt_answers row) (map reviewed (questions (ui w)))
                 = score row)
         (stored w).
Proof.
  apply (review_agrees_with_stored_score Scenario.env
           (Scenario.answering ++ [(126999, Submit); (127400, InsertOk)])).
  apply (bool_decide_eq_true_1 (Forall _ _)). by vm_compute.
Defined.

End ReviewOfSession.

(** ** The application's screens *)

Module AppFacts.
Import JS App.

Lemma calls_snoc calls c s : run (calls ++ [c]) s = handle c (run calls s).
Proof. unfold run. by rewrite fold_left_app. Qed.

(** X13 (the handlers of App.tsx).  After any sequence of calls of
    [handleStartQuiz], [handleQuizComplete] and [handleBackToDashboard], a
    signed-in user is shown a screen and never the empty layout: in the
    state [results] the score, the total and the time are all set, as
    the non-null assertions of the render assume; in the other states
    none of them is, and on the dashboard the quiz id is empty. *)
Theorem results_screen_is_never_blank (calls : list Call) (user : string) :
  let s := run calls initial in
  render (Some user) false s ≠ Nothing
  ∧ (appState s = results →
     ∃ sc t tt, score (quizData s) = Some sc
                ∧ totalQuestions (quizData s) = Some t
                ∧ timeTaken (quizData s) = Some tt
                ∧ render (Some user) false s
                  = QuizResultsScreen (quizId (quizData s)) sc (Some t) (Some tt))
  ∧ (appState s ≠ results →
     score (quizData s) = None ∧ totalQuestions (quizData s) = None
     ∧ timeTaken (quizData s) = None)
  ∧ (appState s = dashboard → quizId (quizData s) = "").
Proof.
  induction calls as [|c calls IH] using rev_ind.
  - cbn. repeat split; try done. 
  - rewrite calls_snoc. cbv zeta in IH.
    destruct IH as (IH1 & IH2 & IH3 & IH4).
    destruct c; cbn.
    + repeat split; try done.
    + repeat split; try done. intros _. by eexists _, _, _.
    + repeat split; try done.
Qed.

End AppFacts.

(** ** From the session to the results screen *)

Module AppOfSession.
Import JS QuizInterface QuizInterfaceView SessionFacts SessionViewFacts.

(** X14 ([onComplete] of the quiz session, [handleQuizComplete]).  When a
    session completes, the values it passes on, which the results screen
    then receives, are the score, [total_questions] and
    [time_taken_seconds] of the one row that was stored, and that row is
    well formed. *)
Theorem results_screen_shows_stored_attempt env tr (user : string)
    (call : App.Call) (a : App.State) :
  let w := run env tr mounted in
  App.completion w = Some call →
  ∃ row,
    stored w = [row]
    ∧ well_formed (questions (ui w)) row
    ∧ App.render (Some user) false (App.handle call a)
      = App.QuizResultsScreen (App.quizId (App.quizData a)) (score row)
          (Some (total_questions row)) (Some (time_taken_seconds row)).
Proof.
  intros w. subst w. unfold App.completion.
  destruct (completed (run env tr mounted)) as [[[s t] tt]|] eqn:Hc; [|done].
  intros [= <-].
  destruct (reported_always env tr s t tt Hc) as (row & Hst & <- & <- & <-).
  exists row. split; [done|]. split; [|done].
  destruct (rows_always well_formed env tr) as [_ H].
  { intros u' s' now'. apply attempt_well_formed. }
  cbv zeta in H. rewrite Hst, Forall_singleton in H. exact H.
Qed.

Lemma results_screen_shows_stored_attempt_witness :
  let w := run Scenario.env
             (Scenario.answering ++ [(126999, Submit); (127400, InsertOk)])
             mounted in
  ∃ row,
    stored w = [row]
    ∧ well_formed (questions (ui w)) row
    ∧ App.render (Some "user-1") false
        (App.handle (App.QuizComplete 3 5 (of_Z 125))
           (App.handleStartQuiz "quiz-1" App.initial))
      = App.QuizResultsScreen "quiz-1" (score row)
          (Some (total_questions row)) (Some (time_taken_seconds row)).
Proof.
  apply (results_screen_shows_stored_attempt Scenario.env
           (Scenario.answering ++ [(126999, Submit); (127400, InsertOk)])
           "user-1" (App.QuizComplete 3 5 (of_Z 125))
           (App.handleStartQuiz "quiz-1" App.initial)).
  by vm_compute.
Defined.

End AppOfSession.

(** ** Quiz cards *)

Module CardFacts.
Import JS Dashboard DashboardSpec DashboardLoad FloatFacts DashboardFacts TextFacts.

Lemma attempts_count_nonneg s quizId : 0 <= getQuizAttempts s quizId.
Proof. unfold getQuizAttempts. lia. Qed.

Lemma best_score_absent s quizId :
  getBestScore s quizId = None ↔ getQuizAttempts s quizId = 0.
Proof.
  unfold getBestScore, getQuizAttempts.
  destruct (Z.eqb_spec (Z.of_nat (length (filter (λ attempt, quiz_id attempt = quizId)
                                            (quizAttempts s)))) 0); split; done.
Qed.

(** X15 ([QuizCard] as the dashboard fills it from [getQuizAttempts] and
    [getBestScore]).  A card shows a best score exactly when its button
    reads "Retake Quiz"; it shows none exactly when the button reads
    "Start Quiz", exactly when the line below reads "Not attempted yet",
    and exactly when no attempt of the user is on that quiz. *)
Theorem card_offers_retake_with_best_score (s : Dashboard.State)
    (quiz : QuizCard.Quiz) :
  let card := QuizCard.QuizCard quiz
                (Some (getQuizAttempts s (QuizCard.id quiz)))
                (getBestScore s (QuizCard.id quiz)) in
  (is_Some (QuizCard.trophy card) ↔ QuizCard.buttonLabel card = "Retake Quiz")
  ∧ (QuizCard.trophy card = None ↔ QuizCard.buttonLabel card = "Start Quiz")
  ∧ (QuizCard.trophy card = None
     ↔ QuizCard.attemptsLine card = "Not attempted yet")
  ∧ (QuizCard.trophy card = None
     ↔ Forall (λ a, quiz_id a ≠ QuizCard.id quiz) (quizAttempts s)).
Proof.
  intros card. subst card. unfold QuizCard.QuizCard.
  cbn [QuizCard.trophy QuizCard.buttonLabel QuizCard.attemptsLine default
       from_option id].
  pose proof (attempts_count_nonneg s (QuizCard.id quiz)) as Hn.
  pose proof (best_score_absent s (QuizCard.id quiz)) as Hb.
  pose proof (proj2 (per_quiz_counts s (QuizCard.id quiz))) as Hf.
  set (n := getQuizAttempts s (QuizCard.id quiz)) in *. clearbody n.
  destruct (getBestScore s (QuizCard.id quiz)) as [c|].
  - assert (n ≠ 0) as Hn0 by (intros H; by apply Hb in H).
    assert ((0 <? n) = true) as -> by (apply Z.ltb_lt; lia).
    repeat split; try done.
    intros H. exfalso. apply Hf in H. done.
  - assert (n = 0) as -> by (by apply Hb).
    cbn. repeat split; try done; try (by intros [? [=]]).
    intros _. by apply Hf.
Qed.

Lemma count_cons (a : QuizAttempt) (L : list QuizAttempt) (q : string) :
  length (filter (λ attempt, quiz_id attempt = q) (a :: L))
  = ((if decide (quiz_id a = q) then 1 else 0)
     + length (filter (λ attempt, quiz_id attempt = q) L))%nat.
Proof. rewrite filter_cons. by case_decide. Qed.

Lemma spec_sum_cons x xs : spec_sum (x :: xs) = x + spec_sum xs.
Proof. done. Qed.

Lemma count_in_cons (a : QuizAttempt) (L : list QuizAttempt) (ids : list string) :
  NoDup ids →
  spec_sum (map (λ q, Z.of_nat (length (filter (λ a, quiz_id a = q) (a :: L)))) ids)
  = (if decide (quiz_id a ∈ ids) then 1 else 0)
    + spec_sum (map (λ q, Z.of_nat (length (filter (λ a, quiz_id a = q) L))) ids).
Proof.
  induction ids as [|q ids IHq]; intros Hnd.
  - by rewrite decide_False by apply not_elem_of_nil.
  - apply NoDup_cons in Hnd as [Hq Hnd].
    cbn [map]. rewrite !spec_sum_cons, (IHq Hnd), count_cons.
    destruct (decide (quiz_id a = q)) as [H1|H1],
             (decide (quiz_id a ∈ ids)) as [H2|H2],
             (decide (quiz_id a ∈ q :: ids)) as [H3|H3];
      try lia; exfalso; rewrite elem_of_cons in H3; subst; tauto.
Qed.

Lemma counts_add_up (ids : list string) (L : list QuizAttempt) :
  NoDup ids →
  spec_sum (map (λ q, Z.of_nat (length (filter (λ a, quiz_id a = q) L))) ids)
  = Z.of_nat (length (filter (λ a, quiz_id a ∈ ids) L)).
Proof.
  intros Hnd. induction L as [|a L IH].
  - rewrite filter_nil. clear Hnd. induction ids as [|q ids IHq]; [done|].
    cbn [map]. by rewrite spec_sum_cons, IHq, filter_nil.
  - rewrite count_in_cons, IH, filter_cons by done.
    case_decide; cbn [length]; lia.
Qed.

(** X16 ([getQuizAttempts] and [fetchUserStats]).  After the attempts of
    the user have been fetched into the dashboard, whatever its state
    before: over cards of distinct quiz ids, the attempt counts add up to
    the number of fetched attempts that are on a listed quiz.  If some
    attempt was fetched, the total attempts are their number, so the sum
    is never more, and is as much when every attempt is on a listed
    quiz.  If none was fetched, every count is zero while the statistics,
    the total attempts among them, stay what they were before. *)
Theorem card_counts_add_up (user : string) (before : Dashboard.State)
    (data : option (list QuizAttempt)) (listed : list QuizCard.Quiz) :
  NoDup (map QuizCard.id listed) →
  let L := default [] data in
  let s := fetchUserStats (Some user) (Data data) before in
  let counts := map (λ quiz, getQuizAttempts s (QuizCard.id quiz)) listed in
  quizAttempts s = L
  ∧ spec_sum counts
    = Z.of_nat (length (filter (λ a, quiz_id a ∈ map QuizCard.id listed) L))
  ∧ (L ≠ [] →
     totalAttempts (userStats s) = Z.of_nat (length L)
     ∧ spec_sum counts <= totalAttempts (userStats s)
     ∧ (Forall (λ a, quiz_id a ∈ map QuizCard.id listed) L →
        spec_sum counts = totalAttempts (userStats s)))
  ∧ (L = [] → spec_sum counts = 0 ∧ userStats s = userStats before).
Proof.
  intros Hnd L s counts.
  assert (quizAttempts s = L) as HL by done.
  assert (spec_sum counts
          = Z.of_nat (length (filter (λ a, quiz_id a ∈ map QuizCard.id listed) L)))
    as Hsum.
  { rewrite <- counts_add_up by done. subst counts.
    unfold getQuizAttempts. rewrite HL. f_equal.
    by rewrite map_map. }
  split; [done|]. split; [done|]. split.
  - intros Hne.
    assert (totalAttempts (userStats s) = Z.of_nat (length L)) as Htot.
    { subst s. unfold fetchUserStats. fold L. cbn [userStats].
      destruct L as [|a L']; [done|].
      replace (0 <? Z.of_nat (length (a :: L'))) with true
        by (symmetry; apply Z.ltb_lt; cbn [length]; lia).
      done. }
    split; [done|]. rewrite Htot, Hsum. split.
    + apply inj_le, length_filter.
    + intros Hall. f_equal. f_equal.
      clear -Hall. induction Hall as [|a L' Ha _ IH]; [done|].
      rewrite filter_cons, decide_True by done. by f_equal.
  - intros He. rewrite Hsum, He. split; [done|].
    subst s. unfold fetchUserStats. fold L. rewrite He. done.
Qed.

Lemma card_counts_add_up_witness :
  let s := fetchUserStats (Some "user-1")
             (Data (Some [mkAttempt "quiz-1" 3 5 125; mkAttempt "quiz-1" 5 5 90;
                          mkAttempt "quiz-9" 1 5 30]))
             Dashboard.initial in
  spec_sum (map (λ quiz, getQuizAttempts s (QuizCard.id quiz))
                [QuizCard.mkQuiz "quiz-1" "One" None 20 5 "2025" true;
                 QuizCard.mkQuiz "quiz-2" "Two" None 20 5 "2025" true])
  = 2
  ∧ totalAttempts (userStats s) = 3.
Proof.
  destruct (card_counts_add_up "user-1" Dashboard.initial
              (Some [mkAttempt "quiz-1" 3 5 125; mkAttempt "quiz-1" 5 5 90;
                     mkAttempt "quiz-9" 1 5 30])
              [QuizCard.mkQuiz "quiz-1" "One" None 20 5 "2025" true;
               QuizCard.mkQuiz "quiz-2" "Two" None 20 5 "2025" true])
    as (_ & H & Hn & _).
  - apply (bool_decide_eq_true_1 (NoDup _)). by vm_compute.
  - cbv zeta in H, Hn. split.
    + rewrite H. by vm_compute.
    + destruct Hn as [Ht _]; [done|]. rewrite Ht. by vm_compute.
Defined.

(** After a load of three attempts, a reload that fetches none leaves the
    total attempts at three while every card counts none. *)
Example stale_statistics :
  let s := fetchUserStats (Some "user-1") (Data (Some []))
             (loaded "user-1"
                [mkAttempt "quiz-1" 3 5 125; mkAttempt "quiz-1" 5 5 90;
                 mkAttempt "quiz-9" 1 5 30]) in
  totalAttempts (userStats s) = 3
  ∧ getQuizAttempts s "quiz-1" = 0
  ∧ getBestScore s "quiz-1" = None.
Proof. by vm_compute. Qed.

Lemma percent_shown (a : QuizAttempt) :
  plausible a → percent a = of_Z (shown_percent a) ∧ 0 <= shown_percent a <= 100.
Proof.
  intros Ha. destruct (percent_characterised a Ha) as (n & Hn & Hb & _).
  unfold shown_percent. rewrite Hn, to_Z_of_Z; [done|].
  change (2 ^ 53) with 9007199254740992. lia.
Qed.

Lemma Math_max_shown (a : QuizAttempt) (l : list QuizAttempt) :
  Forall plausible (a :: l) →
  Math_max (map percent (a :: l))
  = of_Z (fold_left Z.max (map shown_percent l) (shown_percent a)).
Proof.
  intros Hall.
  assert (map percent (a :: l) = map of_Z (map shown_percent (a :: l))) as ->.
  { induction Hall as [|b k Hb _ IH]; [done|].
    cbn [map]. f_equal; [by apply percent_shown|done]. }
  cbn [map]. apply Math_max_of_Z.
  change (shown_percent a :: map shown_percent l) with (map shown_percent (a :: l)).
  induction Hall as [|b k Hb _ IH]; [done|].
  cbn [map]. apply Forall_cons. split; [|done].
  destruct (percent_shown b Hb) as [_ ?].
  change (2 ^ 53) with 9007199254740992. lia.
Qed.

Lemma fold_max_from (xs : list Z) (x : Z) :
  x <= fold_left Z.max xs x
  ∧ Forall (λ y, y <= fold_left Z.max xs x) xs
  ∧ fold_left Z.max xs x ∈ x :: xs.
Proof.
  revert x. induction xs as [|y xs IH]; intros x.
  - cbn. repeat split; [lia|done|]. apply elem_of_cons. by left.
  - cbn [fold_left]. destruct (IH (Z.max x y)) as (H1 & H2 & H3).
    repeat split; [lia| |].
    + apply Forall_cons. split; [lia|done].
    + apply elem_of_cons in H3 as [H3|H3].
      * rewrite H3. destruct (Z.max_spec x y) as [[_ ->]|[_ ->]].
        -- apply elem_of_cons. right. apply elem_of_cons. by left.
        -- apply elem_of_cons. by left.
      * apply elem_of_cons. right. apply elem_of_cons. by right.
Qed.

(** The largest percentage shown for the attempts of a non-empty list. *)
Lemma best_of (l : list QuizAttempt) :
  l ≠ [] → Forall plausible l →
  ∃ m, Math_max (map percent l) = of_Z m
       ∧ 0 <= m <= 100
       ∧ Forall (λ a, shown_percent a <= m) l
       ∧ ∃ a, a ∈ l ∧ shown_percent a = m.
Proof.
  intros Hne Hall. destruct l as [|a l]; [done|].
  exists (fold_left Z.max (map shown_percent l) (shown_percent a)).
  destruct (fold_max_from (map shown_percent l) (shown_percent a)) as (H1 & H2 & H3).
  split; [by apply Math_max_shown|].
  assert (∃ b, b ∈ a :: l
               ∧ shown_percent b
                 = fold_left Z.max (map shown_percent l) (shown_percent a))
    as (b & Hb & Hbm).
  { apply elem_of_cons in H3 as [H3|H3].
    - exists a. split; [apply elem_of_cons; by left|done].
    - apply list_elem_of_fmap in H3 as (b & -> & Hb).
      exists b. split; [apply elem_of_cons; by right|done]. }
  split; [|split].
  - rewrite <- Hbm. rewrite Forall_forall in Hall.
    by destruct (percent_shown b (Hall b Hb)).
  - apply Forall_cons. split; [done|].
    rewrite Forall_fmap in H2. exact H2.
  - by exists b.
Qed.

Lemma best_of_loaded user (L : list QuizAttempt) :
  L ≠ [] → bestScore (userStats (loaded user L)) = Math_max (map percent L).
Proof.
  intros Hne. destruct L as [|a L]; [done|].
  cbv [loaded fetchUserStats default from_option id]. cbn [userStats].
  replace (0 <? Z.of_nat (length (a :: L))) with true
    by (symmetry; apply Z.ltb_lt; cbn [length]; lia).
  done.
Qed.

Lemma best_of_card s quizId :
  filter (λ a, quiz_id a = quizId) (quizAttempts s) ≠ [] →
  getBestScore s quizId
  = Some (Math_max (map percent (filter (λ a, quiz_id a = quizId) (quizAttempts s)))).
Proof.
  intros Hne. unfold getBestScore.
  destruct (filter (λ a, quiz_id a = quizId) (quizAttempts s)) as [|a l]; [done|].
  replace (Z.of_nat (length (a :: l)) =? 0) with false; [done|].
  symmetry. apply Z.eqb_neq. cbn [length]. lia.
Qed.

(** X17 ([getBestScore] and [bestScore]).  For a non-empty list of
    attempts, each with a score within its total and a total between 1
    and 2^32, no card shows a best score above the dashboard's best
    score, and the card of some attempt shows exactly that score. *)
Theorem card_best_is_within_dashboard_best (user : string)
    (L : list QuizAttempt) :
  L ≠ [] → Forall plausible L →
  let s := loaded user L in
  (∀ quizId c, getBestScore s quizId = Some c →
               ge (bestScore (userStats s)) c = true)
  ∧ ∃ a, a ∈ L ∧ getBestScore s (quiz_id a) = Some (bestScore (userStats s)).
Proof.
  intros Hne Hall s.
  assert (quizAttempts s = L) as HL by done.
  assert (bestScore (userStats s) = Math_max (map percent L)) as ->
    by (by apply best_of_loaded).
  destruct (best_of L Hne Hall) as (M & -> & HM & Hle & a & Ha & HaM).
  assert (∀ quizId, filter (λ a, quiz_id a = quizId) L ≠ [] →
            ∃ m, getBestScore s quizId = Some (of_Z m) ∧ 0 <= m <= M
                 ∧ ∀ b, b ∈ L → quiz_id b = quizId → shown_percent b <= m)
    as Hcard.
  { intros quizId Hq.
    assert (Forall plausible (filter (λ a, quiz_id a = quizId) L)) as Hpl.
    { apply Forall_forall. intros b Hb. apply list_elem_of_filter in Hb as [_ Hb].
      rewrite Forall_forall in Hall. by apply Hall. }
    destruct (best_of _ Hq Hpl) as (m & Hm & Hm' & Hmle & b & Hb & Hbm).
    exists m. rewrite best_of_card by (by rewrite HL). rewrite HL, Hm.
    split; [done|]. split.
    - split; [lia|]. rewrite <- Hbm.
      apply list_elem_of_filter in Hb as [_ Hb].
      rewrite Forall_forall in Hle. by apply Hle.
    - intros b' Hb' Hq'. rewrite Forall_forall in Hmle. apply Hmle.
      by apply list_elem_of_filter. }
  split.
  - intros quizId c Hc.
    destruct (decide (filter (λ a, quiz_id a = quizId) L = [])) as [He|He].
    { unfold getBestScore in Hc. rewrite HL, He in Hc. done. }
    destruct (Hcard quizId He) as (m & Hm & Hb & _).
    rewrite Hm in Hc. injection Hc as <-.
    unfold ge, SFleb. rewrite of_Z_compare
      by (change (2 ^ 53) with 9007199254740992; lia).
    by destruct (Z.compare_spec m M); [| |lia].
  - exists a. split; [done|].
    assert (filter (λ b, quiz_id b = quiz_id a) L ≠ []) as He.
    { intros He. assert (a ∈ filter (λ b, quiz_id b = quiz_id a) L) as Hin
        by (by apply list_elem_of_filter).
      rewrite He in Hin. by apply not_elem_of_nil in Hin. }
    destruct (Hcard (quiz_id a) He) as (m & Hm & Hb & Hge).
    rewrite Hm. do 2 f_equal. specialize (Hge a Ha eq_refl). lia.
Qed.

Lemma card_best_is_within_dashboard_best_witness :
  ge (bestScore (userStats (loaded "user-1"
                              [mkAttempt "quiz-1" 3 5 125;
                               mkAttempt "quiz-2" 5 5 90])))
     (of_Z 60) = true.
Proof.
  destruct (card_best_is_within_dashboard_best "user-1"
              [mkAttempt "quiz-1" 3 5 125; mkAttempt "quiz-2" 5 5 90])
    as [H _].
  - done.
  - apply (bool_decide_eq_true_1 (Forall _ _)). by vm_compute.
  - apply (H "quiz-1"). by vm_compute.
Defined.

End CardFacts.

(** ** Loading the dashboard *)

Module LoadFacts.
Import JS Dashboard DashboardLoad ViewTactics.

(** X18 ([initializeDashboard], [fetchQuizzes], [testConnection]).
    Whatever the backend answers, and whatever the state before, the
    initialisation ends with the spinner gone and the connection status
    decided; the overview is rendered exactly when the probe and the quiz
    query both succeed, and the error screen otherwise.  A failed query
    for the attempts brings up no error: it leaves the statistics and the
    attempts as they were. *)
Theorem dashboard_load_always_ends (user : option string) (b : Backend)
    (s : Screen) :
  let s' := initializeDashboard user b s in
  loading s' = false
  ∧ connectionStatus s' ≠ testing
  ∧ (render s' = Overview ↔ load_failed b = false)
  ∧ (load_failed b = true → ∃ message, render s' = ConnectionError message)
  ∧ (∀ e, attemptsReply b = Failed e →
          userStats (stats s') = userStats (stats s)
          ∧ quizAttempts (stats s') = quizAttempts (stats s)).
Proof.
  unfold initializeDashboard, load_failed, render.
  backends b user.
  all: repeat split; try done; try (by eexists); try (by intros e ->).
  all: by subst.
Qed.

(** X19 ([initializeDashboard], [handleRetry]).  If the connection probe
    fails, no other query is issued, the quizzes, the statistics and the
    attempts stay as they were, and the error screen is rendered; "Try
    Again" against any backend then shows what initialising against that
    backend would have shown in the first place. *)
Theorem failed_probe_changes_nothing (user : option string) (b b' : Backend)
    (s : Screen) :
  fst (testConnection (probeResponse b)) = false →
  let s' := initializeDashboard user b s in
  queries s' = queries s ++ [Probe]
  ∧ quizzes s' = quizzes s
  ∧ userStats (stats s') = userStats (stats s)
  ∧ quizAttempts (stats s') = quizAttempts (stats s)
  ∧ connectionStatus s' = failed
  ∧ (∃ message, render s' = ConnectionError message)
  ∧ visible (handleRetry user b' s') = visible (initializeDashboard user b' s).
Proof.
  intros Hprobe s'. subst s'.
  destruct b as [[? [?|]|?] ? ?]; cbn in Hprobe; try done.
  all: split; [done|]; split; [done|]; split; [done|]; split; [done|];
       split; [done|]; split; [by eexists|].
  all: backends b' user; try done.
  all: match goal with r : Reply _ |- _ => destruct r as [[l|]|e] end; done.
Qed.

Lemma failed_probe_changes_nothing_witness :
  ∃ message,
    render (initializeDashboard (Some "user-1")
              (mkBackend (Rejected (ErrorObject "Failed to fetch"))
                 (Resolved (Some []) None) (Data None))
              initial)
    = ConnectionError message.
Proof.
  destruct (failed_probe_changes_nothing (Some "user-1")
              (mkBackend (Rejected (ErrorObject "Failed to fetch"))
                 (Resolved (Some []) None) (Data None))
              (mkBackend (Resolved None None) (Resolved (Some []) None) (Data None))
              initial) as (_ & _ & _ & _ & _ & H & _).
  - done.
  - exact H.
Defined.

End LoadFacts.

(** ** The sign-in form *)

Module LoginFacts.
Import JSText LoginForm.

Lemma or_else_nonempty value fallback :
  fallback ≠ "" → or_else value fallback ≠ "".
Proof. intros Hf. unfold or_else. destruct value; [by case_decide|done]. Qed.

Lemma getErrorMessage_nonempty message : getErrorMessage message ≠ "".
Proof.
  unfold getErrorMessage. repeat case_match; try done.
  by apply or_else_nonempty.
Qed.

(** X20 ([handleSubmit] of the sign-in form).  Whatever [trim] does:
    after a submit the form is no longer loading and its fields are as
    typed; the box "Sign In Failed" is absent exactly when both trimmed
    fields are non-empty and [signIn] reported no error; and [signIn] is
    called, once, with the trimmed email and the password as typed,
    exactly when both trimmed fields are non-empty. *)
Theorem sign_in_failure_is_always_shown (trim : string → string)
    (outcome : option (option string)) (w : World) :
  let w' := handleSubmit trim outcome w in
  loading (form w') = false
  ∧ email (form w') = email (form w)
  ∧ password (form w') = password (form w)
  ∧ (errorBox (form w') = false
     ↔ trim (email (form w)) ≠ "" ∧ trim (password (form w)) ≠ ""
       ∧ outcome = None)
  ∧ signIns w'
    = signIns w
      ++ (if bool_decide (trim (email (form w)) ≠ ""
                          ∧ trim (password (form w)) ≠ "")
          then [(trim (email (form w)), password (form w))] else []).
Proof.
  unfold handleSubmit, errorBox.
  destruct (decide (trim (email (form w)) = "")) as [He|He].
  { rewrite (bool_decide_eq_false_2 (_ ∧ _)) by tauto. cbn. repeat split; try done; tauto. }
  destruct (decide (trim (password (form w)) = "")) as [Hp|Hp].
  { rewrite (bool_decide_eq_false_2 (_ ∧ _)) by tauto. cbn. repeat split; try done; tauto. }
  rewrite (bool_decide_eq_true_2 (_ ∧ _)) by done.
  destruct outcome as [message|]; cbn [finish form loading email password error signIns].
  - repeat split; try done; try (by intros (_ & _ & [=])).
    match goal with H : negb _ = false |- _ =>
      rewrite negb_false_iff, bool_decide_eq_true in H;
      by apply getErrorMessage_nonempty in H
    end.
  - repeat split; done.
Qed.

(** X21 ([getErrorMessage] and the link "Create one here").  After a
    sign-in that the backend refuses with a message, the link is offered
    exactly when the message includes "Invalid login credentials", or
    includes neither "Email not confirmed" nor "Too many requests" and
    itself includes "Invalid email or password". *)
Theorem create_account_link_is_offered (trim : string → string)
    (text : string) (w : World) :
  trim (email (form w)) ≠ "" → trim (password (form w)) ≠ "" →
  let w' := handleSubmit trim (Some (Some text)) w in
  createAccountLink (form w')
  = includes text "Invalid login credentials"
    || (negb (includes text "Email not confirmed")
        && negb (includes text "Too many requests")
        && includes text "Invalid email or password").
Proof.
  intros He Hp. unfold handleSubmit.
  rewrite decide_False by done. rewrite decide_False by done.
  unfold createAccountLink, errorBox.
  cbn [finish form error]. unfold getErrorMessage. cbn [fmap option_fmap option_map default from_option id].
  destruct (includes text "Invalid login credentials") eqn:E1; [by vm_compute|].
  destruct (includes text "Email not confirmed") eqn:E2; [by vm_compute|].
  destruct (includes text "Too many requests") eqn:E3; [by vm_compute|].
  unfold or_else. destruct (decide (text = "")) as [->|Hne]; [by vm_compute|].
  rewrite (bool_decide_eq_false_2 (text = "")) by done. done.
Qed.

Lemma create_account_link_is_offered_witness :
  createAccountLink
    (form (handleSubmit (λ s, s) (Some (Some "Invalid login credentials"))
             (mkWorld (mkState "ada@example.org" "secret" false false "") [])))
  = true.
Proof.
  rewrite (create_account_link_is_offered (λ s, s) "Invalid login credentials"
             (mkWorld (mkState "ada@example.org" "secret" false false "") [])).
  - by vm_compute.
  - by vm_compute.
  - by vm_compute.
Defined.

End LoginFacts.
